(** * KNOUX SmartOrganizer: the analysis-and-organization pipeline

    A shallow embedding of [src/hooks/use-image-organizer.ts] (the React hook
    that drives a batch) and of the unified AI engine that follows it in the
    same source file (class [UnifiedAIEngine]).

    Conventions of the embedding.
    - A JavaScript string is a [string]: a sequence of 8-bit code units.
    - A JavaScript number that is a count or an index is a [Z] or a [nat];
      a score, probability or colour mean is an exact rational [Q]; the
      quality metrics, which need square roots, are real numbers [R].
      IEEE rounding of doubles is not modelled.
    - A call that may throw returns a [JS.result].
    - What the browser or an ML model answers (a classifier's labels, the
      pixels a canvas hands back, a value of [Math.random()]) is an input
      of the function that asks for it.
    - An asynchronous call runs from one [await] to the next without
      interruption; what other code does while it is suspended (calls of
      [stopProcessing] and of [processImages], and the steps of the calls
      these start) is interleaved at its [await]s.  An object that is
      changed in place and reachable from two places is modelled as
      shared: a change shows in both. *)

From Stdlib Require Import ZArith QArith Qround Qreals Reals List String Ascii.
From Stdlib.Strings Require Import Byte.
From Stdlib Require Import Bool Lia Lqa Lra.
From stdpp Require Import base gmap sets strings pretty.
Import ListNotations.

Local Open Scope string_scope.
Local Open Scope Z_scope.

(** ** JavaScript helpers *)

Module JS.

(** The outcome of a call that may throw. *)
Inductive result (A : Type) : Type :=
| Ok (a : A)
| Throw (msg : string).
Arguments Ok {A} a.
Arguments Throw {A} msg.

Definition bind {A B} (r : result A) (k : A -> result B) : result B :=
  match r with
  | Ok a => k a
  | Throw m => Throw m
  end.

(** [try { body } catch { handler }] *)
Definition try_catch {A} (body : result A) (handler : string -> result A)
  : result A :=
  match body with
  | Ok a => Ok a
  | Throw m => handler m
  end.

(** [c.toLowerCase()] on one code unit: A-Z and the Latin-1 capitals. *)
Definition lower_ascii (c : ascii) : ascii :=
  let n := N_of_ascii c in
  if ((65 <=? n) && (n <=? 90))%N then ascii_of_N (n + 32)
  else if ((192 <=? n) && (n <=? 222) && negb (n =? 215))%N
       then ascii_of_N (n + 32)
       else c.

Fixpoint toLowerCase (s : string) : string :=
  match s with
  | EmptyString => EmptyString
  | String c s' => String (lower_ascii c) (toLowerCase s')
  end.

(** [s.includes(sub)] *)
Fixpoint includes (s sub : string) : bool :=
  String.prefix sub s
  || match s with
     | EmptyString => false
     | String _ s' => includes s' sub
     end.

(** [a > b] on rationals. *)
Definition Qgtb (a b : Q) : bool := negb (Qle_bool a b).

(** JavaScript truthiness of an optional string: [undefined] and the empty
    string are falsy. *)
Definition truthy_string (s : option string) : bool :=
  match s with
  | Some (String _ _) => true
  | _ => false
  end.

End JS.

(** [x ← r; k] runs [r] and, unless it throws, continues with [k]. *)
#[global] Instance result_ret : MRet JS.result := @JS.Ok.
#[global] Instance result_bind : MBind JS.result :=
  fun A B k r => JS.bind r k.

(** ** Data model (interfaces of the engine) *)

Module Category.
(** [ImageCategory] *)
Inductive t : Set :=
| selfies | documents | screenshots | nature | food | art | nsfw
| duplicates | general | memes | receipts | qr_codes | pets | vehicles
| architecture.

Definition eqb (a b : t) : bool :=
  match a, b with
  | selfies, selfies | documents, documents | screenshots, screenshots
  | nature, nature | food, food | art, art | nsfw, nsfw
  | duplicates, duplicates | general, general | memes, memes
  | receipts, receipts | qr_codes, qr_codes | pets, pets
  | vehicles, vehicles | architecture, architecture => true
  | _, _ => false
  end.

Definition to_string (c : t) : string :=
  match c with
  | selfies => "selfies" | documents => "documents"
  | screenshots => "screenshots" | nature => "nature" | food => "food"
  | art => "art" | nsfw => "nsfw" | duplicates => "duplicates"
  | general => "general" | memes => "memes" | receipts => "receipts"
  | qr_codes => "qr-codes" | pets => "pets" | vehicles => "vehicles"
  | architecture => "architecture"
  end.
End Category.

(** [AiSettings] *)
Record AiSettings : Type := {
  runClassifier : bool;
  runCaptioner : bool;
  runObjectDetection : bool;
  runNsfw : bool;
  nsfwThreshold : Q;
  runFaceDetection : bool;
  runOcr : bool;
  runDuplicateDetection : bool;
  runQualityAnalysis : bool;
  runColorPalette : bool
}.

Record Classification : Type := { label : string; score : Q }.

Record DetectedObject : Type := { obj_label : string; obj_score : Q }.

Record NsfwPrediction : Type := { className : string; probability : Q }.

(** The value of [expressionNames[key] || "neutral"], where
    [expressionNames] is a plain object literal with seven keys: one of its
    names, or, for a key that every plain object inherits from
    [Object.prototype], the inherited value, which is a function (for
    ["__proto__"] the prototype object) and no string. *)
Inductive Expression : Type :=
| expression_name (name : string)
| inherited (key : string).

Coercion expression_name : string >-> Expression.

Record Face : Type := {
  age : Z;
  gender : string;
  expression : Expression;
  confidence : Q
}.

(** A metric of the quality record: a real number, or [None] for [NaN]
    (in [analyzeQuality] the result of [0 / 0] or of arithmetic on an
    [undefined] array element). *)
Definition number : Type := option R.

Record Quality : Type := {
  sharpness : number;
  contrast : number;
  brightness : number;
  q_score : number
}.

Record File : Type := { file_name : string; file_size : Z; file_type : string }.

(** [ImageAnalysis]; the random id, the preview URL and the clock fields
    ([processingTime], [timestamp]) are left out. *)
Record ImageAnalysis : Type := {
  file : File;
  error : option string;
  dimensions : Z * Z;
  size : Q;
  classification : option (list Classification);
  description : option string;
  objects : option (list DetectedObject);
  nsfw : option (list NsfwPrediction);
  faces : option (list Face);
  ocrText : option string;
  pHash : option string;
  quality : option Quality;
  palette : option (list string)
}.

(** [DuplicateGroup] *)
Record DuplicateGroup : Type := { group : list string; similarity : Q }.

(** ** The categorizer *)

Definition keyword_category (topLabel : string) : option Category.t :=
  if JS.includes topLabel "screen" || JS.includes topLabel "computer"
  then Some Category.screenshots
  else if JS.includes topLabel "nature" || JS.includes topLabel "landscape"
          || JS.includes topLabel "mountain" || JS.includes topLabel "beach"
  then Some Category.nature
  else if JS.includes topLabel "food" || JS.includes topLabel "meal"
          || JS.includes topLabel "dish"
  then Some Category.food
  else if JS.includes topLabel "art" || JS.includes topLabel "painting"
  then Some Category.art
  else if JS.includes topLabel "pet" || JS.includes topLabel "animal"
  then Some Category.pets
  else if JS.includes topLabel "car" || JS.includes topLabel "vehicle"
  then Some Category.vehicles
  else if JS.includes topLabel "building" || JS.includes topLabel "architecture"
  then Some Category.architecture
  else None.

(** The category the classification block of [categorizeImage] returns, if
    it returns. *)
Definition classification_category (analysis : ImageAnalysis)
  : option Category.t :=
  match classification analysis with
  | Some (c :: _) => keyword_category (JS.toLowerCase (label c))
  | _ => None
  end.

Definition has_faces (analysis : ImageAnalysis) : bool :=
  match faces analysis with
  | Some (_ :: _) => true
  | _ => false
  end.

Definition long_text (analysis : ImageAnalysis) : bool :=
  match ocrText analysis with
  | Some t => (50 <? String.length t)%nat
  | None => false
  end.

(** [analysis.nsfw && analysis.nsfw.some((n) => n.probability > 0.7)] *)
Definition nsfw_flagged (analysis : ImageAnalysis) : bool :=
  match nsfw analysis with
  | Some ps => existsb (fun n => JS.Qgtb (probability n) (7 # 10)) ps
  | None => false
  end.

Definition categorizeImage (analysis : ImageAnalysis) : Category.t :=
  if has_faces analysis then Category.selfies
  else if long_text analysis then Category.documents
  else match classification_category analysis with
       | Some c => c
       | None =>
           if nsfw_flagged analysis then Category.nsfw else Category.general
       end.

(** ** The duplicate grouper *)

(** The number of positions [i < hash1.length] with [hash1[i] === hash2[i]]. *)
Fixpoint count_matches (hash1 hash2 : string) : nat :=
  match hash1, hash2 with
  | String c1 r1, String c2 r2 =>
      ((if Ascii.eqb c1 c2 then 1 else 0) + count_matches r1 r2)%nat
  | _, _ => 0%nat
  end.

(** [calculateHashSimilarity]; [None] is the [NaN] of [0 / 0]. *)
Definition calculateHashSimilarity (hash1 hash2 : string) : option Q :=
  if negb (String.length hash1 =? String.length hash2)%nat then Some 0%Q
  else if (String.length hash1 =? 0)%nat then None
  else Some (Z.of_nat (count_matches hash1 hash2)
             # Pos.of_nat (String.length hash1)).

(** [similarity > 0.85]; a comparison with [NaN] is false. *)
Definition similar (similarity : option Q) : bool :=
  match similarity with
  | Some q => JS.Qgtb q (85 # 100)
  | None => false
  end.

(** The inner loop [for (let j = i + 1; ...)] over the images after [i]:
    returns the extended [group] and the extended [processed] set. *)
Fixpoint scan_similar (hash1 : string) (rest : list (string * ImageAnalysis))
  (group : list string) (processed : gset string)
  : list string * gset string :=
  match rest with
  | [] => (group, processed)
  | (id_j, analysis_j) :: rest' =>
      if bool_decide (id_j ∈ processed)
      then scan_similar hash1 rest' group processed
      else if negb (JS.truthy_string (pHash analysis_j))
      then scan_similar hash1 rest' group processed
      else
        let hash2 := default "" (pHash analysis_j) in
        if similar (calculateHashSimilarity hash1 hash2)
        then scan_similar hash1 rest' (group ++ [id_j])%list ({[id_j]} ∪ processed)
        else scan_similar hash1 rest' group processed
  end.

(** The outer loop [for (let i = 0; ...)], from image [i] on, with the
    [processed] set built so far; the groups come out in the order they are
    pushed. *)
Fixpoint find_similar_from (images : list (string * ImageAnalysis))
  (processed : gset string) : list DuplicateGroup :=
  match images with
  | [] => []
  | (id_i, analysis_i) :: rest =>
      if bool_decide (id_i ∈ processed) then find_similar_from rest processed
      else if negb (JS.truthy_string (pHash analysis_i))
      then find_similar_from rest processed
      else
        let hash1 := default "" (pHash analysis_i) in
        let '(group, processed') := scan_similar hash1 rest [id_i] processed in
        if (1 <? length group)%nat
        then {| group := group; similarity := 9 # 10 |}
             :: find_similar_from rest (list_to_set group ∪ processed')
        else find_similar_from rest processed'
  end.

Definition findSimilarImages (images : list (string * ImageAnalysis))
  : list DuplicateGroup :=
  find_similar_from images ∅.

(** ** Pixel buffers *)

(** [ImageData]: RGBA bytes in row-major order, [data.length = 4·width·height]. *)
Record ImageData : Type := { width : Z; height : Z; data : list byte }.

Definition byte_val (b : byte) : Z := Z.of_N (Byte.to_N b).

(** The pixels visited by [for (let i = 0; i < data.length; i += 4)] reading
    [data[i] .. data[i + 3]]; the length of [data] is a multiple of 4. *)
Fixpoint pixels_of (data : list byte) : list (Z * Z * Z * Z) :=
  match data with
  | r :: g :: b :: a :: rest =>
      (byte_val r, byte_val g, byte_val b, byte_val a) :: pixels_of rest
  | _ => []
  end.

Definition well_formed (imageData : ImageData) : Prop :=
  0 <= width imageData /\ 0 <= height imageData /\
  Z.of_nat (length (data imageData)) = 4 * width imageData * height imageData.

(** ** The perceptual hash engine *)

Definition luminanceQ (p : Z * Z * Z * Z) : Q :=
  let '(r, g, b, _) := p in (inject_Z (r + g + b) / 3)%Q.

(** [generatePHash] on the 32x32 buffer the canvas hands back. *)
Definition generatePHash (imageData : ImageData) : string :=
  let pixels := pixels_of (data imageData) in
  let total := fold_left (fun t p => (t + luminanceQ p)%Q) pixels 0%Q in
  let average :=
    (total / (inject_Z (Z.of_nat (length (data imageData))) / 4))%Q in
  fold_left
    (fun hash p =>
       hash ++ (if JS.Qgtb (luminanceQ p) average then "1" else "0"))
    pixels "".

(** ** The quality analyzer *)

Section QualityAnalyzer.
Local Open Scope R_scope.

(** [x / d] for a divisor that is a count. *)
Definition ndiv (x : R) (d : Z) : number :=
  if (d =? 0)%Z then None else Some (x / IZR d).

(** [data[i]] of the typed array; [undefined] out of range. *)
Definition data_at (d : list byte) (i : Z) : number :=
  if (i <? 0)%Z then None
  else b ← d !! Z.to_nat i; Some (IZR (byte_val b)).

(** [(data[i] + data[i + 1] + data[i + 2]) / 3] *)
Definition luminance_at (d : list byte) (i : Z) : number :=
  r ← data_at d i; g ← data_at d (i + 1); b ← data_at d (i + 2);
  Some ((r + g + b) / 3).

(** The body of the two loops of [calculateSharpness] at pixel [(x, y)]. *)
Definition sobel_magnitude (w : Z) (d : list byte) (x y : Z) : number :=
  let i := ((y * w + x) * 4)%Z in
  tl ← luminance_at d (i - w * 4 - 4);
  tm ← luminance_at d (i - w * 4);
  tr ← luminance_at d (i - w * 4 + 4);
  ml ← luminance_at d (i - 4);
  mr ← luminance_at d (i + 4);
  bl ← luminance_at d (i + w * 4 - 4);
  bm ← luminance_at d (i + w * 4);
  br ← luminance_at d (i + w * 4 + 4);
  let sobelX := -1 * tl + 1 * tr + -2 * ml + 2 * mr + -1 * bl + 1 * br in
  let sobelY := -1 * tl + -2 * tm + -1 * tr + 1 * bl + 2 * bm + 1 * br in
  Some (sqrt (sobelX * sobelX + sobelY * sobelY)).

(** [for (let x = 1; x < width - 1; x++)] at row [y]. *)
Definition sharpness_row (w : Z) (d : list byte) (y : Z) (acc : number)
  : number :=
  fold_left
    (fun sharp x => s ← sharp; m ← sobel_magnitude w d x y; Some (s + m))
    (seqZ 1 (w - 2)) acc.

Definition calculateSharpness (imageData : ImageData) : number :=
  let w := width imageData in
  let h := height imageData in
  sharp ← fold_left (fun sharp y => sharpness_row w (data imageData) y sharp)
                    (seqZ 1 (h - 2)) (Some 0);
  ndiv sharp (w * h * 255).

(** The nearest multiple of 1/1000, a tie going up. *)
Definition round_half_up (x : R) : R := IZR (Zfloor (x * 1000 + / 2)) / 1000.

(** [parseFloat(x.toFixed(3))]: [toFixed] rounds the absolute value, a tie
    going away from zero. *)
Definition toFixed3 (x : R) : R :=
  if Rlt_dec x 0 then - round_half_up (- x) else round_half_up x.

Definition luminanceR (p : Z * Z * Z * Z) : R :=
  let '(r, g, b, _) := p in (IZR r + IZR g + IZR b) / 3.

(** [analyzeQuality] on the buffer the canvas hands back. *)
Definition analyzeQuality (imageData : ImageData) : Quality :=
  let brightnessValues := map luminanceR (pixels_of (data imageData)) in
  let totalBrightness := fold_left Rplus brightnessValues 0 in
  let n := Z.of_nat (length brightnessValues) in
  let avgBrightness := ndiv totalBrightness n in
  let contrast :=
    avg ← avgBrightness;
    let contrastSum :=
      fold_left (fun s b => s + (b - avg) ^ 2) brightnessValues 0 in
    v ← ndiv contrastSum n;
    Some (sqrt v / 255) in
  let sharpness := calculateSharpness imageData in
  let brightnessScore :=
    avg ← avgBrightness; Some (1 - Rabs (avg - 128) / 128) in
  let contrastScore := c ← contrast; Some (Rmin (c * 2) 1) in
  let sharpnessScore := s ← sharpness; Some (Rmin s 1) in
  let overallScore :=
    b ← brightnessScore; c ← contrastScore; s ← sharpnessScore;
    Some ((b + c + s) / 3) in
  {| sharpness := toFixed3 <$> sharpnessScore;
     contrast := toFixed3 <$> contrast;
     brightness := (fun avg => toFixed3 (avg / 255)) <$> avgBrightness;
     q_score := toFixed3 <$> overallScore |}.

End QualityAnalyzer.

(** ** The palette extractor *)

Definition Pixel : Type := (Z * Z * Z)%type.
Definition Centroid : Type := (Q * Q * Q)%type.

(** The value of [Math.sqrt(q)] for a rational [q], or [Infinity]; only
    compared, never computed with. *)
Inductive Distance : Type :=
| Infinity
| Sqrt (q : Q).

(** [d1 < d2]: the square root is increasing. *)
Definition dist_lt (d1 d2 : Distance) : bool :=
  match d1, d2 with
  | Sqrt a, Sqrt b => JS.Qgtb b a
  | Sqrt _, Infinity => true
  | Infinity, _ => false
  end.

Definition distance (pixel : Pixel) (c : Centroid) : Distance :=
  let '(p0, p1, p2) := pixel in
  let '(c0, c1, c2) := c in
  Sqrt ((inject_Z p0 - c0) ^ 2 + (inject_Z p1 - c1) ^ 2
        + (inject_Z p2 - c2) ^ 2)%Q.

(** [for (let j = 0; j < centroids.length; j++)] from index [j] on. *)
Fixpoint closest_from (pixel : Pixel) (centroids : list Centroid) (j : nat)
  (minDistance : Distance) (closestCentroid : nat) : nat :=
  match centroids with
  | [] => closestCentroid
  | c :: rest =>
      let d := distance pixel c in
      if dist_lt d minDistance
      then closest_from pixel rest (S j) d j
      else closest_from pixel rest (S j) minDistance closestCentroid
  end.

Definition closest (pixel : Pixel) (centroids : list Centroid) : nat :=
  closest_from pixel centroids 0 Infinity 0.

(** [clusters[closestCentroid].push(pixel)] for every pixel. *)
Fixpoint assign_pixels (pixels : list Pixel) (centroids : list Centroid)
  (clusters : list (list Pixel)) : JS.result (list (list Pixel)) :=
  match pixels with
  | [] => JS.Ok clusters
  | pixel :: rest =>
      let j := closest pixel centroids in
      match clusters !! j with
      | None => JS.Throw "TypeError: clusters[closestCentroid] is undefined"
      | Some cluster =>
          assign_pixels rest centroids (<[j := (cluster ++ [pixel])%list]> clusters)
      end
  end.

Definition channel_mean (f : Pixel -> Z) (cluster : list Pixel) : Q :=
  (inject_Z (fold_left (fun sum p => (sum + f p)%Z) cluster 0%Z)
   / inject_Z (Z.of_nat (length cluster)))%Q.

Definition cluster_mean (cluster : list Pixel) : Centroid :=
  (channel_mean (fun p => p.1.1) cluster,
   channel_mean (fun p => p.1.2) cluster,
   channel_mean (fun p => p.2) cluster).

(** The second inner loop: a centroid with an empty cluster is kept. *)
Fixpoint update_centroids (centroids : list Centroid)
  (clusters : list (list Pixel)) : list Centroid :=
  match centroids, clusters with
  | c :: cs, cluster :: rest =>
      (match cluster with [] => c | _ :: _ => cluster_mean cluster end)
      :: update_centroids cs rest
  | cs, _ => cs
  end.

Definition kmeans_iteration (pixels : list Pixel) (k : nat)
  (centroids : list Centroid) : JS.result (list Centroid) :=
  clusters ← assign_pixels pixels centroids (replicate k []);
  JS.Ok (update_centroids centroids clusters).

Fixpoint kmeans_iterate (n : nat) (pixels : list Pixel) (k : nat)
  (centroids : list Centroid) : JS.result (list Centroid) :=
  match n with
  | O => JS.Ok centroids
  | S n' =>
      centroids' ← kmeans_iteration pixels k centroids;
      kmeans_iterate n' pixels k centroids'
  end.

(** [pixels[Math.floor(Math.random() * pixels.length)]] for a value [r] of
    [Math.random()]; [undefined] when there is no such pixel. *)
Definition random_pixel (pixels : list Pixel) (r : Q) : option Pixel :=
  let i := Qfloor (r * inject_Z (Z.of_nat (length pixels))) in
  if i <? 0 then None else pixels !! Z.to_nat i.

(** The initialization loop from [i] on; [random i] is the value of the
    [i]-th call of [Math.random()].  Spreading [undefined] throws. *)
Fixpoint init_centroids (pixels : list Pixel) (random : nat -> Q)
  (i n : nat) : JS.result (list Centroid) :=
  match n with
  | O => JS.Ok []
  | S n' =>
      match random_pixel pixels (random i) with
      | None => JS.Throw "TypeError: randomPixel is not iterable"
      | Some (r, g, b) =>
          rest ← init_centroids pixels random (S i) n';
          JS.Ok ((inject_Z r, inject_Z g, inject_Z b) :: rest)
      end
  end.

Definition kMeansClustering (pixels : list Pixel) (k : nat)
  (random : nat -> Q) : JS.result (list Centroid) :=
  centroids ← init_centroids pixels random 0 k;
  kmeans_iterate 20 pixels k centroids.

(** [n.toString(16)] *)
Definition hex_digit (n : N) : ascii :=
  if (n <? 10)%N then ascii_of_N (48 + n) else ascii_of_N (87 + n).

Fixpoint hex_digits (fuel : nat) (n : N) (acc : string) : string :=
  match fuel with
  | O => acc
  | S fuel' =>
      let acc' := String (hex_digit (n mod 16)) acc in
      if (n / 16 =? 0)%N then acc' else hex_digits fuel' (n / 16) acc'
  end.

Definition toString16 (z : Z) : string :=
  if z <? 0 then "-" ++ hex_digits (S (N.size_nat (Z.abs_N z))) (Z.abs_N z) ""
  else hex_digits (S (N.size_nat (Z.to_N z))) (Z.to_N z) "".

(** [s.padStart(2, "0")] *)
Definition padStart2 (s : string) : string :=
  match String.length s with
  | 0%nat => "00"
  | 1%nat => "0" ++ s
  | _ => s
  end.

(** [Math.round(c)]: the nearest integer, a tie going up. *)
Definition round (c : Q) : Z := Qfloor (c + (1 # 2)).

Definition hex_color (color : Centroid) : string :=
  let '(r, g, b) := color in
  "#" ++ padStart2 (toString16 (round r)) ++ padStart2 (toString16 (round g))
      ++ padStart2 (toString16 (round b)).

(** The pixels kept by [if (a > 128)]. *)
Definition retained_pixels (d : list byte) : list Pixel :=
  omap (fun p : Z * Z * Z * Z =>
          let '(r, g, b, a) := p in
          if 128 <? a then Some (r, g, b) else None)
       (pixels_of d).

(** [extractColorPalette] with the default [k = 5], on the 150x150 buffer
    the canvas hands back. *)
Definition extractColorPalette (imageData : ImageData) (random : nat -> Q)
  : JS.result (list string) :=
  palette ← kMeansClustering (retained_pixels (data imageData)) 5 random;
  JS.Ok (map hex_color palette).

(** ** The engine: capability providers and fallbacks *)

(** The [models] map: for each provider whether a model object is present
    and whether its load was marked failed. *)
Record Models : Type := {
  classifier : bool;
  classifierFailed : bool;
  captioner : bool;
  captionerFailed : bool;
  objectDetector : bool;
  objectDetectorFailed : bool;
  nsfw_model : bool;
  nsfwFailed : bool;
  faceDetectionFailed : bool;
  ssdMobilenetv1_isLoaded : bool;
  ocr : bool;
  ocrFailed : bool
}.

Record Engine : Type := { models : Models; isReady : bool }.

(** One face as [face-api] reports it; a missing property is [None]. *)
Record Detection : Type := {
  d_age : option Q;
  d_gender : option string;
  d_expressions : option (list (string * Q));
  d_score : option Q
}.

(** What the browser and the providers answer while one image is analyzed. *)
Record World : Type := {
  createImageElement : JS.result (Z * Z);
  classifier_run : JS.result (list Classification);
  captioner_run : JS.result (option string);
  objectDetector_run : JS.result (list DetectedObject);
  nsfw_classify : JS.result (list NsfwPrediction);
  detectAllFaces : JS.result (list Detection);
  ocr_recognize : JS.result string;
  canvas_hash : JS.result ImageData;
  canvas_quality : JS.result ImageData;
  canvas_palette : JS.result ImageData;
  random_caption : Q;
  random_palette : nat -> Q
}.

Definition fallbackClassification (f : File) : list Classification :=
  let fileName := JS.toLowerCase (file_name f) in
  if JS.includes fileName "selfie" || JS.includes fileName "portrait"
  then [ {| label := "person"; score := 9 # 10 |} ]
  else if JS.includes fileName "screenshot"
  then [ {| label := "screenshot"; score := 95 # 100 |} ]
  else if JS.includes fileName "document"
  then [ {| label := "document"; score := 85 # 100 |} ]
  else if JS.includes fileName "food"
  then [ {| label := "food"; score := 8 # 10 |} ]
  else if JS.includes fileName "nature"
  then [ {| label := "nature"; score := 8 # 10 |} ]
  else [ {| label := "image"; score := 6 # 10 |} ].

Definition fallbackCaption (random : Q) : option string :=
  let descriptions :=
    [ "A clear and well-composed image";
      "An interesting visual capture";
      "A quality photograph with good details" ] in
  let i := Qfloor (random * 3) in
  if i <? 0 then None else descriptions !! Z.to_nat i.

Definition fallbackFaceDetection (f : File) : list Face :=
  let fileName := JS.toLowerCase (file_name f) in
  if JS.includes fileName "selfie" || JS.includes fileName "portrait"
  then [ {| age := 25; gender := "unknown"; expression := "neutral";
            confidence := 8 # 10 |} ]
  else [].

Definition classifyImage (eng : Engine) (w : World) (f : File)
  : list Classification :=
  if classifier (models eng) && negb (classifierFailed (models eng))
  then match classifier_run w with
       | JS.Ok results => take 5 results
       | JS.Throw _ => fallbackClassification f
       end
  else fallbackClassification f.

Definition generateCaption (eng : Engine) (w : World) : option string :=
  if captioner (models eng) && negb (captionerFailed (models eng))
  then match captioner_run w with
       | JS.Ok generated_text =>
           if JS.truthy_string generated_text then generated_text
           else Some "Unable to generate caption"
       | JS.Throw _ => fallbackCaption (random_caption w)
       end
  else fallbackCaption (random_caption w).

Definition detectObjects (w : World) : list DetectedObject :=
  match objectDetector_run w with
  | JS.Ok results => results
  | JS.Throw _ => []
  end.

Definition detectNSFW (eng : Engine) (w : World) : list NsfwPrediction :=
  let neutral := [ {| className := "Neutral"; probability := 95 # 100 |} ] in
  if nsfw_model (models eng) && negb (nsfwFailed (models eng))
  then match nsfw_classify w with
       | JS.Ok predictions =>
           List.filter (fun p => JS.Qgtb (probability p) (1 # 100)) predictions
       | JS.Throw _ => neutral
       end
  else neutral.

(** The property names of [Object.prototype]. *)
Definition object_prototype_keys : list string :=
  [ "constructor"; "hasOwnProperty"; "isPrototypeOf"; "propertyIsEnumerable";
    "toLocaleString"; "toString"; "valueOf"; "__proto__";
    "__defineGetter__"; "__defineSetter__"; "__lookupGetter__";
    "__lookupSetter__" ].

(** [getTopExpression]; [expressions] lists the entries of the object in
    the order of [Object.entries].  The last line looks the top key up in
    the object literal [expressionNames]: an own key gives its name, an
    inherited key gives the inherited value, which is truthy, and any other
    key gives [undefined], hence ["neutral"]. *)
Definition getTopExpression (expressions : option (list (string * Q)))
  : Expression :=
  match expressions with
  | None => expression_name "neutral"
  | Some entries =>
      let top :=
        fold_left
          (fun (best : string * Q) (e : string * Q) =>
             if JS.Qgtb e.2 best.2 then e else best)
          entries ("neutral", 0%Q) in
      let expressionNames :=
        [ "happy"; "sad"; "angry"; "fearful"; "disgusted"; "surprised";
          "neutral" ] in
      if existsb (String.eqb top.1) expressionNames
      then expression_name top.1
      else if existsb (String.eqb top.1) object_prototype_keys
           then inherited top.1
           else expression_name "neutral"
  end.

(** [x || d] on an optional number: [undefined] and [0] are falsy. *)
Definition or_default (x : option Q) (d : Q) : Q :=
  match x with
  | Some q => if Qeq_bool q 0 then d else q
  | None => d
  end.

Definition detectFaces (eng : Engine) (w : World) (f : File) : list Face :=
  if negb (faceDetectionFailed (models eng))
     && ssdMobilenetv1_isLoaded (models eng)
  then match detectAllFaces w with
       | JS.Ok detections =>
           map (fun d =>
                  {| age := round (or_default (d_age d) 25);
                     gender := if JS.truthy_string (d_gender d)
                               then default "" (d_gender d) else "unknown";
                     expression := getTopExpression (d_expressions d);
                     confidence := or_default (d_score d) (1 # 2) |})
               detections
       | JS.Throw _ => fallbackFaceDetection f
       end
  else fallbackFaceDetection f.

Definition is_whitespace (c : ascii) : bool :=
  let n := N_of_ascii c in
  ((9 <=? n) && (n <=? 13) || (n =? 32) || (n =? 160))%N.

Fixpoint trim_start (s : string) : string :=
  match s with
  | String c s' => if is_whitespace c then trim_start s' else s
  | EmptyString => EmptyString
  end.

Definition reverse_string (s : string) : string :=
  string_of_list_ascii (rev (list_ascii_of_string s)).

(** [text.trim()] *)
Definition trim (s : string) : string :=
  reverse_string (trim_start (reverse_string (trim_start s))).

Definition extractText (eng : Engine) (w : World) : string :=
  if ocr (models eng) && negb (ocrFailed (models eng))
  then match ocr_recognize w with
       | JS.Ok text => trim text
       | JS.Throw _ => ""
       end
  else "".

(** ** The analysis orchestrator *)

(** Assignments to the fields of the [analysis] object. *)
Definition set_error (x : string) (a : ImageAnalysis) : ImageAnalysis :=
  {| file := file a; error := Some x; dimensions := dimensions a;
     size := size a; classification := classification a;
     description := description a; objects := objects a; nsfw := nsfw a;
     faces := faces a; ocrText := ocrText a; pHash := pHash a;
     quality := quality a; palette := palette a |}.

Definition set_classification (x : list Classification) (a : ImageAnalysis)
  : ImageAnalysis :=
  {| file := file a; error := error a; dimensions := dimensions a;
     size := size a; classification := Some x; description := description a;
     objects := objects a; nsfw := nsfw a; faces := faces a;
     ocrText := ocrText a; pHash := pHash a; quality := quality a;
     palette := palette a |}.

Definition set_description (x : option string) (a : ImageAnalysis)
  : ImageAnalysis :=
  {| file := file a; error := error a; dimensions := dimensions a;
     size := size a; classification := classification a; description := x;
     objects := objects a; nsfw := nsfw a; faces := faces a;
     ocrText := ocrText a; pHash := pHash a; quality := quality a;
     palette := palette a |}.

Definition set_objects (x : list DetectedObject) (a : ImageAnalysis)
  : ImageAnalysis :=
  {| file := file a; error := error a; dimensions := dimensions a;
     size := size a; classification := classification a;
     description := description a; objects := Some x; nsfw := nsfw a;
     faces := faces a; ocrText := ocrText a; pHash := pHash a;
     quality := quality a; palette := palette a |}.

Definition set_nsfw (x : list NsfwPrediction) (a : ImageAnalysis)
  : ImageAnalysis :=
  {| file := file a; error := error a; dimensions := dimensions a;
     size := size a; classification := classification a;
     description := description a; objects := objects a; nsfw := Some x;
     faces := faces a; ocrText := ocrText a; pHash := pHash a;
     quality := quality a; palette := palette a |}.

Definition set_faces (x : list Face) (a : ImageAnalysis) : ImageAnalysis :=
  {| file := file a; error := error a; dimensions := dimensions a;
     size := size a; classification := classification a;
     description := description a; objects := objects a; nsfw := nsfw a;
     faces := Some x; ocrText := ocrText a; pHash := pHash a;
     quality := quality a; palette := palette a |}.

Definition set_ocrText (x : string) (a : ImageAnalysis) : ImageAnalysis :=
  {| file := file a; error := error a; dimensions := dimensions a;
     size := size a; classification := classification a;
     description := description a; objects := objects a; nsfw := nsfw a;
     faces := faces a; ocrText := Some x; pHash := pHash a;
     quality := quality a; palette := palette a |}.

Definition set_pHash (x : string) (a : ImageAnalysis) : ImageAnalysis :=
  {| file := file a; error := error a; dimensions := dimensions a;
     size := size a; classification := classification a;
     description := description a; objects := objects a; nsfw := nsfw a;
     faces := faces a; ocrText := ocrText a; pHash := Some x;
     quality := quality a; palette := palette a |}.

Definition set_quality (x : Quality) (a : ImageAnalysis) : ImageAnalysis :=
  {| file := file a; error := error a; dimensions := dimensions a;
     size := size a; classification := classification a;
     description := description a; objects := objects a; nsfw := nsfw a;
     faces := faces a; ocrText := ocrText a; pHash := pHash a;
     quality := Some x; palette := palette a |}.

Definition set_palette (x : list string) (a : ImageAnalysis) : ImageAnalysis :=
  {| file := file a; error := error a; dimensions := dimensions a;
     size := size a; classification := classification a;
     description := description a; objects := objects a; nsfw := nsfw a;
     faces := faces a; ocrText := ocrText a; pHash := pHash a;
     quality := quality a; palette := Some x |}.

(** One statement [if (enabled) { analysis.field = await stage(); }] of the
    [try] block: it updates the analysis or throws. *)
Definition Stage : Type := ImageAnalysis -> JS.result ImageAnalysis.

Definition stage {X} (enabled : bool) (run : JS.result X)
  (assign : X -> ImageAnalysis -> ImageAnalysis) : Stage :=
  fun analysis =>
    if enabled then x ← run; JS.Ok (assign x analysis) else JS.Ok analysis.

(** [try { stages } catch (error) { analysis.error = `Analysis error: ...` }]:
    the first stage that throws ends the block; the fields assigned before
    it stay. *)
Fixpoint run_stages (stages : list Stage) (analysis : ImageAnalysis)
  : ImageAnalysis :=
  match stages with
  | [] => analysis
  | st :: rest =>
      match st analysis with
      | JS.Ok analysis' => run_stages rest analysis'
      | JS.Throw m => set_error ("Analysis error: " ++ m) analysis
      end
  end.

(** [parseFloat(x.toFixed(2))] for [x >= 0]. *)
Definition toFixed2 (x : Q) : Q := (inject_Z (Qfloor (x * 100 + (1 # 2))) / 100)%Q.

(** The three algorithmic stages: each draws the image on a canvas of its
    own and reads the pixels back, which may throw, then computes. *)
Definition hash_stage (w : World) : JS.result string :=
  imageData ← canvas_hash w; JS.Ok (generatePHash imageData).

Definition quality_stage (w : World) : JS.result Quality :=
  imageData ← canvas_quality w; JS.Ok (analyzeQuality imageData).

Definition palette_stage (w : World) : JS.result (list string) :=
  imageData ← canvas_palette w;
  extractColorPalette imageData (random_palette w).

(** The nine stages of [analyze], in source order. *)
Definition stages (eng : Engine) (w : World) (f : File) (settings : AiSettings)
  : list Stage :=
  [ stage (runClassifier settings) (JS.Ok (classifyImage eng w f))
      set_classification;
    stage (runCaptioner settings) (JS.Ok (generateCaption eng w))
      set_description;
    stage (runObjectDetection settings && objectDetector (models eng))
      (JS.Ok (detectObjects w)) set_objects;
    stage (runNsfw settings) (JS.Ok (detectNSFW eng w)) set_nsfw;
    stage (runFaceDetection settings) (JS.Ok (detectFaces eng w f)) set_faces;
    stage (runOcr settings) (JS.Ok (extractText eng w)) set_ocrText;
    stage (runDuplicateDetection settings) (hash_stage w) set_pHash;
    stage (runQualityAnalysis settings) (quality_stage w) set_quality;
    stage (runColorPalette settings) (palette_stage w) set_palette ].

(** The [analysis] object before the [try] block. *)
Definition fresh_analysis (f : File) (imageElement : Z * Z) : ImageAnalysis :=
  {| file := f; error := None; dimensions := imageElement;
     size := toFixed2 (inject_Z (file_size f) / inject_Z (1024 * 1024));
     classification := None; description := None; objects := None;
     nsfw := None; faces := None; ocrText := None; pHash := None;
     quality := None; palette := None |}.

Definition analyze (eng : Engine) (w : World) (f : File)
  (settings : AiSettings) : JS.result ImageAnalysis :=
  if negb (isReady eng)
  then JS.Throw "Error: AI Engine not initialized. Call initialize() first."
  else
    imageElement ← createImageElement w;
    JS.Ok (run_stages (stages eng w f settings)
             (fresh_analysis f imageElement)).

Definition defaultAiSettings : AiSettings :=
  {| runClassifier := true; runCaptioner := true; runObjectDetection := false;
     runNsfw := true; nsfwThreshold := 7 # 10; runFaceDetection := true;
     runOcr := true; runDuplicateDetection := true;
     runQualityAnalysis := true; runColorPalette := true |}.

(** [analyzeImage]: [analyze] with the default settings. *)
Definition analyzeImage (eng : Engine) (w : World) (f : File)
  : JS.result ImageAnalysis :=
  analyze eng w f defaultAiSettings.

(** ** The batch processor (the [useImageOrganizer] hook) *)

Module ImageFile.
(** The compatibility fields the hook adds to a stored analysis. *)
Record Legacy : Type := {
  confidence : Q;
  dominantColors : list string;
  duplicateHash : string;
  isNSFW : bool;
  nsfwScore : Q;
  text : string * Q
}.

(** [ImageFile]; URLs, thumbnails and dates are left out. *)
Record t : Type := {
  id : string;
  file : File;
  name : string;
  size : Z;
  processed : bool;
  analysis : option ImageAnalysis;
  legacy : option Legacy;
  category : option Category.t;
  tags : list string
}.
End ImageFile.

Module Progress.
Inductive Status : Set := idle | loading | processing | complete | error.
Inductive Stage : Set :=
| upload | analysis | classification | organization | stage_complete.

(** [ProcessingProgress] *)
Record t : Type := {
  current : Z;
  total : Z;
  status : Status;
  stage : Stage;
  currentFile : option string;
  message : string
}.
End Progress.

Module Stats.
(** [ProcessingStats]; [avgProcessingTime] is [None] for [NaN];
    [endTime] records whether the end time has been set. *)
Record t : Type := {
  total : Z;
  processed : Z;
  successful : Z;
  errors : Z;
  categorized : Category.t -> Z;
  avgProcessingTime : option Q;
  endTime : bool
}.
End Stats.

(** [SmartSuggestion] of type ["merge"]; [action_targets] are the ids its
    deferred action would move to the category [duplicates]. *)
Record SmartSuggestion : Type := {
  sug_confidence : Q;
  sug_description : string;
  imageIds : list string;
  action_targets : list string
}.

Record OrganizeOptions : Type := { autoRename : bool; findDuplicates : bool }.

(** The state of the hook.  [abortControllerRef] is [None] for [null] and
    [Some aborted] for a controller whose signal has that [aborted] flag. *)
Record HookState : Type := {
  images : list ImageFile.t;
  progress : Progress.t;
  stats : Stats.t;
  suggestions : list SmartSuggestion;
  isProcessing : bool;
  abortControllerRef : option bool
}.

(** The local variables of one call of [processImages]. *)
Record Locals : Type := {
  l_processed : Z;
  l_successful : Z;
  l_errors : Z;
  l_categorized : Category.t -> Z;
  processingTimes : list Z
}.

(** What can happen while a call of [processImages] is suspended at
    [await aiEngine.analyzeImage(image.file)]: the user calls
    [stopProcessing]; the user calls [processImages] again; or the analysis
    that another suspended call of [processImages] awaits returns, with its
    result, the name [generateSmartFilename] builds from it and the
    milliseconds it took.  The other calls are numbered 1, 2, ... in the
    order in which they were made.  The handlers that change the
    collection ([addImages], [removeImage], [clearAll]) are taken not to
    be called while a run is under way. *)
Inductive Event : Type :=
| stop_processing
| process_images
| analysis_returns (call : nat) (result : JS.result ImageAnalysis)
    (name : string) (milliseconds : Z).

(** What happens while the call awaits the analysis of one image: the
    events [meanwhile], in their order, and then what the engine answers,
    the name [generateSmartFilename] builds and the milliseconds that have
    passed. *)
Record Tick : Type := {
  outcome : JS.result ImageAnalysis;
  smartName : string;
  elapsed : Z;
  meanwhile : list Event
}.

(** [stopProcessing] is called during the await. *)
Definition stop_requested (tick : Tick) : bool :=
  existsb (fun e => match e with stop_processing => true | _ => false end)
          (meanwhile tick).

(** [processImages] is called again during the await. *)
Definition restart_requested (tick : Tick) : bool :=
  existsb (fun e => match e with process_images => true | _ => false end)
          (meanwhile tick).

(** Another call of [processImages], suspended at its [await]: the
    [images] of its closure, the length of its [unprocessedImages], the
    image whose analysis it awaits, the images after that one, and its
    local variables. *)
Record Call : Type := {
  call_id : nat;
  call_images : list ImageFile.t;
  call_queued : Z;
  awaited : ImageFile.t;
  remaining : list ImageFile.t;
  call_locals : Locals
}.

(** The hook together with what lives outside its React state: the other
    calls of [processImages] that are suspended, the number of such calls
    made so far, and the call whose local [categorized] object
    [stats.categorized] currently is ([None] when it is an object that no
    running call holds; the call under study has number 0). *)
Record Runtime : Type := {
  hook : HookState;
  suspended : list Call;
  started : nat;
  shared : option nat
}.

Definition set_progress (p : Progress.t) (st : HookState) : HookState :=
  {| images := images st; progress := p; stats := stats st;
     suggestions := suggestions st; isProcessing := isProcessing st;
     abortControllerRef := abortControllerRef st |}.

Definition set_stats (s : Stats.t) (st : HookState) : HookState :=
  {| images := images st; progress := progress st; stats := s;
     suggestions := suggestions st; isProcessing := isProcessing st;
     abortControllerRef := abortControllerRef st |}.

Definition set_images (imgs : list ImageFile.t) (st : HookState) : HookState :=
  {| images := imgs; progress := progress st; stats := stats st;
     suggestions := suggestions st; isProcessing := isProcessing st;
     abortControllerRef := abortControllerRef st |}.

(** [stopProcessing] *)
Definition stopProcessing (st : HookState) : HookState :=
  {| images := images st;
     progress :=
       {| Progress.current := Progress.current (progress st);
          Progress.total := Progress.total (progress st);
          Progress.status := Progress.idle;
          Progress.stage := Progress.stage (progress st);
          Progress.currentFile := Progress.currentFile (progress st);
          Progress.message := "Processing stopped" |};
     stats := stats st;
     suggestions := suggestions st;
     isProcessing := false;
     abortControllerRef :=
       match abortControllerRef st with
       | Some _ => Some true
       | None => None
       end |}.

(** [abortControllerRef.current?.signal.aborted] *)
Definition aborted (st : HookState) : bool :=
  match abortControllerRef st with
  | Some true => true
  | _ => false
  end.

Definition bump (categorized : Category.t -> Z) (c : Category.t)
  : Category.t -> Z :=
  fun c' => if Category.eqb c c' then categorized c + 1 else categorized c'.

(** [[...new Set([...old, ...tags])]]: first occurrences, in order. *)
Fixpoint dedupe (seen : list string) (l : list string) : list string :=
  match l with
  | [] => []
  | x :: rest =>
      if existsb (String.eqb x) seen then dedupe seen rest
      else x :: dedupe (x :: seen) rest
  end.

Definition analysis_tags (category : Category.t) (a : ImageAnalysis)
  : list string :=
  [Category.to_string category]
  ++ match classification a with
     | Some cs => map label (take 3 cs)
     | None => []
     end
  ++ (if JS.truthy_string (ocrText a) then ["text"] else [])
  ++ match faces a with
     | Some ((_ :: _) as fs) => ["faces"; pretty (length fs) ++ "-people"]
     | _ => []
     end.

Definition legacy_of (a : ImageAnalysis) : ImageFile.Legacy :=
  {| ImageFile.confidence :=
       match classification a with
       | Some (c :: _) => if Qeq_bool (score c) 0 then 1 # 2 else score c
       | _ => 1 # 2
       end;
     ImageFile.dominantColors := default [] (palette a);
     ImageFile.duplicateHash := default "" (pHash a);
     ImageFile.isNSFW := nsfw_flagged a;
     ImageFile.nsfwScore :=
       match nsfw a with
       | Some (n :: _) => probability n
       | _ => 0%Q
       end;
     ImageFile.text :=
       (default "" (ocrText a),
        if JS.truthy_string (ocrText a) then 8 # 10 else 0%Q) |}.

(** The [setImages] of the [try] branch. *)
Definition store_analysis (target : ImageFile.t) (a : ImageAnalysis)
  (category : Category.t) (newName : string) (newTags : list string)
  (imgs : list ImageFile.t) : list ImageFile.t :=
  map (fun img =>
         if String.eqb (ImageFile.id img) (ImageFile.id target)
         then {| ImageFile.id := ImageFile.id img;
                 ImageFile.file := ImageFile.file img;
                 ImageFile.name := newName;
                 ImageFile.size := ImageFile.size img;
                 ImageFile.processed := true;
                 ImageFile.analysis := Some a;
                 ImageFile.legacy := Some (legacy_of a);
                 ImageFile.category := Some category;
                 ImageFile.tags := dedupe [] (ImageFile.tags img ++ newTags) |}
         else img)
      imgs.

(** The [setImages] of the [catch] branch: a stub analysis with the error. *)
Definition store_failure (target : ImageFile.t) (err : string)
  (imgs : list ImageFile.t) : list ImageFile.t :=
  map (fun img =>
         if String.eqb (ImageFile.id img) (ImageFile.id target)
         then {| ImageFile.id := ImageFile.id img;
                 ImageFile.file := ImageFile.file img;
                 ImageFile.name := ImageFile.name img;
                 ImageFile.size := ImageFile.size img;
                 ImageFile.processed := true;
                 ImageFile.analysis :=
                   Some {| file := ImageFile.file img;
                           error := Some ("Processing failed: " ++ err);
                           dimensions := (0, 0);
                           size := (inject_Z (ImageFile.size img)
                                    / inject_Z (1024 * 1024))%Q;
                           classification := None; description := None;
                           objects := None; nsfw := None; faces := None;
                           ocrText := None; pHash := None; quality := None;
                           palette := None |};
                 ImageFile.legacy := None;
                 ImageFile.category := ImageFile.category img;
                 ImageFile.tags := ImageFile.tags img |}
         else img)
      imgs.

(** [processingTimes.reduce((a, b) => a + b, 0) / processingTimes.length] *)
Definition average (times : list Z) : option Q :=
  match times with
  | [] => None
  | _ => Some (inject_Z (fold_left Z.add times 0%Z)
               / inject_Z (Z.of_nat (length times)))%Q
  end.

Section ProcessImages.

(** The options of the hook; they are not changed while a run is under
    way. *)
Variable organizeOptions : OrganizeOptions.

(** [schedule i] is what happens while the [i]-th image of the run is
    analyzed. *)
Variable schedule : nat -> Tick.

(** The local variables before the loop. *)
Definition initial_locals : Locals :=
  {| l_processed := 0; l_successful := 0; l_errors := 0;
     l_categorized := fun _ => 0; processingTimes := [] |}.

(** The [setProgress] before the [await]. *)
Definition announce (image : ImageFile.t) (l : Locals) (st : HookState)
  : HookState :=
  set_progress
    {| Progress.current := l_processed l + 1;
       Progress.total := Progress.total (progress st);
       Progress.status := Progress.status (progress st);
       Progress.stage := Progress.stage (progress st);
       Progress.currentFile := Some (ImageFile.name image);
       Progress.message := "Processing " ++ ImageFile.name image ++ "..." |}
    st.

(** The rest of the [try] block, or the [catch] block, once the [await]
    is over: the local counters and the image collection.  The count of
    the category is added to the local object [categorized] in place,
    before [setImages]; [mine] tells that [stats.categorized] is that very
    object (this call has published it and no [setStats] has replaced it
    since), and then the statistics show the new count at once. *)
Definition settle (image : ImageFile.t) (tick : Tick) (l : Locals)
  (mine : bool) (st : HookState) : Locals * HookState :=
  match outcome tick with
  | JS.Ok a =>
      let category := categorizeImage a in
      let newName :=
        if autoRename organizeOptions then smartName tick
        else ImageFile.name image in
      let categorized := bump (l_categorized l) category in
      let st_counted :=
        if mine
        then set_stats
               {| Stats.total := Stats.total (stats st);
                  Stats.processed := Stats.processed (stats st);
                  Stats.successful := Stats.successful (stats st);
                  Stats.errors := Stats.errors (stats st);
                  Stats.categorized := categorized;
                  Stats.avgProcessingTime :=
                    Stats.avgProcessingTime (stats st);
                  Stats.endTime := Stats.endTime (stats st) |}
               st
        else st in
      ({| l_processed := l_processed l;
          l_successful := l_successful l + 1;
          l_errors := l_errors l;
          l_categorized := categorized;
          processingTimes := (processingTimes l ++ [elapsed tick])%list |},
       set_images
         (store_analysis image a category newName
            (analysis_tags category a) (images st_counted))
         st_counted)
  | JS.Throw err =>
      ({| l_processed := l_processed l;
          l_successful := l_successful l;
          l_errors := l_errors l + 1;
          l_categorized := l_categorized l;
          processingTimes := processingTimes l |},
       set_images (store_failure image err (images st)) st)
  end.

(** [processed++] *)
Definition count (l : Locals) : Locals :=
  {| l_processed := l_processed l + 1;
     l_successful := l_successful l;
     l_errors := l_errors l;
     l_categorized := l_categorized l;
     processingTimes := processingTimes l |}.

(** The [setStats] that ends an iteration; its [categorized] is the local
    object itself. *)
Definition publish (l : Locals) (st : HookState) : HookState :=
  set_stats
    {| Stats.total := Stats.total (stats st);
       Stats.processed := l_processed l;
       Stats.successful := l_successful l;
       Stats.errors := l_errors l;
       Stats.categorized := l_categorized l;
       Stats.avgProcessingTime := average (processingTimes l);
       Stats.endTime := Stats.endTime (stats st) |}
    st.

(** The duplicate search after the loop, over the [images] the call was
    created with. *)
Definition suggest_duplicates (snapshot : list ImageFile.t)
  : list SmartSuggestion :=
  let processedImagesWithAnalysis :=
    omap (fun img =>
            if ImageFile.processed img
            then a ← ImageFile.analysis img; Some (ImageFile.id img, a)
            else None)
         snapshot in
  map (fun g =>
         {| sug_confidence := similarity g;
            sug_description :=
              "Found " ++ pretty (length (group g)) ++ " similar images";
            imageIds := group g;
            action_targets := drop 1 (group g) |})
      (findSimilarImages processedImagesWithAnalysis).

(** Everything after the loop. *)
Definition wrap_up (snapshot : list ImageFile.t) (queued : Z) (l : Locals)
  (st : HookState) : HookState :=
  {| images := images st;
     progress :=
       {| Progress.current := l_processed l;
          Progress.total := queued;
          Progress.status := Progress.complete;
          Progress.stage := Progress.stage_complete;
          Progress.currentFile := None;
          Progress.message :=
            "Successfully processed " ++ pretty (l_successful l)
            ++ " images" |};
     stats :=
       {| Stats.total := Stats.total (stats st);
          Stats.processed := Stats.processed (stats st);
          Stats.successful := Stats.successful (stats st);
          Stats.errors := Stats.errors (stats st);
          Stats.categorized := Stats.categorized (stats st);
          Stats.avgProcessingTime := Stats.avgProcessingTime (stats st);
          Stats.endTime := true |};
     suggestions :=
       if findDuplicates organizeOptions
       then (suggestions st ++ suggest_duplicates snapshot)%list
       else suggestions st;
     isProcessing := false;
     abortControllerRef := abortControllerRef st |}.

(** The state right after the synchronous prelude of [processImages]: a
    new controller, and statistics with a new, empty [categorized]. *)
Definition start (st : HookState) : HookState :=
  let queued :=
    Z.of_nat (length (List.filter (fun img => negb (ImageFile.processed img))
                                  (images st))) in
  {| images := images st;
     progress :=
       {| Progress.current := 0;
          Progress.total := queued;
          Progress.status := Progress.processing;
          Progress.stage := Progress.analysis;
          Progress.currentFile := None;
          Progress.message := "Analyzing images with AI..." |};
     stats :=
       {| Stats.total := queued;
          Stats.processed := 0;
          Stats.successful := 0;
          Stats.errors := 0;
          Stats.categorized := fun _ => 0;
          Stats.avgProcessingTime := Some 0%Q;
          Stats.endTime := false |};
     suggestions := suggestions st;
     isProcessing := true;
     abortControllerRef := Some false |}.

(** *** The other calls *)

Definition with_hook (st : HookState) (rt : Runtime) : Runtime :=
  {| hook := st; suspended := suspended rt; started := started rt;
     shared := shared rt |}.

(** [stats.categorized] is the local [categorized] of the call [id]. *)
Definition owns (id : nat) (rt : Runtime) : bool :=
  match shared rt with
  | Some owner => Nat.eqb owner id
  | None => false
  end.

(** The [setStats] that ends an iteration of the call [id]: from now on
    [stats.categorized] is the local object of that call. *)
Definition published (id : nat) (l : Locals) (st_stored : HookState)
  (rt : Runtime) : Runtime :=
  {| hook := publish l st_stored; suspended := suspended rt;
     started := started rt; shared := Some id |}.

(** The loop of another call from the head of an iteration on: up to its
    [await], where the call is suspended again, or, when the queue is used
    up or the signal aborted, through the code after the loop to the end of
    the call. *)
Definition advance (id : nat) (snapshot : list ImageFile.t) (queued : Z)
  (queue : list ImageFile.t) (l : Locals) (st : HookState)
  : HookState * list Call :=
  match queue with
  | image :: rest =>
      if aborted st then (wrap_up snapshot queued l st, [])
      else (announce image l st,
            [ {| call_id := id; call_images := snapshot;
                 call_queued := queued; awaited := image;
                 remaining := rest; call_locals := l |} ])
  | [] => (wrap_up snapshot queued l st, [])
  end.

(** The analysis that the suspended call [c] awaits returns: the call
    runs the rest of its iteration and goes on with its loop. *)
Definition resume (c : Call) (tick : Tick) (rt : Runtime) : Runtime :=
  let '(l1, st_stored) :=
    settle (awaited c) tick (call_locals c) (owns (call_id c) rt) (hook rt) in
  let l2 := count l1 in
  let '(st_next, again) :=
    advance (call_id c) (call_images c) (call_queued c) (remaining c) l2
      (publish l2 st_stored) in
  {| hook := st_next; suspended := (suspended rt ++ again)%list;
     started := started rt; shared := Some (call_id c) |}.

(** [processImages] is called while the call under study is suspended.
    Its closure is the one of the latest render: it reads the current
    [isProcessing] and [images]. *)
Definition call_again (rt : Runtime) : Runtime :=
  let st := hook rt in
  match images st with
  | [] => rt
  | _ :: _ =>
      if isProcessing st then rt
      else
        let unprocessedImages :=
          List.filter (fun img => negb (ImageFile.processed img))
                      (images st) in
        let id := S (started rt) in
        let '(st_next, again) :=
          advance id (images st) (Z.of_nat (length unprocessedImages))
            unprocessedImages initial_locals (start st) in
        {| hook := st_next; suspended := (suspended rt ++ again)%list;
           started := id; shared := None |}
  end.

(** One event during an await.  An analysis can only return to a call
    that is suspended. *)
Definition happen (rt : Runtime) (e : Event) : Runtime :=
  match e with
  | stop_processing => with_hook (stopProcessing (hook rt)) rt
  | process_images => call_again rt
  | analysis_returns id result name milliseconds =>
      match List.find (fun c => Nat.eqb (call_id c) id) (suspended rt) with
      | Some c =>
          resume c
            {| outcome := result; smartName := name;
               elapsed := milliseconds; meanwhile := [] |}
            {| hook := hook rt;
               suspended :=
                 List.filter (fun c' => negb (Nat.eqb (call_id c') id))
                             (suspended rt);
               started := started rt; shared := shared rt |}
      | None => rt
      end
  end.

(** *** The call under study *)

(** [for (const image of unprocessedImages)]: the states the hook passes
    through, then the locals and the runtime at the end of the loop.  Per
    iteration the states are: after the [setProgress] before the [await];
    when the awaited analysis returns, after the events of the meantime;
    after [setImages]; after [setStats]. *)
Fixpoint process_queue (queue : list ImageFile.t) (l : Locals)
  (rt : Runtime) : list HookState * Locals * Runtime :=
  match queue with
  | [] => ([], l, rt)
  | image :: rest =>
      if aborted (hook rt) then ([], l, rt)
      else
        let tick := schedule (Z.to_nat (l_processed l)) in
        let rt_await := with_hook (announce image l (hook rt)) rt in
        let rt_resume := fold_left happen (meanwhile tick) rt_await in
        let '(l1, st_stored) :=
          settle image tick l (owns 0 rt_resume) (hook rt_resume) in
        let l2 := count l1 in
        let rt_published := published 0 l2 st_stored rt_resume in
        let '(trace, l_end, rt_end) := process_queue rest l2 rt_published in
        ((hook rt_await :: hook rt_resume :: st_stored :: hook rt_published
          :: trace)%list,
         l_end, rt_end)
  end.

(** The runtime right after the prelude of a call made while no other
    call is suspended. *)
Definition alone (st : HookState) : Runtime :=
  {| hook := st; suspended := []; started := 0; shared := None |}.

(** One call of [processImages] in state [st], made while no other call
    is suspended, from its first statement to its last, with the events of
    the schedule interleaved at its only suspension point, the [await] of
    the analysis.  State setters take effect in call order.  The result
    lists every state the call finds or puts the hook in (an observer sees
    those at the [await]s and the last one), the state it leaves behind
    last; it is empty when the guard returns at once. *)
Definition processImages (st : HookState) : list HookState :=
  match images st with
  | [] => []
  | _ :: _ =>
      if isProcessing st then []
      else
        let unprocessedImages :=
          List.filter (fun img => negb (ImageFile.processed img))
                      (images st) in
        let st0 := start st in
        let '(trace, l_end, rt_end) :=
          process_queue unprocessedImages initial_locals (alone st0) in
        (st0 :: trace
         ++ [wrap_up (images st) (Z.of_nat (length unprocessedImages))
               l_end (hook rt_end)])%list
  end.

End ProcessImages.

(** ** The engine: smart file names *)

(** [s.split(" ")]: the pieces between single spaces, [word] being the
    piece read so far. *)
Fixpoint split_spaces (s : string) (word : string) : list string :=
  match s with
  | EmptyString => [word]
  | String c s' =>
      if Ascii.eqb c " " then word :: split_spaces s' ""
      else split_spaces s' (word ++ String c "")
  end.

(** [words.join("_")] *)
Fixpoint join_underscore (words : list string) : string :=
  match words with
  | [] => ""
  | [w] => w
  | w :: rest => w ++ "_" ++ join_underscore rest
  end.

(** The characters [/[^a-z0-9_]/g] keeps. *)
Definition is_name_char (c : ascii) : bool :=
  let n := N_of_ascii c in
  ((97 <=? n) && (n <=? 122) || (48 <=? n) && (n <=? 57) || (n =? 95))%N.

(** [s.replace(/[^a-z0-9_]/g, "")] *)
Fixpoint strip_unsafe (s : string) : string :=
  match s with
  | EmptyString => EmptyString
  | String c s' =>
      if is_name_char c then String c (strip_unsafe s') else strip_unsafe s'
  end.

(** [s.replace(/\s+/g, "_")]: every run of whitespace becomes one
    underscore; [in_run] tells that the previous character was whitespace. *)
Fixpoint underscore_spaces (s : string) (in_run : bool) : string :=
  match s with
  | EmptyString => EmptyString
  | String c s' =>
      if is_whitespace c
      then if in_run then underscore_spaces s' true
           else String "_" (underscore_spaces s' true)
      else String c (underscore_spaces s' false)
  end.

(** The [descriptor] of [generateSmartFilename]. *)
Definition descriptor (analysis : ImageAnalysis) : string :=
  if JS.truthy_string (description analysis)
  then
    let words :=
      take 3 (List.filter (fun w => (3 <? String.length w)%nat)
                          (split_spaces (default "" (description analysis)) ""))
    in strip_unsafe (JS.toLowerCase (join_underscore words))
  else
    match classification analysis with
    | Some (c :: _) => underscore_spaces (JS.toLowerCase (label c)) false
    | _ => "image"
    end.

(** [generateSmartFilename]; [date] is the day [new Date()] reports and
    [random] the four characters taken from [Math.random().toString(36)]. *)
Definition generateSmartFilename (analysis : ImageAnalysis)
  (date random : string) : string :=
  Category.to_string (categorizeImage analysis) ++ "_" ++ descriptor analysis
  ++ "_" ++ date ++ "_" ++ random ++ ".jpg".

(** ** The engine: loading the providers *)

(** What the six loads of [initialize] do: whether each load succeeds, and
    for face detection how many of its four networks load before one
    fails (4: all of them; the first is [ssdMobilenetv1]). *)
Record Loads : Type := {
  load_classifier : bool;
  load_captioner : bool;
  load_objectDetector : bool;
  load_nsfw : bool;
  load_faces : nat;
  load_ocr : bool
}.

(** The state of [initialize] between two providers: the models, the two
    counters and the progress values reported so far, oldest first. *)
Record Loading : Type := {
  ld_models : Models;
  totalModels : Z;
  loadedModels : Z;
  reported : list Q
}.

(** [(loadedModels / totalModels) * 90] *)
Definition load_progress (loaded total : Z) : Q :=
  (inject_Z loaded / inject_Z total * 90)%Q.

(** One block [if (settings.runX) { try { ... } catch { ... } }]: the
    progress before the load, the models after it ([loaded] or [failed]),
    and the progress after it.  The callback is taken not to throw. *)
Definition load_step (enabled ok : bool) (loaded failed : Models -> Models)
  (s : Loading) : Loading :=
  if enabled
  then {| ld_models := if ok then loaded (ld_models s)
                       else failed (ld_models s);
          totalModels := totalModels s;
          loadedModels := loadedModels s + 1;
          reported :=
            (reported s
             ++ [ load_progress (loadedModels s) (totalModels s);
                  load_progress (loadedModels s + 1) (totalModels s) ])%list |}
  else s.

Definition with_classifier (loaded failed : bool) (m : Models) : Models :=
  {| classifier := loaded || classifier m;
     classifierFailed := failed || classifierFailed m;
     captioner := captioner m; captionerFailed := captionerFailed m;
     objectDetector := objectDetector m;
     objectDetectorFailed := objectDetectorFailed m;
     nsfw_model := nsfw_model m; nsfwFailed := nsfwFailed m;
     faceDetectionFailed := faceDetectionFailed m;
     ssdMobilenetv1_isLoaded := ssdMobilenetv1_isLoaded m;
     ocr := ocr m; ocrFailed := ocrFailed m |}.

Definition with_captioner (loaded failed : bool) (m : Models) : Models :=
  {| classifier := classifier m; classifierFailed := classifierFailed m;
     captioner := loaded || captioner m;
     captionerFailed := failed || captionerFailed m;
     objectDetector := objectDetector m;
     objectDetectorFailed := objectDetectorFailed m;
     nsfw_model := nsfw_model m; nsfwFailed := nsfwFailed m;
     faceDetectionFailed := faceDetectionFailed m;
     ssdMobilenetv1_isLoaded := ssdMobilenetv1_isLoaded m;
     ocr := ocr m; ocrFailed := ocrFailed m |}.

Definition with_objectDetector (loaded failed : bool) (m : Models) : Models :=
  {| classifier := classifier m; classifierFailed := classifierFailed m;
     captioner := captioner m; captionerFailed := captionerFailed m;
     objectDetector := loaded || objectDetector m;
     objectDetectorFailed := failed || objectDetectorFailed m;
     nsfw_model := nsfw_model m; nsfwFailed := nsfwFailed m;
     faceDetectionFailed := faceDetectionFailed m;
     ssdMobilenetv1_isLoaded := ssdMobilenetv1_isLoaded m;
     ocr := ocr m; ocrFailed := ocrFailed m |}.

Definition with_nsfw (loaded failed : bool) (m : Models) : Models :=
  {| classifier := classifier m; classifierFailed := classifierFailed m;
     captioner := captioner m; captionerFailed := captionerFailed m;
     objectDetector := objectDetector m;
     objectDetectorFailed := objectDetectorFailed m;
     nsfw_model := loaded || nsfw_model m;
     nsfwFailed := failed || nsfwFailed m;
     faceDetectionFailed := faceDetectionFailed m;
     ssdMobilenetv1_isLoaded := ssdMobilenetv1_isLoaded m;
     ocr := ocr m; ocrFailed := ocrFailed m |}.

(** The face networks are kept by the [face-api] library, not in [models]:
    [ssdMobilenetv1.isLoaded] holds once that network has loaded. *)
Definition with_faces (first_loaded failed : bool) (m : Models) : Models :=
  {| classifier := classifier m; classifierFailed := classifierFailed m;
     captioner := captioner m; captionerFailed := captionerFailed m;
     objectDetector := objectDetector m;
     objectDetectorFailed := objectDetectorFailed m;
     nsfw_model := nsfw_model m; nsfwFailed := nsfwFailed m;
     faceDetectionFailed := failed || faceDetectionFailed m;
     ssdMobilenetv1_isLoaded := first_loaded || ssdMobilenetv1_isLoaded m;
     ocr := ocr m; ocrFailed := ocrFailed m |}.

Definition with_ocr (loaded failed : bool) (m : Models) : Models :=
  {| classifier := classifier m; classifierFailed := classifierFailed m;
     captioner := captioner m; captionerFailed := captionerFailed m;
     objectDetector := objectDetector m;
     objectDetectorFailed := objectDetectorFailed m;
     nsfw_model := nsfw_model m; nsfwFailed := nsfwFailed m;
     faceDetectionFailed := faceDetectionFailed m;
     ssdMobilenetv1_isLoaded := ssdMobilenetv1_isLoaded m;
     ocr := loaded || ocr m; ocrFailed := failed || ocrFailed m |}.

Definition count_enabled (settings : AiSettings) : Z :=
  (if runClassifier settings then 1 else 0)
  + (if runCaptioner settings then 1 else 0)
  + (if runObjectDetection settings then 1 else 0)
  + (if runNsfw settings then 1 else 0)
  + (if runFaceDetection settings then 1 else 0)
  + (if runOcr settings then 1 else 0).

(** [initialize]: the engine it leaves and the progress values it reports
    (the message texts are left out). *)
Definition initialize (eng : Engine) (settings : AiSettings) (loads : Loads)
  : Engine * list Q :=
  if isReady eng then (eng, [])
  else
    let s0 :=
      {| ld_models := models eng; totalModels := count_enabled settings;
         loadedModels := 0; reported := [0%Q] |} in
    let s1 :=
      load_step (runClassifier settings) (load_classifier loads)
        (with_classifier true false) (with_classifier false true) s0 in
    let s2 :=
      load_step (runCaptioner settings) (load_captioner loads)
        (with_captioner true false) (with_captioner false true) s1 in
    let s3 :=
      load_step (runObjectDetection settings) (load_objectDetector loads)
        (with_objectDetector true false) (with_objectDetector false true) s2 in
    let s4 :=
      load_step (runNsfw settings) (load_nsfw loads)
        (with_nsfw true false) (with_nsfw false true) s3 in
    let s5 :=
      load_step (runFaceDetection settings) (4 <=? load_faces loads)%nat
        (with_faces true false)
        (with_faces (1 <=? load_faces loads)%nat true) s4 in
    let s6 :=
      load_step (runOcr settings) (load_ocr loads)
        (with_ocr true false) (with_ocr false true) s5 in
    ({| models := ld_models s6; isReady := true |},
     (reported s6 ++ [100%Q])%list).

(** [this.models = {}]: every entry of the map is gone; the networks of
    [face-api] are not part of the map. *)
Definition no_models (m : Models) : Models :=
  {| classifier := false; classifierFailed := false;
     captioner := false; captionerFailed := false;
     objectDetector := false; objectDetectorFailed := false;
     nsfw_model := false; nsfwFailed := false;
     faceDetectionFailed := false;
     ssdMobilenetv1_isLoaded := ssdMobilenetv1_isLoaded m;
     ocr := false; ocrFailed := false |}.

(** [terminate] *)
Definition terminate (eng : Engine) : Engine :=
  {| models := no_models (models eng); isReady := false |}.

(** ** The hook: filtering images *)

(** [FilterOptions]; [maxSize] is [None] for [Infinity]; [dateRange] and
    [tags] are never read by the filter and are left out. *)
Record FilterOptions : Type := {
  categories : list Category.t;
  hasText : bool;
  hasFaces : bool;
  filter_isNSFW : bool;
  minSize : Z;
  maxSize : option Z;
  searchQuery : string
}.

Definition DEFAULT_FILTER_OPTIONS : FilterOptions :=
  {| categories := []; hasText := false; hasFaces := false;
     filter_isNSFW := false; minSize := 0; maxSize := None;
     searchQuery := "" |}.

(** [image.analysis?.isNSFW || false] *)
Definition flagged_nsfw (image : ImageFile.t) : bool :=
  match ImageFile.legacy image with
  | Some l => ImageFile.isNSFW l
  | None => false
  end.

(** [words.join(" ")]; below, [x || ""] on an optional string is
    [default "" x]. *)
Fixpoint join_spaces (words : list string) : string :=
  match words with
  | [] => ""
  | [w] => w
  | w :: rest => w ++ " " ++ join_spaces rest
  end.

Definition searchable_text (image : ImageFile.t) : string :=
  JS.toLowerCase
    (join_spaces
       ([ ImageFile.name image;
          default "" (ImageFile.analysis image ≫= description);
          default "" (ImageFile.analysis image ≫= ocrText) ]
        ++ ImageFile.tags image)).

(** The callback of [images.filter(...)] that computes [filteredImages]. *)
Definition passes (filters : FilterOptions) (image : ImageFile.t) : bool :=
  if negb (match categories filters with [] => true | _ :: _ => false end)
     && negb (match ImageFile.category image with
              | Some c => existsb (Category.eqb c) (categories filters)
              | None => false
              end)
  then false
  else if hasText filters
          && negb (JS.truthy_string (ImageFile.analysis image ≫= ocrText))
  then false
  else if hasFaces filters
          && negb (match ImageFile.analysis image ≫= faces with
                   | Some (_ :: _) => true
                   | _ => false
                   end)
  then false
  else if negb (Bool.eqb (filter_isNSFW filters) (flagged_nsfw image))
  then false
  else if (ImageFile.size image <? minSize filters)
          || match maxSize filters with
             | Some m => m <? ImageFile.size image
             | None => false
             end
  then false
  else if JS.truthy_string (Some (searchQuery filters))
          && negb (JS.includes (searchable_text image)
                               (JS.toLowerCase (searchQuery filters)))
  then false
  else true.

Definition filteredImages (filters : FilterOptions) (st : HookState)
  : list ImageFile.t :=
  List.filter (passes filters) (images st).

(** ** Vocabulary of the properties *)

(** The invariant of the running statistics. *)
Definition stats_consistent (s : Stats.t) : Prop :=
  Stats.processed s = Stats.successful s + Stats.errors s /\
  Stats.processed s <= Stats.total s.

(** The same on the local counters of a run. *)
Definition counters_consistent (l : Locals) : Prop :=
  l_processed l = l_successful l + l_errors l.

(** Whether the image [j] joins the group led by an image with [hash1]. *)
Definition joins (hash1 : string) (processed : gset string)
  (j : string * ImageAnalysis) : bool :=
  negb (bool_decide (j.1 ∈ processed))
  && JS.truthy_string (pHash j.2)
  && similar (calculateHashSimilarity hash1 (default "" (pHash j.2))).

(** The [processed] set never separates two images with the same hash. *)
Definition paired (images : list (string * ImageAnalysis))
  (processed : gset string) : Prop :=
  forall x y h, In x images -> In y images ->
    pHash x.2 = Some h -> pHash y.2 = Some h -> h <> "" ->
    x.1 ∈ processed <-> y.1 ∈ processed.

(** A colour channel of a pixel. *)
Definition channel_ok (z : Z) : Prop := 0 <= z <= 255.

Definition rgba_ok (p : Z * Z * Z * Z) : Prop :=
  let '(r, g, b, a) := p in
  channel_ok r /\ channel_ok g /\ channel_ok b /\ channel_ok a.

(** A metric that is a number of [0, 1] with three decimals. *)
Definition unit_metric (x : number) : Prop :=
  exists v, x = Some v /\ (0 <= v <= 1)%R
            /\ exists z : Z, v = (IZR z / 1000)%R.

(** Every pixel has the same red, green and blue. *)
Definition uniform (imageData : ImageData) : Prop :=
  exists rgb, Forall (fun p => p.1 = rgb) (pixels_of (data imageData)).

Definition is_hex_digit (c : ascii) : bool :=
  let n := N_of_ascii c in
  ((48 <=? n) && (n <=? 57) || (97 <=? n) && (n <=? 102))%N.

(** ['#'] followed by six hexadecimal digits. *)
Definition is_hex_color (s : string) : bool :=
  match s with
  | String "#" digits =>
      (String.length digits =? 6)%nat
      && forallb is_hex_digit (list_ascii_of_string digits)
  | _ => false
  end.

Definition two_hex_digits (s : string) : bool :=
  match s with
  | String c1 (String c2 EmptyString) => is_hex_digit c1 && is_hex_digit c2
  | _ => false
  end.

Definition pixel_ok (p : Pixel) : Prop :=
  channel_ok p.1.1 /\ channel_ok p.1.2 /\ channel_ok p.2.

Definition mean_ok (q : Q) : Prop := (0 <= q <= 255)%Q.

Definition centroid_ok (c : Centroid) : Prop :=
  mean_ok c.1.1 /\ mean_ok c.1.2 /\ mean_ok c.2.

(** The same configuration with another [nsfwThreshold]. *)
Definition with_nsfwThreshold (t : Q) (settings : AiSettings) : AiSettings :=
  {| runClassifier := runClassifier settings;
     runCaptioner := runCaptioner settings;
     runObjectDetection := runObjectDetection settings;
     runNsfw := runNsfw settings;
     nsfwThreshold := t;
     runFaceDetection := runFaceDetection settings;
     runOcr := runOcr settings;
     runDuplicateDetection := runDuplicateDetection settings;
     runQualityAnalysis := runQualityAnalysis settings;
     runColorPalette := runColorPalette settings |}.

(** ** Sample inputs *)

Definition sample_file : File :=
  {| file_name := "IMG_0001.png"; file_size := 2048; file_type := "image/png" |}.

Definition blank_analysis : ImageAnalysis :=
  {| file := sample_file; error := None; dimensions := (1, 1); size := 0%Q;
     classification := None; description := None; objects := None;
     nsfw := None; faces := None; ocrText := None; pHash := None;
     quality := None; palette := None |}.

(** A face next to an explicit prediction and a food label. *)
Definition explicit_selfie : ImageAnalysis :=
  set_faces [ {| age := 30; gender := "female"; expression := "happy";
                 confidence := 9 # 10 |} ]
    (set_nsfw [ {| className := "Porn"; probability := 99 # 100 |} ]
       (set_classification [ {| label := "food"; score := 9 # 10 |} ]
          (set_ocrText "" blank_analysis))).

(** An engine after [initialize] with every provider loaded. *)
Definition loaded_engine : Engine :=
  {| models :=
       {| classifier := true; classifierFailed := false;
          captioner := true; captionerFailed := false;
          objectDetector := true; objectDetectorFailed := false;
          nsfw_model := true; nsfwFailed := false;
          faceDetectionFailed := false; ssdMobilenetv1_isLoaded := true;
          ocr := true; ocrFailed := false |};
     isReady := true |}.

(** An engine after [initialize] when every provider failed to load. *)
Definition degraded_engine : Engine :=
  {| models :=
       {| classifier := false; classifierFailed := true;
          captioner := false; captionerFailed := true;
          objectDetector := false; objectDetectorFailed := true;
          nsfw_model := false; nsfwFailed := true;
          faceDetectionFailed := true; ssdMobilenetv1_isLoaded := false;
          ocr := false; ocrFailed := true |};
     isReady := true |}.

Definition null_context : string :=
  "TypeError: Cannot read properties of null (reading 'drawImage')".

(** A world in which the providers answer and no canvas is available. *)
Definition borderline_world : World :=
  {| createImageElement := JS.Ok (640, 480);
     classifier_run := JS.Ok [ {| label := "person"; score := 4 # 10 |} ];
     captioner_run := JS.Ok (Some "a person standing");
     objectDetector_run := JS.Ok [];
     nsfw_classify :=
       JS.Ok [ {| className := "Sexy"; probability := 6 # 10 |};
               {| className := "Neutral"; probability := 4 # 10 |} ];
     detectAllFaces := JS.Ok [];
     ocr_recognize := JS.Ok "  ";
     canvas_hash := JS.Throw null_context;
     canvas_quality := JS.Throw null_context;
     canvas_palette := JS.Throw null_context;
     random_caption := 0%Q;
     random_palette := fun _ => 0%Q |}.

(** The default settings with the NSFW threshold lowered to 0.5 and the
    canvas stages switched off. *)
Definition lenient_settings : AiSettings :=
  {| runClassifier := true; runCaptioner := true; runObjectDetection := false;
     runNsfw := true; nsfwThreshold := 1 # 2; runFaceDetection := true;
     runOcr := true; runDuplicateDetection := false;
     runQualityAnalysis := false; runColorPalette := false |}.

(** An image as [addImages] queues it. *)
Definition queued_image (n : string) : ImageFile.t :=
  {| ImageFile.id := n; ImageFile.file := sample_file;
     ImageFile.name := n ++ ".png"; ImageFile.size := 2048;
     ImageFile.processed := false; ImageFile.analysis := None;
     ImageFile.legacy := None; ImageFile.category := None;
     ImageFile.tags := [] |}.

(** The initial state of the hook with five images queued. *)
Definition five_queued : HookState :=
  {| images := map queued_image ["a"; "b"; "c"; "d"; "e"];
     progress :=
       {| Progress.current := 0; Progress.total := 0;
          Progress.status := Progress.idle; Progress.stage := Progress.upload;
          Progress.currentFile := None;
          Progress.message := "Ready to organize images" |};
     stats :=
       {| Stats.total := 0; Stats.processed := 0; Stats.successful := 0;
          Stats.errors := 0; Stats.categorized := fun _ => 0;
          Stats.avgProcessingTime := Some 0%Q; Stats.endTime := false |};
     suggestions := [];
     isProcessing := false;
     abortControllerRef := None |}.

Definition default_options : OrganizeOptions :=
  {| autoRename := true; findDuplicates := true |}.

(** Every analysis succeeds; [stopProcessing] is called while the second
    image is being analyzed. *)
Definition stop_during_second (i : nat) : Tick :=
  {| outcome := JS.Ok (set_ocrText "" blank_analysis);
     smartName := "general_image_2026-01-01_k3x9.jpg";
     elapsed := 40;
     meanwhile := if Nat.eqb i 1 then [stop_processing] else [] |}.

(** Every analysis succeeds.  While the second image is being analyzed the
    user calls [stopProcessing] and then [processImages] again; from then
    on the analysis of the second call returns before the analysis of the
    first call does. *)
Definition restart_during_second (i : nat) : Tick :=
  let again :=
    analysis_returns 1 (JS.Ok (set_ocrText "" blank_analysis))
      "general_image_2026-01-01_p7q2.jpg" 35 in
  {| outcome := JS.Ok (set_ocrText "" blank_analysis);
     smartName := "general_image_2026-01-01_k3x9.jpg";
     elapsed := 40;
     meanwhile :=
       match i with
       | 0%nat => []
       | 1%nat => [stop_processing; process_images]
       | _ => [again]
       end |}.

(** A 1x1 buffer: one opaque mid-gray pixel. *)
Definition one_pixel : ImageData :=
  {| width := 1; height := 1; data := [x80; x80; x80; xff]%byte |}.

(** A 150x150 buffer: a black and a white opaque pixel, the rest fully
    transparent. *)
Definition two_tone : ImageData :=
  {| width := 150; height := 150;
     data := ([x00; x00; x00; xff; xff; xff; xff; xff]%byte
              ++ repeat x00%byte (Z.to_nat 89992))%list |}.

(** A 150x150 buffer of fully transparent pixels. *)
Definition transparent : ImageData :=
  {| width := 150; height := 150; data := repeat x00%byte (Z.to_nat 90000) |}.

(** Every provider answers; the 2D context of the hash canvas is [null],
    the two other canvases work. *)
Definition hash_fails_world : World :=
  {| createImageElement := JS.Ok (640, 480);
     classifier_run := JS.Ok [ {| label := "landscape"; score := 8 # 10 |} ];
     captioner_run := JS.Ok (Some "a mountain lake");
     objectDetector_run := JS.Ok [];
     nsfw_classify := JS.Ok [ {| className := "Neutral"; probability := 9 # 10 |} ];
     detectAllFaces := JS.Ok [];
     ocr_recognize := JS.Ok "";
     canvas_hash := JS.Throw null_context;
     canvas_quality := JS.Ok one_pixel;
     canvas_palette := JS.Ok two_tone;
     random_caption := 0%Q;
     random_palette := fun _ => 0%Q |}.

(** A 32x32 buffer: the upper half dark, the lower half light. *)
Definition half_dark : ImageData :=
  {| width := 32; height := 32;
     data := (repeat x10%byte (Z.to_nat 2048)
              ++ repeat xf0%byte (Z.to_nat 2048))%list |}.

(** Two analyses of the same image: the canvases hand back the same
    buffers; the providers and [Math.random()] answer differently, but the
    random values select the same pixels. *)
Definition first_run : World :=
  {| createImageElement := JS.Ok (640, 480);
     classifier_run := JS.Ok [ {| label := "landscape"; score := 8 # 10 |} ];
     captioner_run := JS.Ok (Some "a mountain lake");
     objectDetector_run := JS.Ok [];
     nsfw_classify := JS.Ok [ {| className := "Neutral"; probability := 9 # 10 |} ];
     detectAllFaces := JS.Ok [];
     ocr_recognize := JS.Ok "";
     canvas_hash := JS.Ok half_dark;
     canvas_quality := JS.Ok one_pixel;
     canvas_palette := JS.Ok two_tone;
     random_caption := 0%Q;
     random_palette := fun _ => 0%Q |}.

Definition second_run : World :=
  {| createImageElement := JS.Ok (640, 480);
     classifier_run := JS.Throw "Error: out of memory";
     captioner_run := JS.Ok None;
     objectDetector_run := JS.Ok [];
     nsfw_classify := JS.Ok [];
     detectAllFaces := JS.Throw "Error: backend lost";
     ocr_recognize := JS.Ok "";
     canvas_hash := JS.Ok half_dark;
     canvas_quality := JS.Ok one_pixel;
     canvas_palette := JS.Ok two_tone;
     random_caption := 2 # 3;
     random_palette := fun i => ((1 # 4) * (1 # Pos.of_nat (S i)))%Q |}.


(** A hash of [ones] bits 1 followed by [zeros] bits 0. *)
Definition bits (ones zeros : nat) : string :=
  string_of_list_ascii (repeat "1"%char ones ++ repeat "0"%char zeros).

Definition hashed (id : string) (hash : string) : string * ImageAnalysis :=
  (id, set_pHash hash blank_analysis).

(** Three analyzed images; the first and the third have the same hash. *)
Definition three_hashed : list (string * ImageAnalysis) :=
  [ hashed "a" "11110000"; hashed "b" "00001111"; hashed "c" "11110000" ].

(** ** Further vocabulary and sample inputs *)

Definition is_bit (c : ascii) : Prop := c = "0"%char \/ c = "1"%char.

(** The image [m] is in the input with a hash similar to [hash1]. *)
Definition similar_member (images : list (string * ImageAnalysis))
  (hash1 : string) (m : string) : Prop :=
  exists a, In (m, a) images /\ JS.truthy_string (pHash a) = true /\
            similar (calculateHashSimilarity hash1 (default "" (pHash a)))
            = true.

(** The group starts with a leader that has a hash, and every other member
    is similar to the leader. *)
Definition led_group (images : list (string * ImageAnalysis))
  (g : DuplicateGroup) : Prop :=
  exists id a members,
    group g = id :: members /\ In (id, a) images /\
    JS.truthy_string (pHash a) = true /\
    Forall (similar_member images (default "" (pHash a))) members.

(** No provider that decides the category is usable. *)
Definition all_unavailable (eng : Engine) : Prop :=
  classifier (models eng) && negb (classifierFailed (models eng)) = false /\
  nsfw_model (models eng) && negb (nsfwFailed (models eng)) = false /\
  negb (faceDetectionFailed (models eng))
  && ssdMobilenetv1_isLoaded (models eng) = false /\
  ocr (models eng) && negb (ocrFailed (models eng)) = false.

Fixpoint drop_whitespace (l : list ascii) : list ascii :=
  match l with
  | c :: l' => if is_whitespace c then drop_whitespace l' else l
  | [] => []
  end.

(** The first and the last character of the string, if any, are not
    whitespace. *)
Definition no_outer_whitespace (s : string) : Prop :=
  (forall c, head (list_ascii_of_string s) = Some c -> is_whitespace c = false)
  /\ (forall c, last (list_ascii_of_string s) = Some c ->
                is_whitespace c = false).

Definition all_categories : list Category.t :=
  [ Category.selfies; Category.documents; Category.screenshots;
    Category.nature; Category.food; Category.art; Category.nsfw;
    Category.duplicates; Category.general; Category.memes; Category.receipts;
    Category.qr_codes; Category.pets; Category.vehicles;
    Category.architecture ].

(** The sum of the per-category counts. *)
Definition category_total (categorized : Category.t -> Z) : Z :=
  fold_right (fun c sum => categorized c + sum) 0 all_categories.

(** An engine on which [initialize] was never called. *)
Definition fresh_engine : Engine :=
  {| models :=
       {| classifier := false; classifierFailed := false;
          captioner := false; captionerFailed := false;
          objectDetector := false; objectDetectorFailed := false;
          nsfw_model := false; nsfwFailed := false;
          faceDetectionFailed := false; ssdMobilenetv1_isLoaded := false;
          ocr := false; ocrFailed := false |};
     isReady := false |}.

(** Progress values that never go back. *)
Fixpoint non_decreasing (l : list Q) : Prop :=
  match l with
  | x :: (y :: _) as rest => (x <= y)%Q /\ non_decreasing rest
  | _ => True
  end.

Definition no_whitespace (s : string) : Prop :=
  Forall (fun c => is_whitespace c = false) (list_ascii_of_string s).

Definition name_chars (s : string) : Prop :=
  Forall (fun c => is_name_char c = true) (list_ascii_of_string s).



(** An image a former run has analyzed, with the given hash. *)
Definition analyzed_image (n hash : string) : ImageFile.t :=
  {| ImageFile.id := n; ImageFile.file := sample_file;
     ImageFile.name := n ++ ".png"; ImageFile.size := 2048;
     ImageFile.processed := true;
     ImageFile.analysis := Some (set_pHash hash blank_analysis);
     ImageFile.legacy := Some (legacy_of (set_pHash hash blank_analysis));
     ImageFile.category := Some Category.general;
     ImageFile.tags := ["general"] |}.

(** Every load of [initialize] fails; two of the face networks load. *)
Definition failing_loads : Loads :=
  {| load_classifier := false; load_captioner := false;
     load_objectDetector := false; load_nsfw := false;
     load_faces := 2; load_ocr := false |}.


(** * Properties *)

(** ** Results and rationals *)

Lemma Qgtb_true (a b : Q) : JS.Qgtb a b = true <-> (b < a)%Q.
Proof.
  unfold JS.Qgtb. rewrite negb_true_iff, <- not_true_iff_false, Qle_bool_iff.
  split; [apply Qnot_le_lt | apply Qlt_not_le].
Qed.

(** Comparing [Distance]s is comparing the square roots as real numbers. *)
Lemma dist_lt_sqrt (a b : Q) :
  (0 <= a)%Q -> (0 <= b)%Q ->
  dist_lt (Sqrt a) (Sqrt b) = true <-> (sqrt (Q2R a) < sqrt (Q2R b))%R.
Proof.
  intros Ha Hb. apply Qle_Rle in Ha, Hb. rewrite RMicromega.Q2R_0 in Ha, Hb.
  cbn [dist_lt]. rewrite Qgtb_true. split.
  - intros H. apply sqrt_lt_1; [exact Ha | exact Hb | now apply Qlt_Rlt].
  - intros H. apply Rlt_Qlt. now apply sqrt_lt_0.
Qed.

(** ** The categorizer *)

(** C3.  An analysis whose face list is not empty is categorized [selfies],
    whatever its NSFW predictions, classification labels and OCR text. *)
Theorem faces_categorize_selfies (analysis : ImageAnalysis) (fs : list Face) :
  faces analysis = Some fs -> fs <> [] ->
  categorizeImage analysis = Category.selfies.
Proof.
  intros Hf Hne. unfold categorizeImage, has_faces. rewrite Hf.
  destruct fs; [contradiction | reflexivity].
Qed.

Lemma faces_categorize_selfies_witness :
  categorizeImage explicit_selfie = Category.selfies.
Proof.
  apply (faces_categorize_selfies explicit_selfie
           [ {| age := 30; gender := "female"; expression := "happy";
                confidence := 9 # 10 |} ]).
  - reflexivity.
  - discriminate.
Defined.

Lemma nsfw_flagged_iff (a : ImageAnalysis) :
  nsfw_flagged a = true <->
  exists ps n, nsfw a = Some ps /\ In n ps /\ (7 # 10 < probability n)%Q.
Proof.
  unfold nsfw_flagged. destruct (nsfw a) as [ps|].
  - rewrite existsb_exists. split.
    + intros (n & Hin & Hgt). exists ps, n. rewrite Qgtb_true in Hgt. auto.
    + intros (ps' & n & Heq & Hin & Hgt). injection Heq as <-.
      exists n. rewrite Qgtb_true. auto.
  - split; [discriminate | intros (ps & n & Heq & _); discriminate].
Qed.

(** Rule 4 is reached only behind rules 1 to 3, and then decides alone. *)
Lemma categorize_rule4 (a : ImageAnalysis) :
  has_faces a = false -> long_text a = false ->
  classification_category a = None ->
  categorizeImage a
  = if nsfw_flagged a then Category.nsfw else Category.general.
Proof.
  intros H1 H2 H3. unfold categorizeImage. now rewrite H1, H2, H3.
Qed.

(** ** The orchestrator *)

Lemma stage_ok {X} (enabled : bool) (x : X)
  (assign : X -> ImageAnalysis -> ImageAnalysis) (a : ImageAnalysis) :
  stage enabled (JS.Ok x) assign a
  = JS.Ok (if enabled then assign x a else a).
Proof. unfold stage. now destruct enabled. Qed.

Lemma run_stages_ok {X} (enabled : bool) (x : X)
  (assign : X -> ImageAnalysis -> ImageAnalysis) (rest : list Stage)
  (a : ImageAnalysis) :
  run_stages (stage enabled (JS.Ok x) assign :: rest) a
  = run_stages rest (if enabled then assign x a else a).
Proof. simpl. now rewrite stage_ok. Qed.

(** A field that no stage of a list assigns is the same after the block,
    whether it ends normally or in the [catch]. *)
Lemma run_stages_keeps {X} (proj : ImageAnalysis -> X) (sts : list Stage)
  (a : ImageAnalysis) :
  (forall st b b', In st sts -> st b = JS.Ok b' -> proj b' = proj b) ->
  (forall m b, proj (set_error m b) = proj b) ->
  proj (run_stages sts a) = proj a.
Proof.
  intros Hst Herr. revert a.
  induction sts as [|st rest IH]; intros a; simpl; [reflexivity|].
  destruct (st a) as [a'|m] eqn:E.
  - rewrite IH.
    + apply (Hst st); [now left | exact E].
    + intros st' b b' Hin. apply Hst. now right.
  - apply Herr.
Qed.

Lemma stage_keeps {X Y} (proj : ImageAnalysis -> Y) (enabled : bool)
  (run : JS.result X) (assign : X -> ImageAnalysis -> ImageAnalysis)
  (b b' : ImageAnalysis) :
  (forall x c, proj (assign x c) = proj c) ->
  stage enabled run assign b = JS.Ok b' -> proj b' = proj b.
Proof.
  intros Hassign. unfold stage. destruct enabled.
  - destruct run as [x|m]; simpl; [|discriminate].
    intros [= <-]. apply Hassign.
  - now intros [= <-].
Qed.

(** What [analyze] returns when it returns. *)
Lemma analyze_ok (eng : Engine) (w : World) (f : File)
  (settings : AiSettings) (a : ImageAnalysis) :
  analyze eng w f settings = JS.Ok a ->
  exists imageElement,
    isReady eng = true /\ createImageElement w = JS.Ok imageElement /\
    a = run_stages (stages eng w f settings) (fresh_analysis f imageElement).
Proof.
  unfold analyze. destruct (isReady eng); [|discriminate].
  destruct (createImageElement w) as [dims|m]; [|discriminate].
  intros H. exists dims. split; [reflexivity|]. split; [reflexivity|].
  symmetry. injection H. exact (fun e => e).
Qed.

(** The stages after NSFW detection (faces, OCR, hash, quality, palette)
    leave the [nsfw] field alone. *)
Lemma analyze_nsfw_field (eng : Engine) (w : World) (f : File)
  (settings : AiSettings) (a : ImageAnalysis) :
  analyze eng w f settings = JS.Ok a ->
  nsfw a = if runNsfw settings then Some (detectNSFW eng w) else None.
Proof.
  intros (dims & _ & _ & ->)%analyze_ok. unfold stages.
  rewrite !run_stages_ok.
  rewrite (run_stages_keeps nsfw).
  - destruct (runOcr settings), (runFaceDetection settings),
      (runNsfw settings), (runObjectDetection settings && _),
      (runCaptioner settings), (runClassifier settings); reflexivity.
  - intros st b b' Hin.
    repeat (destruct Hin as [<-|Hin];
            [apply (stage_keeps nsfw); reflexivity|]).
    destruct Hin.
  - reflexivity.
Qed.

(** Rule 4 compares with the literal 0.7: an analysis with no faces, at
    most 50 characters of text and no matching top label is categorized
    [nsfw] exactly when some NSFW prediction has a probability above 0.7.
    [categorizeImage] is given the analysis only, no configuration. *)
Lemma nsfw_rule_uses_fixed_threshold (a : ImageAnalysis) :
  has_faces a = false -> long_text a = false ->
  classification_category a = None ->
  categorizeImage a = Category.nsfw <->
  exists ps n, nsfw a = Some ps /\ In n ps /\ (7 # 10 < probability n)%Q.
Proof.
  intros H1 H2 H3. rewrite categorize_rule4 by assumption.
  rewrite <- nsfw_flagged_iff. destruct (nsfw_flagged a); split; congruence.
Qed.

(** The orchestrator does not read [nsfwThreshold] either: the analysis
    is the same whatever threshold the configuration carries. *)
Lemma analyze_ignores_nsfwThreshold (eng : Engine) (w : World) (f : File)
  (settings : AiSettings) (t : Q) :
  analyze eng w f (with_nsfwThreshold t settings)
  = analyze eng w f settings.
Proof. reflexivity. Qed.

(** C5.  The configuration record declares [nsfwThreshold] and nothing
    reads it: with [nsfwThreshold = 0.5] and a prediction of probability
    0.6 (no faces, short text, no matching label) the claim asks for
    [nsfw]; the code answers [general]. *)
Theorem nsfw_threshold_not_consulted :
  match analyze loaded_engine borderline_world sample_file lenient_settings with
  | JS.Ok a =>
      has_faces a = false /\ long_text a = false /\
      classification_category a = None /\
      existsb (fun n => JS.Qgtb (probability n) (nsfwThreshold lenient_settings))
              (default [] (nsfw a)) = true /\
      categorizeImage a = Category.general
  | JS.Throw _ => False
  end.
Proof. vm_compute. repeat split. Qed.

(** Without a usable NSFW model [detectNSFW] answers with the one neutral
    prediction. *)
Lemma detectNSFW_fallback (eng : Engine) (w : World) :
  nsfw_model (models eng) && negb (nsfwFailed (models eng)) = false ->
  detectNSFW eng w = [ {| className := "Neutral"; probability := 95 # 100 |} ].
Proof. intros H. unfold detectNSFW. now rewrite H. Qed.

(** C10.  When the NSFW model is unavailable, [detectNSFW] returns the
    single prediction [Neutral] with probability 0.95, and an image analyzed
    with NSFW detection on that has no faces, at most 50 characters of text
    and no matching top label is categorized [nsfw], not [general]. *)
Theorem fallback_neutral_categorized_nsfw (eng : Engine) (w : World)
  (f : File) (settings : AiSettings) (a : ImageAnalysis) :
  nsfw_model (models eng) && negb (nsfwFailed (models eng)) = false ->
  runNsfw settings = true ->
  analyze eng w f settings = JS.Ok a ->
  has_faces a = false -> long_text a = false ->
  classification_category a = None ->
  nsfw a = Some [ {| className := "Neutral"; probability := 95 # 100 |} ] /\
  categorizeImage a = Category.nsfw.
Proof.
  intros Hmodel Hrun Ha H1 H2 H3.
  apply analyze_nsfw_field in Ha. rewrite Hrun, detectNSFW_fallback in Ha
    by exact Hmodel.
  split; [exact Ha|].
  rewrite categorize_rule4 by assumption.
  unfold nsfw_flagged. now rewrite Ha.
Qed.

Lemma fallback_neutral_categorized_nsfw_witness :
  categorizeImage
    (run_stages (stages degraded_engine borderline_world sample_file
                   lenient_settings)
       (fresh_analysis sample_file (640, 480)))
  = Category.nsfw.
Proof.
  apply (fallback_neutral_categorized_nsfw degraded_engine borderline_world
           sample_file lenient_settings); reflexivity.
Defined.

(** ** The batch processor *)

Section BatchRun.

Variable organizeOptions : OrganizeOptions.
Variable schedule : nat -> Tick.

Lemma settle_total image tick l mine st :
  Stats.total (stats (settle organizeOptions image tick l mine st).2)
  = Stats.total (stats st).
Proof. unfold settle. now destruct (outcome tick), mine. Qed.

(** The in-place count touches [categorized] only. *)
Lemma settle_consistent image tick l mine st :
  stats_consistent (stats (settle organizeOptions image tick l mine st).2)
  <-> stats_consistent (stats st).
Proof. unfold settle. now destruct (outcome tick), mine. Qed.

Lemma settle_abort image tick l mine st :
  abortControllerRef (settle organizeOptions image tick l mine st).2
  = abortControllerRef st.
Proof. unfold settle. now destruct (outcome tick), mine. Qed.

Lemma settle_counters image tick l mine st :
  counters_consistent l ->
  counters_consistent (count (settle organizeOptions image tick l mine st).1).
Proof.
  unfold counters_consistent, settle.
  destruct (outcome tick); simpl; lia.
Qed.

Lemma settle_processed image tick l mine st :
  l_processed (count (settle organizeOptions image tick l mine st).1)
  = l_processed l + 1.
Proof. unfold settle. now destruct (outcome tick). Qed.

Lemma stopProcessing_twice st :
  stopProcessing (stopProcessing st) = stopProcessing st.
Proof.
  unfold stopProcessing. cbn. now destruct (abortControllerRef st).
Qed.

Lemma with_hook_same rt : with_hook (hook rt) rt = rt.
Proof. now destruct rt. Qed.

(** While no other call is suspended and [processImages] is not called
    again, all that can happen during an await is [stopProcessing]. *)
Lemma meantime_without_restart tick rt :
  suspended rt = [] -> restart_requested tick = false ->
  fold_left (happen organizeOptions) (meanwhile tick) rt
  = if stop_requested tick then with_hook (stopProcessing (hook rt)) rt
    else rt.
Proof.
  unfold restart_requested, stop_requested.
  generalize (meanwhile tick). intros events. revert rt.
  induction events as [|e events IH]; intros rt Hnone Hquiet; [reflexivity|].
  destruct e as [| |id result name ms]; cbn [fold_left existsb orb] in *.
  - cbn [happen]. rewrite IH by (assumption || reflexivity).
    unfold with_hook. cbn [hook suspended started shared].
    rewrite stopProcessing_twice.
    match goal with |- (if ?b then _ else _) = _ => now destruct b end.
  - discriminate.
  - cbn [happen]. rewrite Hnone. cbn [List.find]. now apply IH.
Qed.


(** What the loop of a call that runs alone publishes is consistent, and
    nothing else touches the counts: every state of the loop has
    consistent statistics. *)
Lemma process_queue_stats :
  (forall i, restart_requested (schedule i) = false) ->
  forall queue l rt trace l_end rt_end,
    process_queue organizeOptions schedule queue l rt = (trace, l_end, rt_end) ->
    suspended rt = [] ->
    counters_consistent l ->
    l_processed l + Z.of_nat (length queue) <= Stats.total (stats (hook rt)) ->
    stats_consistent (stats (hook rt)) ->
    Forall (fun s => stats_consistent (stats s)) trace /\
    stats_consistent (stats (hook rt_end)).
Proof.
  intros Hquiet.
  induction queue as [|image rest IH]; intros l rt trace l_end rt_end.
  - simpl. intros [= <- <- <-] _ _ _ Hst. split; [constructor | exact Hst].
  - simpl. destruct (aborted (hook rt)).
    { intros [= <- <- <-] _ _ _ Hst. split; [constructor | exact Hst]. }
    set (tick := schedule (Z.to_nat (l_processed l))).
    intros Hq Hnone Hl Hlen Hst. revert Hq.
    rewrite (meantime_without_restart tick) by (exact Hnone || apply Hquiet).
    set (rt_resume := if stop_requested tick then _ else _).
    assert (Hresume : stats (hook rt_resume) = stats (hook rt)
                      /\ suspended rt_resume = []).
    { subst rt_resume. now destruct (stop_requested tick). }
    destruct Hresume as [Hresume Hnone'].
    pose proof (settle_total image tick l (owns 0 rt_resume) (hook rt_resume))
      as Htotal.
    pose proof (settle_consistent image tick l (owns 0 rt_resume)
                  (hook rt_resume)) as Hkeep.
    pose proof (settle_counters image tick l (owns 0 rt_resume)
                  (hook rt_resume)) as Hcount.
    pose proof (settle_processed image tick l (owns 0 rt_resume)
                  (hook rt_resume)) as Hproc.
    destruct (settle organizeOptions image tick l _ _) as [l1 st_stored].
    cbn [fst snd] in Htotal, Hkeep, Hcount, Hproc.
    destruct (process_queue organizeOptions schedule rest (count l1) _)
      as [[trace' l'] rt'] eqn:Hrest.
    intros [= <- <- <-].
    assert (Hpub : stats_consistent (stats (publish (count l1) st_stored))).
    { specialize (Hcount Hl). unfold counters_consistent in Hcount.
      unfold stats_consistent, publish. cbn in *.
      rewrite Htotal, Hresume. cbn [length] in Hlen. lia. }
    apply IH in Hrest as [Htrace Hend].
    + split; [|exact Hend].
      constructor; [exact Hst|].
      constructor; [now rewrite Hresume|].
      constructor; [apply Hkeep; now rewrite Hresume|].
      constructor; [exact Hpub | exact Htrace].
    + exact Hnone'.
    + now apply Hcount.
    + unfold published, publish. cbn in *. rewrite Htotal, Hresume.
      cbn [length] in Hlen. lia.
    + exact Hpub.
Qed.

(** The invariant of the statistics, [processed = successful + errors]
    and [processed <= total], holds in every state of a run during which
    [processImages] is not called again. *)
Lemma stats_invariant_of_a_single_run (st : HookState) :
  (forall i, restart_requested (schedule i) = false) ->
  Forall (fun s => stats_consistent (stats s))
         (processImages organizeOptions schedule st).
Proof.
  intros Hquiet.
  unfold processImages. destruct (images st) as [|i0 imgs] eqn:Himgs.
  { constructor. }
  destruct (isProcessing st). { constructor. }
  set (queue := List.filter _ _).
  destruct (process_queue _ _ queue _ _) as [[trace l_end] rt_end] eqn:Hq.
  assert (H0 : stats_consistent (stats (start st))).
  { unfold stats_consistent, start. simpl. lia. }
  apply (process_queue_stats Hquiet) in Hq as [Htrace Hend].
  - constructor; [exact H0|].
    apply Forall_app. split; [exact Htrace|].
    constructor; [exact Hend | constructor].
  - reflexivity.
  - reflexivity.
  - unfold start, alone. simpl. rewrite Himgs. fold queue. lia.
  - exact H0.
Qed.

(** Once the signal is aborted the loop starts no image. *)
Lemma process_queue_aborted queue l rt :
  aborted (hook rt) = true ->
  process_queue organizeOptions schedule queue l rt = ([], l, rt).
Proof. intros H. destruct queue; simpl; [reflexivity | now rewrite H]. Qed.

Lemma advance_abort id snapshot queued queue l st :
  abortControllerRef (advance organizeOptions id snapshot queued queue l st).1
  = abortControllerRef st.
Proof.
  unfold advance. destruct queue; [reflexivity|]. now destruct (aborted st).
Qed.

Lemma resume_abort c tick rt :
  abortControllerRef (hook (resume organizeOptions c tick rt))
  = abortControllerRef (hook rt).
Proof.
  unfold resume.
  pose proof (settle_abort (awaited c) tick (call_locals c)
                (owns (call_id c) rt) (hook rt)) as Hs.
  destruct (settle _ _ _ _ _ _) as [l1 st_stored]. cbn [snd] in Hs.
  pose proof (advance_abort (call_id c) (call_images c) (call_queued c)
                (remaining c) (count l1) (publish (count l1) st_stored)) as Ha.
  destruct (advance _ _ _ _ _ _ _) as [st_next again]. cbn [fst] in Ha.
  cbn [hook]. now rewrite Ha.
Qed.

(** A controller, once created, is never taken away. *)
Lemma happen_keeps_controller e rt :
  abortControllerRef (hook rt) <> None ->
  abortControllerRef (hook (happen organizeOptions rt e)) <> None.
Proof.
  intros Href. destruct e as [| |id result name ms]; cbn [happen].
  - cbn. now destruct (abortControllerRef (hook rt)).
  - unfold call_again. cbv zeta. destruct (images (hook rt)); [exact Href|].
    destruct (isProcessing (hook rt)); [exact Href|].
    match goal with
    | |- context [advance ?o ?id ?snap ?n ?q ?l ?st] =>
        pose proof (advance_abort id snap n q l st) as Ha;
        destruct (advance o id snap n q l st) as [st_next again]
    end.
    cbn [fst hook] in *. rewrite Ha. discriminate.
  - destruct (List.find _ _) as [c|]; [|exact Href].
    now rewrite resume_abort.
Qed.

Lemma meantime_keeps_controller events : forall rt,
  abortControllerRef (hook rt) <> None ->
  abortControllerRef (hook (fold_left (happen organizeOptions) events rt))
  <> None.
Proof.
  induction events as [|e events IH]; intros rt Href; [exact Href|].
  cbn [fold_left]. apply IH. now apply happen_keeps_controller.
Qed.

(** After [stopProcessing], and until [processImages] is called again, the
    signal stays aborted, whatever the other calls do. *)
Lemma meantime_aborted tick rt :
  abortControllerRef (hook rt) <> None ->
  stop_requested tick = true -> restart_requested tick = false ->
  aborted (hook (fold_left (happen organizeOptions) (meanwhile tick) rt))
  = true.
Proof.
  unfold stop_requested, restart_requested, aborted.
  generalize (meanwhile tick). intros events.
  assert (Hstays : forall events rt,
            existsb (fun e => match e with process_images => true
                                         | _ => false end) events = false ->
            abortControllerRef (hook rt) = Some true ->
            abortControllerRef
              (hook (fold_left (happen organizeOptions) events rt))
            = Some true).
  { clear. induction events as [|e events IH]; intros rt Hquiet Hab;
      [exact Hab|].
    destruct e as [| |id result name ms]; cbn [fold_left existsb orb] in *.
    - apply IH; [exact Hquiet|]. cbn. now rewrite Hab.
    - discriminate.
    - apply IH; [exact Hquiet|]. cbn [happen].
      destruct (List.find _ _) as [c|]; [|exact Hab].
      now rewrite resume_abort. }
  revert rt. induction events as [|e events IH]; intros rt Href Hstop Hquiet.
  { discriminate. }
  destruct e as [| |id result name ms]; cbn [fold_left existsb orb] in *.
  - rewrite Hstays; [reflexivity | exact Hquiet |].
    cbn. now destruct (abortControllerRef (hook rt)).
  - discriminate.
  - apply IH; [|exact Hstop | exact Hquiet].
    now apply (happen_keeps_controller (analysis_returns id result name ms)).
Qed.

(** Cancellation, the part that holds: when [stopProcessing] is called
    while the image at position [length before] of the queue is in flight,
    and [processImages] is not called again before that analysis returns,
    the loop ends with that image; the images [after] it are never looked
    at, so the run is the same whatever they are. *)
Lemma cancellation_skips_rest before : forall image after l rt,
  abortControllerRef (hook rt) <> None ->
  0 <= l_processed l ->
  stop_requested
    (schedule (Z.to_nat (l_processed l) + length before)%nat) = true ->
  restart_requested
    (schedule (Z.to_nat (l_processed l) + length before)%nat) = false ->
  process_queue organizeOptions schedule (before ++ image :: after) l rt
  = process_queue organizeOptions schedule (before ++ [image]) l rt.
Proof.
  induction before as [|b before IH];
    intros image after l rt Href Hl Hstop Hquiet.
  - rewrite Nat.add_0_r in Hstop, Hquiet. simpl.
    destruct (aborted (hook rt)); [reflexivity|].
    set (tick := schedule (Z.to_nat (l_processed l))) in *.
    set (rt_resume := fold_left _ _ _).
    assert (Hab : aborted (hook rt_resume) = true).
    { subst rt_resume. now apply meantime_aborted. }
    pose proof (settle_abort image tick l (owns 0 rt_resume) (hook rt_resume))
      as Hs.
    destruct (settle _ _ _ _ _ _) as [l1 st_stored]. cbn [snd] in Hs.
    rewrite (process_queue_aborted after); [reflexivity|].
    unfold aborted in *. cbn. now rewrite Hs.
  - simpl. destruct (aborted (hook rt)); [reflexivity|].
    set (tick := schedule (Z.to_nat (l_processed l))).
    set (rt_resume := fold_left _ _ _).
    assert (Href' : abortControllerRef (hook rt_resume) <> None).
    { subst rt_resume. now apply meantime_keeps_controller. }
    pose proof (settle_abort b tick l (owns 0 rt_resume) (hook rt_resume))
      as Hs.
    pose proof (settle_processed b tick l (owns 0 rt_resume) (hook rt_resume))
      as Hproc.
    destruct (settle _ _ _ _ _ _) as [l1 st_stored]. cbn [fst snd] in *.
    assert (Hnext : (Z.to_nat (l_processed (count l1)) + length before
                     = Z.to_nat (l_processed l) + S (length before))%nat).
    { rewrite Hproc. lia. }
    rewrite (IH image after (count l1) (published 0 (count l1) st_stored
                                          rt_resume)).
    + reflexivity.
    + cbn. now rewrite Hs.
    + lia.
    + now rewrite Hnext.
    + now rewrite Hnext.
Qed.

(** Whether or not it was cancelled, a run that starts leaves the status
    [complete] behind. *)
Lemma run_ends_complete (st final : HookState) :
  last (processImages organizeOptions schedule st) = Some final ->
  Progress.status (progress final) = Progress.complete.
Proof.
  unfold processImages. destruct (images st); [discriminate|].
  destruct (isProcessing st); [discriminate|].
  destruct (process_queue _ _ _ _ _) as [[trace l_end] rt_end].
  rewrite app_comm_cons, last_snoc. now intros [= <-].
Qed.

End BatchRun.

(** C1 on the code: five images are queued and [stopProcessing] is called
    while the second is being analyzed.  The status is [idle] from that
    call until the analysis in flight returns, and the loop stops after the
    second image (two processed, the last three untouched); but the run
    does not end [idle]: the code after the loop runs as for a finished
    batch and leaves the status [complete]. *)
Theorem cancelled_run_reports_complete :
  map (fun s => Progress.status (progress s))
      (processImages default_options stop_during_second five_queued)
  = [ Progress.processing; Progress.processing; Progress.processing;
      Progress.processing; Progress.processing; Progress.processing;
      Progress.idle; Progress.idle; Progress.idle; Progress.complete ] /\
  match last (processImages default_options stop_during_second five_queued) with
  | Some final =>
      Stats.processed (stats final) = 2 /\
      map ImageFile.processed (images final)
      = [true; true; false; false; false] /\
      Progress.status (progress final) = Progress.complete /\
      Progress.message (progress final) = "Successfully processed 2 images"
  | None => False
  end.
Proof. split; vm_compute; repeat split. Qed.

(** C2 on the code: five images are queued; while the second is being
    analyzed the user calls [stopProcessing] and then [processImages]
    again.  [stopProcessing] has reset [isProcessing], so the second call
    passes the guard, replaces the controller and sets [total] to 4 (the
    images still unprocessed).  The first call never sees its abort: it
    goes on through all its five images and publishes its own count into
    the statistics of the second call, in the end [processed = 5] with
    [total = 4].  The pairs are [(processed, total)] in the states of the
    first call. *)
Theorem restarted_run_overcounts :
  map (fun s => (Stats.processed (stats s), Stats.total (stats s)))
      (processImages default_options restart_during_second five_queued)
  = [ (0, 5); (0, 5); (0, 5); (0, 5); (1, 5);
      (1, 5); (0, 4); (0, 4); (2, 4);
      (2, 4); (1, 4); (1, 4); (3, 4);
      (3, 4); (2, 4); (2, 4); (4, 4);
      (4, 4); (3, 4); (3, 4); (5, 4);
      (5, 4) ] /\
  match last (processImages default_options restart_during_second
                five_queued) with
  | Some final =>
      Stats.processed (stats final) = 5 /\ Stats.total (stats final) = 4 /\
      Stats.successful (stats final) = 5 /\ Stats.errors (stats final) = 0 /\
      ~ stats_consistent (stats final)
  | None => False
  end.
Proof.
  split; [vm_compute; reflexivity|]. vm_compute.
  repeat split. intros [_ H]. apply H. reflexivity.
Qed.

(** ** Scenarios of the specification *)

(** No faces, 120 characters of text, no NSFW flag: [documents]. *)
Example scenario_documents :
  categorizeImage
    (set_faces []
       (set_ocrText (string_of_list_ascii (repeat "x"%char 120))
          (set_nsfw [ {| className := "Neutral"; probability := 99 # 100 |} ]
             blank_analysis)))
  = Category.documents.
Proof. reflexivity. Qed.

(** Two 1024-bit hashes that differ in 153 bits are grouped, with
    similarity 0.9; with 154 differing bits they are not. *)
Example scenario_near_duplicates :
  findSimilarImages [ hashed "a" (bits 0 1024); hashed "b" (bits 153 871) ]
  = [ {| group := ["a"; "b"]; similarity := 9 # 10 |} ] /\
  findSimilarImages [ hashed "a" (bits 0 1024); hashed "b" (bits 154 870) ]
  = [].
Proof. split; vm_compute; reflexivity. Qed.

(** The hash of a half dark, half light 32x32 buffer. *)
Example hash_of_half_dark : generatePHash half_dark = bits 0 512 ++ bits 512 0.
Proof. vm_compute. reflexivity. Qed.

(** ** Failure isolation in the orchestrator *)

(** The six provider-backed stages catch their own failures: whatever the
    providers do, when the three canvas stages do not throw the block ends
    without an error and every enabled stage has assigned its field. *)
Lemma provider_failures_stay_local (eng : Engine) (w : World) (f : File)
  (settings : AiSettings) (a : ImageAnalysis) (h : string) (q : Quality)
  (p : list string) :
  analyze eng w f settings = JS.Ok a ->
  hash_stage w = JS.Ok h -> quality_stage w = JS.Ok q ->
  palette_stage w = JS.Ok p ->
  error a = None /\
  (runClassifier settings = true ->
   classification a = Some (classifyImage eng w f)) /\
  (runCaptioner settings = true -> description a = generateCaption eng w) /\
  (runObjectDetection settings && objectDetector (models eng) = true ->
   objects a = Some (detectObjects w)) /\
  (runNsfw settings = true -> nsfw a = Some (detectNSFW eng w)) /\
  (runFaceDetection settings = true -> faces a = Some (detectFaces eng w f)) /\
  (runOcr settings = true -> ocrText a = Some (extractText eng w)) /\
  (runDuplicateDetection settings = true -> pHash a = Some h) /\
  (runQualityAnalysis settings = true -> quality a = Some q) /\
  (runColorPalette settings = true -> palette a = Some p).
Proof.
  intros (dims & _ & _ & ->)%analyze_ok Hh Hq Hp. unfold stages.
  rewrite Hh, Hq, Hp, !run_stages_ok. cbn [run_stages].
  destruct (runClassifier settings), (runCaptioner settings),
    (runObjectDetection settings && objectDetector (models eng)),
    (runNsfw settings), (runFaceDetection settings), (runOcr settings),
    (runDuplicateDetection settings), (runQualityAnalysis settings),
    (runColorPalette settings);
    repeat split; (reflexivity || discriminate).
Qed.

(** C8 on the code: with the default settings, when drawing on the hash
    canvas throws, the error is caught by the handler of the whole block:
    quality analysis and palette extraction, which would both succeed, are
    not run, and their fields stay unset. *)
Theorem hash_failure_skips_quality_and_palette :
  match analyze loaded_engine hash_fails_world sample_file defaultAiSettings with
  | JS.Ok a =>
      error a = Some ("Analysis error: " ++ null_context) /\
      ocrText a = Some "" /\
      pHash a = None /\ quality a = None /\ palette a = None
  | JS.Throw _ => False
  end /\
  quality_stage hash_fails_world = JS.Ok (analyzeQuality one_pixel) /\
  palette_stage hash_fails_world
  = JS.Ok ["#ffffff"; "#000000"; "#000000"; "#000000"; "#000000"].
Proof.
  split; [|split].
  - lazy. repeat split.
  - reflexivity.
  - vm_compute. reflexivity.
Qed.

(** ** Pixel buffers *)

Lemma byte_val_range (b : byte) : 0 <= byte_val b <= 255.
Proof. unfold byte_val. pose proof (Byte.to_N_bounded b). lia. Qed.


Lemma pixels_of_cons4 r g b a rest :
  pixels_of (r :: g :: b :: a :: rest)
  = (byte_val r, byte_val g, byte_val b, byte_val a) :: pixels_of rest.
Proof. reflexivity. Qed.

(** An induction principle that follows the four-byte steps of the loops. *)
Lemma by_fours (P : list byte -> Prop) :
  P [] -> (forall a, P [a]) -> (forall a b, P [a; b]) ->
  (forall a b c, P [a; b; c]) ->
  (forall r g b a rest, P rest -> P (r :: g :: b :: a :: rest)) ->
  forall d, P d.
Proof.
  intros H0 H1 H2 H3 H4.
  fix IH 1. intros [|r [|g [|b [|a rest]]]].
  - exact H0.
  - apply H1.
  - apply H2.
  - apply H3.
  - apply H4, IH.
Qed.

Lemma pixels_of_range (d : list byte) : Forall rgba_ok (pixels_of d).
Proof.
  induction d using by_fours; try constructor; [|assumption].
  unfold rgba_ok, channel_ok. auto using byte_val_range.
Qed.

Lemma pixels_of_length (d : list byte) (k : Z) :
  Z.of_nat (length d) = 4 * k -> Z.of_nat (length (pixels_of d)) = k.
Proof.
  revert k. induction d using by_fours; intros k Hk;
    try (simpl in *; lia).
  rewrite pixels_of_cons4. cbn [length] in *.
  rewrite Nat2Z.inj_succ, (IHd (k - 1)); lia.
Qed.

(** ** The palette extractor *)



(** ** The palette extractor: well-formed output *)

Lemma channel_hex (z : Z) :
  channel_ok z -> two_hex_digits (padStart2 (toString16 z)) = true.
Proof.
  intros Hz.
  assert (Hall : forallb (fun z => two_hex_digits (padStart2 (toString16 z)))
                         (seqZ 0 256) = true) by (vm_compute; reflexivity).
  rewrite forallb_forall in Hall. apply Hall.
  apply list_elem_of_In, elem_of_seqZ. unfold channel_ok in Hz. lia.
Qed.

Lemma round_range (q : Q) : mean_ok q -> channel_ok (round q).
Proof.
  intros [H0 H1]. unfold round, channel_ok. split.
  - rewrite <- (Qfloor_Z 0). apply Qfloor_resp_le.
    change (inject_Z 0) with 0%Q. Lqa.lra.
  - apply Z.lt_succ_r. rewrite Zlt_Qlt.
    apply Qle_lt_trans with (q + (1 # 2))%Q; [apply Qfloor_le|].
    change (inject_Z (Z.succ 255)) with 256%Q. Lqa.lra.
Qed.

Lemma hex_color_ok (c : Centroid) :
  centroid_ok c -> is_hex_color (hex_color c) = true.
Proof.
  destruct c as [[r g] b]. intros (Hr & Hg & Hb). simpl in Hr, Hg, Hb.
  unfold hex_color.
  pose proof (channel_hex _ (round_range r Hr)) as Hr'.
  pose proof (channel_hex _ (round_range g Hg)) as Hg'.
  pose proof (channel_hex _ (round_range b Hb)) as Hb'.
  destruct (padStart2 (toString16 (round r))) as [|r1 [|r2 [|]]];
    try discriminate.
  destruct (padStart2 (toString16 (round g))) as [|g1 [|g2 [|]]];
    try discriminate.
  destruct (padStart2 (toString16 (round b))) as [|b1 [|b2 [|]]];
    try discriminate.
  simpl in *. apply andb_prop in Hr' as [-> ->], Hg' as [-> ->],
    Hb' as [-> ->]. reflexivity.
Qed.

Lemma retained_pixels_ok (d : list byte) : Forall pixel_ok (retained_pixels d).
Proof.
  unfold retained_pixels. generalize (pixels_of_range d).
  induction 1 as [|[[[r g] b] a] l (Hr & Hg & Hb & _) _ IH]; [constructor|].
  cbn [omap list_omap]. destruct (128 <? a); [|exact IH].
  constructor; [|exact IH]. unfold pixel_ok. simpl. auto.
Qed.

Lemma random_pixel_some (pixels : list Pixel) (r : Q) :
  pixels <> [] -> (0 <= r < 1)%Q ->
  exists p, random_pixel pixels r = Some p /\ In p pixels.
Proof.
  intros Hne [H0 H1]. unfold random_pixel.
  set (len := Z.of_nat (length pixels)).
  assert (Hlen : 0 < len).
  { subst len. destruct pixels; [contradiction | cbn [length]; lia]. }
  assert (HlenQ : (0 < inject_Z len)%Q) by now rewrite <- (Zlt_Qlt 0).
  set (i := Qfloor (r * inject_Z len)).
  assert (Hi0 : 0 <= i).
  { subst i. rewrite <- (Qfloor_Z 0). apply Qfloor_resp_le.
    change (inject_Z 0) with 0%Q.
    apply Qmult_le_0_compat; [exact H0 | now apply Qlt_le_weak]. }
  assert (Hi1 : i < len).
  { rewrite Zlt_Qlt. apply Qle_lt_trans with (r * inject_Z len)%Q.
    - apply Qfloor_le.
    - rewrite <- (Qmult_1_l (inject_Z len)) at 2.
      now apply Qmult_lt_compat_r. }
  destruct (i <? 0) eqn:Hneg; [lia|].
  destruct (lookup_lt_is_Some_2 pixels (Z.to_nat i)) as [p Hp]; [lia|].
  exists p. split; [exact Hp|].
  apply list_elem_of_In. eapply list_elem_of_lookup_2, Hp.
Qed.

Lemma init_centroids_ok (pixels : list Pixel) (random : nat -> Q) (n : nat) :
  pixels <> [] -> Forall pixel_ok pixels ->
  (forall j, (0 <= random j < 1)%Q) ->
  forall i, exists cs,
    init_centroids pixels random i n = JS.Ok cs
    /\ length cs = n /\ Forall centroid_ok cs.
Proof.
  intros Hne Hok Hrandom. induction n as [|n IH]; intros i.
  - exists []. repeat split. constructor.
  - cbn [init_centroids].
    destruct (random_pixel_some pixels (random i) Hne (Hrandom i))
      as ([[r g] b] & -> & Hin).
    destruct (IH (S i)) as (cs & -> & Hlen & Hcs).
    eexists. split; [reflexivity|]. split; [simpl; now rewrite Hlen|].
    constructor; [|exact Hcs].
    rewrite Forall_forall in Hok.
    destruct (Hok (r, g, b)) as (Hr & Hg & Hb); [now apply list_elem_of_In|].
    unfold centroid_ok, mean_ok, channel_ok in *. simpl in *.
    rewrite !(Zle_Qle 0), !(Zle_Qle _ 255) in *. auto.
Qed.

(** The index the search returns is the initial one or one it visited. *)
Lemma closest_from_bound (pixel : Pixel) (cs : list Centroid) :
  forall j d c0,
  closest_from pixel cs j d c0 = c0
  \/ (j <= closest_from pixel cs j d c0 < j + length cs)%nat.
Proof.
  induction cs as [|c cs IH]; intros j d c0; cbn [closest_from length].
  - now left.
  - destruct (dist_lt (distance pixel c) d).
    + right. destruct (IH (S j) (distance pixel c) j) as [->|H]; lia.
    + destruct (IH (S j) d c0) as [->|H]; [now left | right; lia].
Qed.

Lemma closest_bound (pixel : Pixel) (cs : list Centroid) :
  cs <> [] -> (closest pixel cs < length cs)%nat.
Proof.
  intros Hne. unfold closest.
  destruct (closest_from_bound pixel cs 0 Infinity 0) as [->|H]; [|lia].
  destruct cs; [contradiction | simpl; lia].
Qed.

Lemma assign_pixels_ok (centroids : list Centroid) (pixels : list Pixel) :
  centroids <> [] -> Forall pixel_ok pixels ->
  forall clusters,
    length clusters = length centroids ->
    Forall (Forall pixel_ok) clusters ->
    exists clusters',
      assign_pixels pixels centroids clusters = JS.Ok clusters'
      /\ length clusters' = length centroids
      /\ Forall (Forall pixel_ok) clusters'.
Proof.
  intros Hne. induction 1 as [|pixel pixels Hp _ IH]; intros clusters Hlen Hcl.
  - exists clusters. auto.
  - cbn [assign_pixels].
    pose proof (closest_bound pixel centroids Hne) as Hj.
    destruct (lookup_lt_is_Some_2 clusters (closest pixel centroids))
      as [cluster Hcluster]; [lia|].
    rewrite Hcluster. apply IH.
    + now rewrite length_insert.
    + apply Forall_insert; [exact Hcl|].
      apply Forall_app. split; [|now constructor].
      rewrite Forall_forall in Hcl. apply Hcl.
      eapply list_elem_of_lookup_2, Hcluster.
Qed.

Lemma channel_sum_bounds (f : Pixel -> Z) (cluster : list Pixel) :
  Forall (fun p => channel_ok (f p)) cluster ->
  forall acc,
    acc <= fold_left (fun sum p => sum + f p) cluster acc
        <= acc + 255 * Z.of_nat (length cluster).
Proof.
  induction 1 as [|p cluster [H0 H1] _ IH]; intros acc; cbn [fold_left length].
  - lia.
  - specialize (IH (acc + f p)). lia.
Qed.

Lemma channel_mean_ok (f : Pixel -> Z) (cluster : list Pixel) :
  cluster <> [] -> Forall (fun p => channel_ok (f p)) cluster ->
  mean_ok (channel_mean f cluster).
Proof.
  intros Hne Hok. unfold channel_mean, mean_ok.
  pose proof (channel_sum_bounds f cluster Hok 0) as [Hlo Hhi].
  set (sum := fold_left _ cluster 0) in *.
  set (len := Z.of_nat (length cluster)) in *.
  assert (Hlen : 0 < len).
  { subst len. destruct cluster; [contradiction | cbn [length]; lia]. }
  assert (HlenQ : (0 < inject_Z len)%Q) by now rewrite <- (Zlt_Qlt 0).
  split.
  - apply Qle_shift_div_l; [exact HlenQ|]. rewrite Qmult_0_l.
    now rewrite <- (Zle_Qle 0).
  - apply Qle_shift_div_r; [exact HlenQ|].
    rewrite <- (inject_Z_mult 255), <- Zle_Qle. lia.
Qed.

Lemma cluster_mean_ok (cluster : list Pixel) :
  cluster <> [] -> Forall pixel_ok cluster -> centroid_ok (cluster_mean cluster).
Proof.
  intros Hne Hok. unfold cluster_mean, centroid_ok. cbn [fst snd].
  repeat split; apply channel_mean_ok; try exact Hne;
    (eapply Forall_impl; [exact Hok|]); intros p (H1 & H2 & H3); assumption.
Qed.

Lemma update_centroids_ok (centroids : list Centroid) :
  Forall centroid_ok centroids ->
  forall clusters, Forall (Forall pixel_ok) clusters ->
    length (update_centroids centroids clusters) = length centroids
    /\ Forall centroid_ok (update_centroids centroids clusters).
Proof.
  induction 1 as [|c cs Hc Hcs IH]; intros clusters Hcl.
  - split; [reflexivity | constructor].
  - destruct Hcl as [|cluster rest Hcluster Hrest]; cbn [update_centroids].
    + split; [reflexivity | now constructor].
    + destruct (IH rest Hrest) as [Hlen Hok].
      split; [simpl; now rewrite Hlen|].
      constructor; [|exact Hok].
      destruct cluster; [exact Hc|]. now apply cluster_mean_ok.
Qed.

Lemma kmeans_iterate_ok (pixels : list Pixel) (k : nat) (n : nat) :
  Forall pixel_ok pixels -> (0 < k)%nat ->
  forall centroids,
    length centroids = k -> Forall centroid_ok centroids ->
    exists centroids',
      kmeans_iterate n pixels k centroids = JS.Ok centroids'
      /\ length centroids' = k /\ Forall centroid_ok centroids'.
Proof.
  intros Hpixels Hk. induction n as [|n IH]; intros centroids Hlen Hok.
  - exists centroids. auto.
  - cbn [kmeans_iterate]. unfold kmeans_iteration.
    destruct (assign_pixels_ok centroids pixels) with (clusters := replicate k ([] : list Pixel))
      as (clusters & -> & _ & Hclusters).
    + destruct centroids; [simpl in Hlen; lia | discriminate].
    + exact Hpixels.
    + now rewrite length_replicate.
    + apply Forall_replicate. constructor.
    + cbn [mbind result_bind JS.bind].
      destruct (update_centroids_ok centroids Hok clusters Hclusters)
        as [Hlen' Hok'].
      apply IH; [congruence | exact Hok'].
Qed.

(** When some pixel is retained, the palette has exactly five entries,
    each ['#'] and six hexadecimal digits. *)
Lemma palette_of_visible_image (imageData : ImageData) (random : nat -> Q) :
  retained_pixels (data imageData) <> [] ->
  (forall j, (0 <= random j < 1)%Q) ->
  exists palette,
    extractColorPalette imageData random = JS.Ok palette
    /\ length palette = 5%nat
    /\ Forall (fun color => is_hex_color color = true) palette.
Proof.
  intros Hne Hrandom. unfold extractColorPalette, kMeansClustering.
  pose proof (retained_pixels_ok (data imageData)) as Hpixels.
  destruct (init_centroids_ok _ random 5 Hne Hpixels Hrandom 0%nat)
    as (cs & -> & Hlen & Hcs).
  cbn [mbind result_bind JS.bind].
  destruct (kmeans_iterate_ok _ 5 20 Hpixels (Nat.lt_0_succ 4) cs Hlen Hcs)
    as (cs' & -> & Hlen' & Hcs').
  eexists. split; [reflexivity|]. split; [now rewrite length_map|].
  apply Forall_map. eapply Forall_impl; [exact Hcs'|].
  intros c. apply hex_color_ok.
Qed.

(** C9 on the code: when no pixel is retained (every alpha is at most 128)
    the first random pick is [undefined] and spreading it throws; no
    palette is returned. *)
Theorem palette_of_transparent_image_throws (imageData : ImageData)
  (random : nat -> Q) :
  retained_pixels (data imageData) = [] ->
  extractColorPalette imageData random
  = JS.Throw "TypeError: randomPixel is not iterable".
Proof.
  intros H. unfold extractColorPalette, kMeansClustering. rewrite H.
  cbn [init_centroids]. unfold random_pixel.
  now destruct (_ <? 0).
Qed.

Lemma palette_of_transparent_image_throws_witness :
  extractColorPalette transparent (fun _ => 1 # 3)
  = JS.Throw "TypeError: randomPixel is not iterable".
Proof.
  apply (palette_of_transparent_image_throws transparent (fun _ => 1 # 3)).
  vm_compute. reflexivity.
Defined.

(** C4, as stated, fails for the palette: on one and the same buffer two
    runs whose random picks differ return different palettes. *)
Lemma palette_depends_on_random_picks :
  extractColorPalette two_tone (fun _ => 0%Q)
  = JS.Ok ["#ffffff"; "#000000"; "#000000"; "#000000"; "#000000"] /\
  extractColorPalette two_tone (fun _ => 1 # 2)
  = JS.Ok ["#000000"; "#ffffff"; "#ffffff"; "#ffffff"; "#ffffff"].
Proof. split; vm_compute; reflexivity. Qed.

Lemma init_centroids_ext (pixels : list Pixel) (r1 r2 : nat -> Q) (n : nat) :
  forall i,
  (forall j, (i <= j < i + n)%nat ->
             random_pixel pixels (r1 j) = random_pixel pixels (r2 j)) ->
  init_centroids pixels r1 i n = init_centroids pixels r2 i n.
Proof.
  induction n as [|n IH]; intros i H; simpl; [reflexivity|].
  rewrite (H i) by lia. rewrite (IH (S i)); [reflexivity|].
  intros j Hj. apply H. lia.
Qed.

(** C4, as the code has it.  The hash and the quality record depend on the
    pixel buffer alone; the palette depends on the buffer and on the five
    pixels picked with [Math.random()] as first centroids: two runs on the
    same buffers return the same hash and the same quality record, and the
    same palette when their five picks agree. *)
Theorem determinism_up_to_random_picks (w1 w2 : World) :
  canvas_hash w1 = canvas_hash w2 ->
  canvas_quality w1 = canvas_quality w2 ->
  canvas_palette w1 = canvas_palette w2 ->
  hash_stage w1 = hash_stage w2 /\
  quality_stage w1 = quality_stage w2 /\
  ((forall imageData i,
      canvas_palette w1 = JS.Ok imageData -> (i < 5)%nat ->
      random_pixel (retained_pixels (data imageData)) (random_palette w1 i)
      = random_pixel (retained_pixels (data imageData)) (random_palette w2 i)) ->
   palette_stage w1 = palette_stage w2).
Proof.
  intros Hh Hq Hp. unfold hash_stage, quality_stage, palette_stage.
  rewrite Hh, Hq, <- Hp. repeat split.
  intros Hpick. destruct (canvas_palette w1) as [imageData|m]; [|reflexivity].
  unfold mbind, result_bind, JS.bind, extractColorPalette, kMeansClustering.
  rewrite (init_centroids_ext _ (random_palette w1) (random_palette w2) 5 0).
  - reflexivity.
  - intros j Hj. apply Hpick; [reflexivity | lia].
Qed.

Lemma determinism_up_to_random_picks_witness :
  hash_stage first_run = hash_stage second_run /\
  quality_stage first_run = quality_stage second_run /\
  palette_stage first_run = palette_stage second_run.
Proof.
  destruct (determinism_up_to_random_picks first_run second_run
              eq_refl eq_refl eq_refl) as (Hh & Hq & Hp).
  split; [exact Hh|]. split; [exact Hq|].
  apply Hp. intros imageData i [= <-] Hi.
  do 5 (destruct i as [|i]; [vm_compute; reflexivity|]). lia.
Defined.

(** ** The duplicate grouper *)

Lemma joins_fresh hash1 processed id (rest : list (string * ImageAnalysis)) :
  id ∉ map fst rest ->
  List.filter (joins hash1 ({[id]} ∪ processed)) rest
  = List.filter (joins hash1 processed) rest.
Proof.
  intros Hfresh. apply filter_ext_in. intros [id_j a_j] Hin.
  unfold joins. simpl. f_equal. f_equal. f_equal.
  apply bool_decide_ext.
  assert (Hne : id_j <> id).
  { intros ->. apply Hfresh, list_elem_of_In, in_map_iff. now exists (id, a_j). }
  rewrite elem_of_union, elem_of_singleton. tauto.
Qed.

Lemma scan_similar_cons hash1 id_j a_j rest group processed :
  scan_similar hash1 ((id_j, a_j) :: rest) group processed
  = if joins hash1 processed (id_j, a_j)
    then scan_similar hash1 rest (group ++ [id_j])%list ({[id_j]} ∪ processed)
    else scan_similar hash1 rest group processed.
Proof.
  unfold joins. cbn [scan_similar fst snd].
  destruct (bool_decide (id_j ∈ processed)); [reflexivity|].
  destruct (JS.truthy_string (pHash a_j)); [|reflexivity].
  now destruct (similar _).
Qed.

(** With distinct ids, the inner loop adds exactly the images after [i]
    that are not processed yet, have a hash and are similar to [hash1]. *)
Lemma scan_similar_spec hash1 rest : forall group processed,
  NoDup (map fst rest) ->
  scan_similar hash1 rest group processed
  = ((group ++ map fst (List.filter (joins hash1 processed) rest))%list,
     list_to_set (map fst (List.filter (joins hash1 processed) rest))
     ∪ processed).
Proof.
  induction rest as [|[id_j a_j] rest IH]; intros group processed Hnd.
  - simpl. rewrite app_nil_r. f_equal. now rewrite union_empty_l_L.
  - change (map fst ((id_j, a_j) :: rest)) with (id_j :: map fst rest) in Hnd.
    apply NoDup_cons in Hnd as [Hfresh Hnd].
    rewrite scan_similar_cons. cbn [List.filter].
    destruct (joins hash1 processed (id_j, a_j)); [|now apply IH].
    rewrite IH by exact Hnd. rewrite joins_fresh by exact Hfresh.
    cbn [map fst]. rewrite <- app_assoc. f_equal.
    rewrite list_to_set_cons. apply set_eq. intros x.
    rewrite !elem_of_union. tauto.
Qed.

Lemma find_similar_cons id_i a_i rest processed :
  NoDup (map fst rest) ->
  find_similar_from ((id_i, a_i) :: rest) processed
  = if bool_decide (id_i ∈ processed) || negb (JS.truthy_string (pHash a_i))
    then find_similar_from rest processed
    else
      match map fst (List.filter (joins (default "" (pHash a_i)) processed)
                                 rest) with
      | [] => find_similar_from rest processed
      | (_ :: _) as joined =>
          {| group := id_i :: joined; similarity := 9 # 10 |}
          :: find_similar_from rest
               ({[id_i]} ∪ list_to_set joined ∪ processed)
      end.
Proof.
  intros Hnd. cbn [find_similar_from].
  destruct (bool_decide (id_i ∈ processed)); [reflexivity|].
  destruct (JS.truthy_string (pHash a_i)); [|reflexivity].
  cbn [negb orb]. rewrite scan_similar_spec by exact Hnd.
  generalize (map fst (List.filter (joins (default "" (pHash a_i)) processed)
                                   rest)).
  intros [|id_j joined]; cbn [app length Nat.ltb Nat.leb].
  - now rewrite list_to_set_nil, union_empty_l_L.
  - do 2 f_equal. rewrite list_to_set_cons. apply set_eq. intros x.
    rewrite !elem_of_union. tauto.
Qed.

(** Every emitted group has at least two members and similarity 0.9. *)
Lemma groups_have_two images : forall processed g,
  In g (find_similar_from images processed) ->
  (2 <= length (group g))%nat /\ similarity g = 9 # 10.
Proof.
  induction images as [|[id_i a_i] rest IH]; intros processed g; simpl.
  { intros []. }
  destruct (bool_decide (id_i ∈ processed)); [apply IH|].
  destruct (negb _); [apply IH|].
  destruct (scan_similar _ _ _ _) as [members processed'].
  destruct (1 <? length members)%nat eqn:Hlen; [|apply IH].
  intros [<-|Hin]; [|now apply IH in Hin].
  apply Nat.ltb_lt in Hlen. simpl. split; [lia | reflexivity].
Qed.

Lemma count_matches_refl (h : string) : count_matches h h = String.length h.
Proof.
  induction h as [|c h IH]; simpl; [reflexivity|].
  now rewrite Ascii.eqb_refl, IH.
Qed.

(** A non-empty hash is similar to itself. *)
Lemma similar_refl (h : string) :
  h <> "" -> similar (calculateHashSimilarity h h) = true.
Proof.
  intros Hne. unfold calculateHashSimilarity.
  rewrite Nat.eqb_refl. cbn [negb].
  destruct (String.length h) as [|n] eqn:Hlen.
  { destruct h; [contradiction | discriminate]. }
  cbn [Nat.eqb]. rewrite count_matches_refl, Hlen.
  unfold similar. rewrite Qgtb_true. unfold Qlt. cbn [Qnum Qden].
  rewrite <- Pos.of_nat_succ, Zpos_P_of_succ_nat. lia.
Qed.

Lemma truthy_hash (h : string) : h <> "" -> JS.truthy_string (Some h) = true.
Proof. destruct h; [contradiction | reflexivity]. Qed.

(** With distinct ids an id names one image. *)
Lemma fst_inj_NoDup (l : list (string * ImageAnalysis)) x y :
  NoDup (map fst l) -> In x l -> In y l -> x.1 = y.1 -> x = y.
Proof.
  induction l as [|z l IH]; intros Hnd Hx Hy Heq; [destruct Hx|].
  change (map fst (z :: l)) with (z.1 :: map fst l) in Hnd.
  apply NoDup_cons in Hnd as [Hfresh Hnd].
  destruct Hx as [<-|Hx], Hy as [<-|Hy].
  - reflexivity.
  - exfalso. apply Hfresh, list_elem_of_In, in_map_iff. exists y. auto.
  - exfalso. apply Hfresh, list_elem_of_In, in_map_iff. exists x. auto.
  - now apply IH.
Qed.

Lemma joined_iff hash1 processed (rest : list (string * ImageAnalysis)) z :
  NoDup (map fst rest) -> In z rest ->
  In z.1 (map fst (List.filter (joins hash1 processed) rest))
  <-> joins hash1 processed z = true.
Proof.
  intros Hnd Hz. rewrite in_map_iff. split.
  - intros (z' & Heq & Hin). apply filter_In in Hin as [Hin Hj].
    now rewrite <- (fst_inj_NoDup rest z' z Hnd Hin Hz Heq).
  - intros Hj. exists z. split; [reflexivity|]. now apply filter_In.
Qed.

Lemma joins_hash hash1 processed (z : string * ImageAnalysis) h :
  pHash z.2 = Some h -> h <> "" -> z.1 ∉ processed ->
  joins hash1 processed z = similar (calculateHashSimilarity hash1 h).
Proof.
  intros Hh Hne Hz. unfold joins.
  rewrite Hh, truthy_hash, bool_decide_eq_false_2 by assumption.
  reflexivity.
Qed.


Lemma identical_hashes_grouped images : forall processed,
  NoDup (map fst images) -> paired images processed ->
  forall x y h, In x images -> In y images -> x.1 <> y.1 ->
    pHash x.2 = Some h -> pHash y.2 = Some h -> h <> "" ->
    x.1 ∉ processed ->
    exists g, In g (find_similar_from images processed)
              /\ In x.1 (group g) /\ In y.1 (group g).
Proof.
  induction images as [|[id_i a_i] rest IH];
    intros processed Hnd Hpair x y h Hx Hy Hxy Hhx Hhy Hne HxP.
  { destruct Hx. }
  change (map fst ((id_i, a_i) :: rest)) with (id_i :: map fst rest) in Hnd.
  apply NoDup_cons in Hnd as [Hfresh Hnd].
  assert (HyP : y.1 ∉ processed).
  { now rewrite <- (Hpair x y h Hx Hy Hhx Hhy Hne). }
  assert (Hpair' : paired rest processed).
  { intros u v k Hu Hv. apply Hpair; now right. }
  assert (Hrest : forall z, In z rest -> z.1 <> id_i).
  { intros z Hz Heq. apply Hfresh, list_elem_of_In, in_map_iff.
    exists z. auto. }
  rewrite find_similar_cons by exact Hnd.
  destruct (bool_decide (id_i ∈ processed)) eqn:Hi.
  { apply bool_decide_eq_true in Hi. cbn [orb].
    destruct Hx as [<-|Hx]; [contradiction|].
    destruct Hy as [<-|Hy]; [contradiction|].
    now apply (IH processed Hnd Hpair' x y h). }
  apply bool_decide_eq_false in Hi.
  destruct (JS.truthy_string (pHash a_i)) eqn:Hgood; cbn [negb orb].
  2: { destruct Hx as [<-|Hx].
       { simpl in Hhx. rewrite Hhx, truthy_hash in Hgood by exact Hne.
         discriminate. }
       destruct Hy as [<-|Hy].
       { simpl in Hhy. rewrite Hhy, truthy_hash in Hgood by exact Hne.
         discriminate. }
       now apply (IH processed Hnd Hpair' x y h). }
  set (hash1 := default "" (pHash a_i)).
  pose proof (joined_iff hash1 processed rest) as Hjoined.
  set (joined := map fst (List.filter (joins hash1 processed) rest)) in *.
  (* the leader is one of the two images *)
  assert (Hlead : forall u v, u = (id_i, a_i) -> In v rest ->
            pHash u.2 = Some h -> pHash v.2 = Some h -> v.1 ∉ processed ->
            In v.1 joined).
  { intros u v -> Hv Hhu Hhv HvP. apply Hjoined; [exact Hnd | exact Hv |].
    rewrite (joins_hash hash1 processed v h) by assumption.
    subst hash1. simpl in Hhu. rewrite Hhu. now apply similar_refl. }
  destruct Hx as [Hx|Hx], Hy as [Hy|Hy].
  - subst x y. contradiction.
  - specialize (Hlead x y (eq_sym Hx) Hy Hhx Hhy HyP).
    destruct joined as [|id_j joined']; [destruct Hlead|].
    eexists. split; [now left|]. subst x. cbn [group fst].
    split; [now left | now right].
  - specialize (Hlead y x (eq_sym Hy) Hx Hhy Hhx HxP).
    destruct joined as [|id_j joined']; [destruct Hlead|].
    eexists. split; [now left|]. subst y. cbn [group fst].
    split; [now right | now left].
  - (* both come after the leader: they join it together or not at all *)
    pose proof (joins_hash hash1 processed x h Hhx Hne HxP) as Hjx.
    pose proof (joins_hash hash1 processed y h Hhy Hne HyP) as Hjy.
    destruct (similar (calculateHashSimilarity hash1 h)) eqn:Hsim.
    + apply (Hjoined x Hnd Hx) in Hjx. apply (Hjoined y Hnd Hy) in Hjy.
      destruct joined as [|id_j joined']; [destruct Hjx|].
      eexists. split; [now left|]. cbn [group].
      split; now right.
    + assert (Hout : forall z, In z rest -> pHash z.2 = Some h ->
                z.1 ∉ processed -> ~ In z.1 joined).
      { intros z Hz Hhz HzP Hin. apply (Hjoined z Hnd Hz) in Hin.
        rewrite (joins_hash hash1 processed z h) in Hin by assumption.
        congruence. }
      destruct joined as [|id_j joined'] eqn:Hj.
      { now apply (IH processed Hnd Hpair' x y h). }
      rewrite <- Hj in *.
      destruct (IH ({[id_i]} ∪ list_to_set joined ∪ processed) Hnd) with
        (x := x) (y := y) (h := h) as (g & Hg & Hgx & Hgy); try assumption.
      * intros u v k Hu Hv Hhu Hhv Hk.
        rewrite !elem_of_union, !elem_of_singleton, !elem_of_list_to_set,
          !list_elem_of_In.
        rewrite (Hjoined u Hnd Hu), (Hjoined v Hnd Hv).
        pose proof (Hpair' u v k Hu Hv Hhu Hhv Hk) as Huv.
        pose proof (Hrest u Hu). pose proof (Hrest v Hv).
        destruct (decide (u.1 ∈ processed)) as [HuP|HuP].
        { assert (v.1 ∈ processed) by tauto. tauto. }
        assert (HvP : v.1 ∉ processed) by tauto.
        rewrite (joins_hash hash1 processed u k),
          (joins_hash hash1 processed v k) by assumption.
        tauto.
      * rewrite !elem_of_union, elem_of_singleton, elem_of_list_to_set,
          list_elem_of_In.
        intros [[Hbad|Hbad]|Hbad].
        -- now apply (Hrest x Hx).
        -- now apply (Hout x Hx Hhx HxP).
        -- contradiction.
      * exists g. split; [now right | auto].
Qed.

(** C6.  Every group [findSimilarImages] emits has at least two members and
    the similarity score 0.9; and, the ids being distinct, two images with
    the same (non-empty) hash string end up in one emitted group, wherever
    they stand in the input and whatever other images are present. *)
Theorem duplicate_groups (images : list (string * ImageAnalysis)) :
  (forall g, In g (findSimilarImages images) ->
     (2 <= length (group g))%nat /\ similarity g = 9 # 10) /\
  (NoDup (map fst images) ->
   forall x y h, In x images -> In y images -> x.1 <> y.1 ->
     pHash x.2 = Some h -> pHash y.2 = Some h -> h <> "" ->
     exists g, In g (findSimilarImages images)
               /\ In x.1 (group g) /\ In y.1 (group g)).
Proof.
  split.
  - intros g. apply groups_have_two.
  - intros Hnd x y h Hx Hy Hxy Hhx Hhy Hne.
    apply (identical_hashes_grouped images ∅ Hnd) with (h := h);
      try assumption.
    + intros u v k _ _ _ _ _. split; intros H%not_elem_of_empty; destruct H.
    + apply not_elem_of_empty.
Qed.

Lemma duplicate_groups_witness :
  exists g, In g (findSimilarImages three_hashed)
            /\ In "a" (group g) /\ In "c" (group g)
            /\ (2 <= length (group g))%nat /\ similarity g = 9 # 10.
Proof.
  destruct (duplicate_groups three_hashed) as [Hsize Hsame].
  assert (Hnd : NoDup (map fst three_hashed)).
  { apply (bool_decide_unpack _). vm_compute. reflexivity. }
  destruct (Hsame Hnd (hashed "a" "11110000") (hashed "c" "11110000")
              "11110000")
    as (g & Hg & Ha & Hc).
  - simpl. auto.
  - simpl. auto.
  - discriminate.
  - reflexivity.
  - reflexivity.
  - discriminate.
  - exists g. destruct (Hsize g Hg) as [Hlen Hsim]. auto 6.
Defined.

(** ** The quality analyzer *)

Section QualityProofs.
Local Open Scope R_scope.

Lemma luminanceR_range p : rgba_ok p -> 0 <= luminanceR p <= 255.
Proof.
  destruct p as [[[r g] b] a]. unfold rgba_ok, channel_ok, luminanceR.
  intros ([Hr0 Hr1] & [Hg0 Hg1] & [Hb0 Hb1] & _).
  apply IZR_le in Hr0, Hr1, Hg0, Hg1, Hb0, Hb1. lra.
Qed.

Lemma sum_bounds (l : list R) : forall acc,
  Forall (fun b => 0 <= b <= 255) l ->
  acc <= fold_left Rplus l acc <= acc + 255 * IZR (Z.of_nat (length l)).
Proof.
  induction l as [|b l IH]; intros acc Hl.
  - cbn [fold_left length]. change (IZR (Z.of_nat 0)) with 0. lra.
  - apply Forall_cons in Hl as [Hb Hl]. cbn [fold_left length].
    specialize (IH (acc + b) Hl). rewrite Nat2Z.inj_succ, succ_IZR. lra.
Qed.

Lemma square_sum_bounds (avg : R) (l : list R) : forall acc,
  0 <= avg <= 255 -> Forall (fun b => 0 <= b <= 255) l ->
  acc <= fold_left (fun s b => s + (b - avg) ^ 2) l acc
      <= acc + 255 * 255 * IZR (Z.of_nat (length l)).
Proof.
  intros acc Havg. revert acc.
  induction l as [|b l IH]; intros acc Hl.
  - cbn [fold_left length]. change (IZR (Z.of_nat 0)) with 0. lra.
  - apply Forall_cons in Hl as [Hb Hl]. cbn [fold_left length].
    specialize (IH (acc + (b - avg) ^ 2) Hl).
    assert (Hsq : 0 <= (b - avg) ^ 2 <= 255 * 255).
    { assert (Hd : -255 <= b - avg <= 255) by lra.
      generalize dependent (b - avg). intros d _ Hd. simpl. nra. }
    rewrite Nat2Z.inj_succ, succ_IZR. lra.
Qed.

Lemma sum_uniform (L : R) (l : list R) : forall acc,
  Forall (fun b => b = L) l ->
  fold_left Rplus l acc = acc + L * IZR (Z.of_nat (length l)).
Proof.
  induction l as [|b l IH]; intros acc Hl.
  - cbn [fold_left length]. change (IZR (Z.of_nat 0)) with 0. lra.
  - apply Forall_cons in Hl as [-> Hl]. cbn [fold_left length].
    rewrite (IH _ Hl), Nat2Z.inj_succ, succ_IZR. lra.
Qed.

Lemma square_sum_uniform (L : R) (l : list R) : forall acc,
  Forall (fun b => b = L) l ->
  fold_left (fun s b => s + (b - L) ^ 2) l acc = acc.
Proof.
  induction l as [|b l IH]; intros acc Hl; [reflexivity|].
  apply Forall_cons in Hl as [-> Hl]. cbn [fold_left].
  rewrite (IH _ Hl). lra.
Qed.

(** Rounding to three decimals keeps a value in [0, 1] there and yields a
    multiple of 1/1000. *)
Lemma toFixed3_unit (x : R) :
  0 <= x <= 1 ->
  0 <= toFixed3 x <= 1 /\ exists z : Z, toFixed3 x = IZR z / 1000.
Proof.
  intros [H0 H1]. unfold toFixed3.
  destruct (Rlt_dec x 0) as [Hneg|_]; [lra|].
  unfold round_half_up. set (z := Zfloor (x * 1000 + / 2)).
  assert (Hz0 : (0 <= z)%Z).
  { apply Zfloor_lub. lra. }
  assert (Hz1 : (z <= 1000)%Z).
  { pose proof (Zfloor_bound (x * 1000 + / 2)) as [Hb _]. fold z in Hb.
    assert (Hlt : IZR z < IZR 1001) by lra.
    apply lt_IZR in Hlt. lia. }
  apply IZR_le in Hz0, Hz1. split; [lra | now exists z].
Qed.

Lemma toFixed3_zero : toFixed3 0 = 0.
Proof.
  unfold toFixed3. destruct (Rlt_dec 0 0) as [Hneg|_]; [lra|].
  unfold round_half_up. rewrite (Zfloor_eq 0); [lra | simpl; lra].
Qed.

Lemma data_at_some (d : list byte) (i : Z) :
  (0 <= i < Z.of_nat (length d))%Z ->
  exists v, data_at d i = Some v /\ 0 <= v.
Proof.
  intros Hi. unfold data_at.
  destruct (i <? 0)%Z eqn:Hneg; [lia|].
  destruct (lookup_lt_is_Some_2 d (Z.to_nat i)) as [b Hb]; [lia|].
  rewrite Hb. simpl. eexists. split; [reflexivity|].
  apply IZR_le, byte_val_range.
Qed.

Lemma luminance_at_some (d : list byte) (i : Z) :
  (0 <= i)%Z -> (i + 2 < Z.of_nat (length d))%Z ->
  exists v, luminance_at d i = Some v.
Proof.
  intros H0 H2. unfold luminance_at.
  destruct (data_at_some d i) as (r & -> & _); [lia|].
  destruct (data_at_some d (i + 1)) as (g & -> & _); [lia|].
  destruct (data_at_some d (i + 2)) as (b & -> & _); [lia|].
  simpl. eauto.
Qed.

(** At an interior pixel the nine reads are in range. *)
Lemma sobel_defined (w h : Z) (d : list byte) (x y : Z) :
  Z.of_nat (length d) = (4 * w * h)%Z ->
  (1 <= x <= w - 2)%Z -> (1 <= y <= h - 2)%Z ->
  exists m, sobel_magnitude w d x y = Some m /\ 0 <= m.
Proof.
  intros Hlen Hx Hy. unfold sobel_magnitude.
  set (i := ((y * w + x) * 4)%Z).
  assert (Hlo : (0 <= i - w * 4 - 4)%Z) by (subst i; nia).
  assert (Hhi : (i + w * 4 + 4 + 2 < Z.of_nat (length d))%Z)
    by (subst i; nia).
  destruct (luminance_at_some d (i - w * 4 - 4)) as [tl ->]; [lia..|].
  destruct (luminance_at_some d (i - w * 4)) as [tm ->]; [lia..|].
  destruct (luminance_at_some d (i - w * 4 + 4)) as [tr ->]; [lia..|].
  destruct (luminance_at_some d (i - 4)) as [ml ->]; [lia..|].
  destruct (luminance_at_some d (i + 4)) as [mr ->]; [lia..|].
  destruct (luminance_at_some d (i + w * 4 - 4)) as [bl ->]; [lia..|].
  destruct (luminance_at_some d (i + w * 4)) as [bm ->]; [lia..|].
  destruct (luminance_at_some d (i + w * 4 + 4)) as [br ->]; [lia..|].
  simpl. eexists. split; [reflexivity | apply sqrt_pos].
Qed.

Lemma accumulate_defined {A} (f : A -> number) (xs : list A) : forall a,
  (forall x, In x xs -> exists m, f x = Some m /\ 0 <= m) ->
  exists a',
    fold_left (fun sharp x => s ← sharp; m ← f x; Some (s + m)) xs (Some a)
    = Some a' /\ a <= a'.
Proof.
  induction xs as [|x xs IH]; intros a Hf.
  - exists a. split; [reflexivity | lra].
  - destruct (Hf x) as (m & Hm & Hm0); [now left|].
    cbn [fold_left]. rewrite Hm. cbn [mbind option_bind].
    destruct (IH (a + m)) as (a' & Ha' & Hle).
    { intros x' Hx'. apply Hf. now right. }
    exists a'. split; [exact Ha' | lra].
Qed.

Lemma rows_defined (g : Z -> number -> number) (ys : list Z) : forall a,
  (forall y a, In y ys -> exists a', g y (Some a) = Some a' /\ a <= a') ->
  exists a', fold_left (fun sharp y => g y sharp) ys (Some a) = Some a'
             /\ a <= a'.
Proof.
  induction ys as [|y ys IH]; intros a Hg.
  - exists a. split; [reflexivity | lra].
  - destruct (Hg y a) as (a1 & Ha1 & Hle1); [now left|].
    cbn [fold_left]. rewrite Ha1.
    destruct (IH a1) as (a' & Ha' & Hle).
    { intros y' b Hy'. apply Hg. now right. }
    exists a'. split; [exact Ha' | lra].
Qed.

(** On a well-formed buffer with at least one pixel [calculateSharpness]
    returns a non-negative number. *)
Lemma calculateSharpness_defined (imageData : ImageData) :
  well_formed imageData -> data imageData <> [] ->
  exists s, calculateSharpness imageData = Some s /\ 0 <= s.
Proof.
  intros (Hw & Hh & Hlen) Hne. unfold calculateSharpness.
  set (w := width imageData) in *. set (h := height imageData) in *.
  assert (Hpos : (0 < w * h)%Z).
  { destruct (data imageData); [contradiction|]. simpl in Hlen. lia. }
  destruct (rows_defined (sharpness_row w (data imageData)) (seqZ 1 (h - 2)) 0)
    as (sharp & -> & Hsharp).
  { intros y a Hy. unfold sharpness_row. apply accumulate_defined.
    intros x Hx. apply list_elem_of_In, elem_of_seqZ in Hx, Hy.
    apply (sobel_defined w h); [exact Hlen | lia | lia]. }
  cbn [mbind option_bind]. unfold ndiv.
  destruct (w * h * 255 =? 0)%Z eqn:Hz; [lia|].
  eexists. split; [reflexivity|].
  apply Rmult_le_pos; [exact Hsharp|].
  apply Rlt_le, Rinv_0_lt_compat, IZR_lt. lia.
Qed.


Lemma unit_metric_toFixed3 (v : R) :
  0 <= v <= 1 -> unit_metric (toFixed3 <$> Some v).
Proof.
  intros Hv. destruct (toFixed3_unit v Hv) as [Hr Hz].
  exists (toFixed3 v). auto.
Qed.

(** C7.  On a well-formed buffer with at least one pixel the quality
    analysis divides by no zero and reads no undefined element: sharpness,
    contrast, brightness and score are numbers of [0, 1] rounded to three
    decimals; on a buffer of one colour (a 1x1 buffer is one) the contrast
    is 0. *)
Theorem quality_in_range (imageData : ImageData) :
  well_formed imageData -> data imageData <> [] ->
  unit_metric (sharpness (analyzeQuality imageData)) /\
  unit_metric (contrast (analyzeQuality imageData)) /\
  unit_metric (brightness (analyzeQuality imageData)) /\
  unit_metric (q_score (analyzeQuality imageData)) /\
  (uniform imageData -> contrast (analyzeQuality imageData) = Some 0).
Proof.
  intros Hwf Hne.
  destruct (calculateSharpness_defined imageData Hwf Hne) as (s & Hs & Hs0).
  destruct Hwf as (Hw & Hh & Hlen).
  unfold analyzeQuality. rewrite Hs.
  set (values := map luminanceR (pixels_of (data imageData))).
  set (n := Z.of_nat (length values)).
  assert (Hn : (0 < n)%Z).
  { subst n values. rewrite length_map.
    rewrite (pixels_of_length _ (width imageData * height imageData)) by lia.
    destruct (data imageData); [contradiction|]. simpl in Hlen. lia. }
  assert (Hvalues : Forall (fun b => 0 <= b <= 255) values).
  { subst values. apply Forall_map.
    eapply Forall_impl; [apply pixels_of_range|].
    intros p. apply luminanceR_range. }
  assert (HnR : 0 < IZR n) by now apply IZR_lt.
  unfold ndiv. destruct (n =? 0)%Z eqn:Hz; [lia|]. clear Hz.
  cbn [mbind option_bind fmap option_fmap option_map sharpness contrast
         brightness q_score].
  set (avg := fold_left Rplus values 0 / IZR n).
  assert (Havg : 0 <= avg <= 255).
  { pose proof (sum_bounds values 0 Hvalues) as [Hlo Hhi]. fold n in Hhi.
    subst avg. split.
    - apply Rmult_le_pos; [lra | apply Rlt_le, Rinv_0_lt_compat, HnR].
    - apply Rmult_le_reg_r with (IZR n); [exact HnR|].
      unfold Rdiv. rewrite Rmult_assoc, Rinv_l by lra. lra. }
  set (v := fold_left (fun s0 b => s0 + (b - avg) ^ 2) values 0 / IZR n).
  assert (Hv : 0 <= v <= 255 * 255).
  { pose proof (square_sum_bounds avg values 0 Havg Hvalues) as [Hlo Hhi].
    fold n in Hhi. subst v. split.
    - apply Rmult_le_pos; [lra | apply Rlt_le, Rinv_0_lt_compat, HnR].
    - apply Rmult_le_reg_r with (IZR n); [exact HnR|].
      unfold Rdiv. rewrite Rmult_assoc, Rinv_l by lra. lra. }
  assert (Hc : 0 <= sqrt v / 255 <= 1 / 2 * 2).
  { assert (Hroot : 0 <= sqrt v <= 255).
    { split; [apply sqrt_pos|].
      rewrite <- (sqrt_square 255) by lra. apply sqrt_le_1; lra. }
    lra. }
  assert (Hbs : 0 <= 1 - Rabs (avg - 128) / 128 <= 1).
  { assert (Habs : 0 <= Rabs (avg - 128) <= 128).
    { split; [apply Rabs_pos|]. apply Rabs_le. lra. }
    lra. }
  assert (Hcs : 0 <= Rmin (sqrt v / 255 * 2) 1 <= 1).
  { split; [apply Rmin_glb; lra | apply Rmin_r]. }
  assert (Hss : 0 <= Rmin s 1 <= 1).
  { split; [apply Rmin_glb; lra | apply Rmin_r]. }
  split; [|split; [|split; [|split]]].
  - apply unit_metric_toFixed3, Hss.
  - apply unit_metric_toFixed3. lra.
  - apply (unit_metric_toFixed3 (avg / 255)). lra.
  - apply unit_metric_toFixed3. lra.
  - intros [rgb Huni].
    assert (Hsame : Forall (fun b => b = luminanceR (rgb, 0%Z)) values).
    { subst values. apply Forall_map. eapply Forall_impl; [exact Huni|].
      intros [[[r g] b] a]. simpl. now intros <-. }
    assert (Hmean : avg = luminanceR (rgb, 0%Z)).
    { subst avg. rewrite (sum_uniform _ values 0 Hsame). fold n.
      field. lra. }
    assert (Hzero : v = 0).
    { subst v. rewrite Hmean, (square_sum_uniform _ values 0 Hsame).
      unfold Rdiv. apply Rmult_0_l. }
    rewrite Hzero, sqrt_0. unfold Rdiv at 1. rewrite Rmult_0_l.
    now rewrite toFixed3_zero.
Qed.

Lemma quality_in_range_witness :
  unit_metric (sharpness (analyzeQuality one_pixel)) /\
  unit_metric (contrast (analyzeQuality one_pixel)) /\
  unit_metric (brightness (analyzeQuality one_pixel)) /\
  unit_metric (q_score (analyzeQuality one_pixel)) /\
  contrast (analyzeQuality one_pixel) = Some 0.
Proof.
  destruct (quality_in_range one_pixel) as (Hs & Hc & Hb & Hq & Huniform).
  - unfold well_formed. simpl. lia.
  - discriminate.
  - repeat split; try assumption. apply Huniform.
    exists (128, 128, 128)%Z. repeat constructor.
Defined.

End QualityProofs.

(** ** The Hamming similarity *)

Lemma count_matches_sym (h1 : string) : forall h2,
  count_matches h1 h2 = count_matches h2 h1.
Proof.
  induction h1 as [|c1 h1 IH]; intros [|c2 h2]; simpl; try reflexivity.
  now rewrite IH, Ascii.eqb_sym.
Qed.

Lemma count_matches_le (h1 : string) : forall h2,
  (count_matches h1 h2 <= String.length h1)%nat.
Proof.
  induction h1 as [|c1 h1 IH]; intros [|c2 h2]; simpl; try lia.
  specialize (IH h2). destruct (Ascii.eqb c1 c2); lia.
Qed.

Lemma count_matches_full (h1 : string) : forall h2,
  String.length h1 = String.length h2 ->
  count_matches h1 h2 = String.length h1 -> h1 = h2.
Proof.
  induction h1 as [|c1 h1 IH]; intros [|c2 h2]; simpl; try discriminate.
  - reflexivity.
  - intros [= Hlen] Hcount. pose proof (count_matches_le h1 h2) as Hle.
    destruct (Ascii.eqb c1 c2) eqn:Hc; [|lia].
    apply Ascii.eqb_eq in Hc as ->. f_equal. apply IH; [exact Hlen | lia].
Qed.

(** [calculateHashSimilarity] does not depend on the order of its
    arguments. *)
Theorem hash_similarity_symmetric (hash1 hash2 : string) :
  calculateHashSimilarity hash1 hash2 = calculateHashSimilarity hash2 hash1.
Proof.
  unfold calculateHashSimilarity.
  rewrite (Nat.eqb_sym (String.length hash2)).
  destruct (String.length hash1 =? String.length hash2)%nat eqn:Hlen;
    [|reflexivity].
  apply Nat.eqb_eq in Hlen. cbn [negb].
  now rewrite <- Hlen, (count_matches_sym hash1).
Qed.

(** A similarity that is a number lies in [0, 1], and it is 1 exactly for
    two equal, non-empty hashes. *)
Theorem hash_similarity_range (hash1 hash2 : string) (q : Q) :
  calculateHashSimilarity hash1 hash2 = Some q ->
  (0 <= q <= 1)%Q /\ (q == 1 <-> hash1 = hash2 /\ hash1 <> "")%Q.
Proof.
  unfold calculateHashSimilarity.
  destruct (String.length hash1 =? String.length hash2)%nat eqn:Hlen;
    cbn [negb].
  - apply Nat.eqb_eq in Hlen.
    destruct (String.length hash1) as [|n] eqn:Hn; [discriminate|].
    cbn [Nat.eqb]. intros [= <-].
    pose proof (count_matches_le hash1 hash2) as Hle. rewrite Hn in Hle.
    assert (Hpos : Z.pos (Pos.of_nat (S n)) = Z.of_nat (S n)).
    { now rewrite <- Pos.of_nat_succ, Zpos_P_of_succ_nat, Nat2Z.inj_succ. }
    unfold Qle, Qeq. cbn [Qnum Qden]. rewrite Hpos.
    split; [lia|]. split.
    + intros Heq. split.
      * apply count_matches_full; [congruence | lia].
      * intros ->. discriminate.
    + intros [<- _]. rewrite count_matches_refl, Hn. lia.
  - apply Nat.eqb_neq in Hlen. intros [= <-].
    split; [split; discriminate|]. split; [discriminate|].
    intros [<- _]. contradiction.
Qed.

Lemma hash_similarity_range_witness :
  (0 <= 3 # 4 <= 1)%Q /\ (3 # 4 == 1 <-> "1100" = "1101" /\ "1100" <> "")%Q.
Proof. apply (hash_similarity_range "1100" "1101" (3 # 4)). reflexivity. Defined.

(** ** The shape of a perceptual hash *)

Lemma append_length (s t : string) :
  String.length (s ++ t) = (String.length s + String.length t)%nat.
Proof. induction s as [|c s IH]; simpl; [reflexivity | now rewrite IH]. Qed.

Lemma append_bits (s t : string) :
  Forall is_bit (list_ascii_of_string s) ->
  Forall is_bit (list_ascii_of_string t) ->
  Forall is_bit (list_ascii_of_string (s ++ t)).
Proof.
  intros Hs Ht. induction s as [|c s IH]; simpl; [exact Ht|].
  simpl in Hs. apply Forall_cons in Hs as [Hc Hs]. constructor; auto.
Qed.

Lemma hash_loop (average : Q) (pixels : list (Z * Z * Z * Z)) : forall hash,
  Forall is_bit (list_ascii_of_string hash) ->
  let result :=
    fold_left
      (fun hash p =>
         hash ++ (if JS.Qgtb (luminanceQ p) average then "1" else "0"))
      pixels hash in
  String.length result = (String.length hash + length pixels)%nat
  /\ Forall is_bit (list_ascii_of_string result).
Proof.
  induction pixels as [|p pixels IH]; intros hash Hhash; cbn [fold_left].
  - cbn [length]. split; [lia | exact Hhash].
  - destruct (IH (hash ++ (if JS.Qgtb (luminanceQ p) average
                           then "1" else "0"))) as [Hlen Hbits].
    + apply append_bits; [exact Hhash|].
      destruct (JS.Qgtb _ _); (constructor; [|constructor]);
        [right | left]; reflexivity.
    + split; [|exact Hbits]. rewrite Hlen, append_length. cbn [length].
      destruct (JS.Qgtb _ _); simpl; lia.
Qed.

(** The hash of a well-formed buffer has one character per pixel, each
    ['0'] or ['1']: 1024 of them for the 32x32 canvas. *)
Theorem hash_shape (imageData : ImageData) :
  well_formed imageData ->
  Z.of_nat (String.length (generatePHash imageData))
  = width imageData * height imageData
  /\ Forall is_bit (list_ascii_of_string (generatePHash imageData)).
Proof.
  intros (Hw & Hh & Hlen). unfold generatePHash.
  destruct (hash_loop
              (fold_left (fun t p => (t + luminanceQ p)%Q)
                         (pixels_of (data imageData)) 0%Q
               / (inject_Z (Z.of_nat (length (data imageData))) / 4))%Q
              (pixels_of (data imageData)) "") as [Hl Hb]; [constructor|].
  split; [|exact Hb]. rewrite Hl. cbn [String.length Nat.add].
  apply pixels_of_length. lia.
Qed.

Lemma hash_shape_witness :
  Z.of_nat (String.length (generatePHash half_dark)) = 1024
  /\ Forall is_bit (list_ascii_of_string (generatePHash half_dark)).
Proof.
  apply (hash_shape half_dark). unfold well_formed. vm_compute.
  repeat split; discriminate.
Defined.

(** ** The structure of the duplicate groups *)

Lemma scan_similar_members hash1 rest : forall members processed,
  exists added,
    (scan_similar hash1 rest members processed).1 = (members ++ added)%list /\
    Forall (similar_member rest hash1) added.
Proof.
  induction rest as [|[id_j a_j] rest IH]; intros members processed.
  - exists []. split; [simpl; now rewrite app_nil_r | constructor].
  - assert (Hweaken : forall added,
              Forall (similar_member rest hash1) added ->
              Forall (similar_member ((id_j, a_j) :: rest) hash1) added).
    { intros added Hadded. eapply Forall_impl; [exact Hadded|].
      intros m (a & Hin & Ht & Hs).
      exists a. split; [now right | auto]. }
    cbn [scan_similar].
    destruct (bool_decide (id_j ∈ processed)).
    { destruct (IH members processed) as (added & Heq & Hall). eauto. }
    destruct (JS.truthy_string (pHash a_j)) eqn:Ht; cbn [negb].
    2: { destruct (IH members processed) as (added & Heq & Hall). eauto. }
    destruct (similar _) eqn:Hs.
    2: { destruct (IH members processed) as (added & Heq & Hall). eauto. }
    destruct (IH (members ++ [id_j])%list ({[id_j]} ∪ processed))
      as (added & Heq & Hall).
    exists (id_j :: added). split.
    + rewrite Heq, <- app_assoc. reflexivity.
    + constructor; [|now apply Hweaken].
      exists a_j. split; [now left | auto].
Qed.

Lemma led_group_cons images x g : led_group images g -> led_group (x :: images) g.
Proof.
  intros (id & a & members & Hg & Hin & Ht & Hall).
  exists id, a, members. split; [exact Hg|]. split; [now right|].
  split; [exact Ht|]. eapply Forall_impl; [exact Hall|].
  intros m (a' & Hin' & Ht' & Hs'). exists a'. split; [now right | auto].
Qed.

Lemma find_similar_from_led images : forall processed g,
  In g (find_similar_from images processed) -> led_group images g.
Proof.
  induction images as [|[id_i a_i] rest IH]; intros processed g; simpl.
  { intros []. }
  destruct (bool_decide (id_i ∈ processed)).
  { intros H. eapply led_group_cons, IH, H. }
  destruct (JS.truthy_string (pHash a_i)) eqn:Ht; cbn [negb].
  2: { intros H. eapply led_group_cons, IH, H. }
  destruct (scan_similar_members (default "" (pHash a_i)) rest [id_i] processed)
    as (added & Heq & Hall).
  destruct (scan_similar _ _ _ _) as [members processed']. simpl in Heq.
  destruct (1 <? length members)%nat.
  2: { intros H. eapply led_group_cons, IH, H. }
  intros [<-|H]; [|eapply led_group_cons, IH, H].
  exists id_i, a_i, added. split; [exact Heq|]. split; [now left|].
  split; [exact Ht|]. eapply Forall_impl; [exact Hall|].
  intros m (a' & Hin' & Ht' & Hs'). exists a'. split; [now right | auto].
Qed.

(** Every emitted group consists of a leader that has a hash and of
    images that have a hash more than 85% similar to the leader's: an image
    without a hash is in no group. *)
Theorem groups_are_led (images : list (string * ImageAnalysis))
  (g : DuplicateGroup) :
  In g (findSimilarImages images) -> led_group images g.
Proof. apply find_similar_from_led. Qed.

Lemma groups_are_led_witness :
  led_group three_hashed {| group := ["a"; "c"]; similarity := 9 # 10 |}.
Proof.
  apply (groups_are_led three_hashed). vm_compute. now left.
Defined.

Lemma NoDup_filter_fst (f : string * ImageAnalysis -> bool)
  (l : list (string * ImageAnalysis)) :
  NoDup (map fst l) -> NoDup (map fst (List.filter f l)).
Proof.
  induction l as [|x l IH]; intros Hnd; [constructor|].
  change (map fst (x :: l)) with (x.1 :: map fst l) in Hnd.
  apply NoDup_cons in Hnd as [Hfresh Hnd]. cbn [List.filter].
  destruct (f x); [|now apply IH].
  change (NoDup (x.1 :: map fst (List.filter f l))).
  apply NoDup_cons. split; [|now apply IH].
  intros Hin. apply Hfresh.
  apply list_elem_of_In, in_map_iff in Hin as (y & Heq & Hy).
  apply filter_In in Hy as [Hy _].
  apply list_elem_of_In, in_map_iff. eauto.
Qed.

Lemma find_similar_from_disjoint images : forall processed,
  NoDup (map fst images) ->
  NoDup (concat (map group (find_similar_from images processed))) /\
  forall id, In id (concat (map group (find_similar_from images processed))) ->
             In id (map fst images) /\ id ∉ processed.
Proof.
  induction images as [|[id_i a_i] rest IH]; intros processed Hnd.
  { split; [constructor | intros id []]. }
  change (map fst ((id_i, a_i) :: rest)) with (id_i :: map fst rest) in *.
  apply NoDup_cons in Hnd as [Hfresh Hnd].
  assert (Hskip :
    NoDup (concat (map group (find_similar_from rest processed))) /\
    forall id, In id (concat (map group (find_similar_from rest processed))) ->
               In id (id_i :: map fst rest) /\ id ∉ processed).
  { destruct (IH processed Hnd) as [H1 H2]. split; [exact H1|].
    intros id Hid. destruct (H2 id Hid). split; [now right | assumption]. }
  rewrite find_similar_cons by exact Hnd.
  destruct (bool_decide (id_i ∈ processed)) eqn:Hi; [exact Hskip|].
  apply bool_decide_eq_false in Hi.
  destruct (negb _); cbn [orb]; [exact Hskip|].
  set (hash1 := default "" (pHash a_i)).
  pose proof (NoDup_filter_fst (joins hash1 processed) rest Hnd) as Hj.
  assert (Hsub : forall id,
            In id (map fst (List.filter (joins hash1 processed) rest)) ->
            In id (map fst rest) /\ id ∉ processed).
  { intros id (x & <- & Hx)%in_map_iff. apply filter_In in Hx as [Hx Hjoin].
    split; [apply in_map_iff; eauto|].
    unfold joins in Hjoin. apply andb_prop in Hjoin as [Hjoin _].
    apply andb_prop in Hjoin as [Hjoin _].
    apply negb_true_iff, bool_decide_eq_false in Hjoin. exact Hjoin. }
  destruct (map fst (List.filter (joins hash1 processed) rest))
    as [|id_j joined] eqn:Hjoined; [exact Hskip|].
  rewrite <- Hjoined in *. clear Hjoined id_j joined.
  set (joined := map fst (List.filter (joins hash1 processed) rest)) in *.
  destruct (IH ({[id_i]} ∪ list_to_set joined ∪ processed) Hnd) as [H1 H2].
  cbn [map concat group]. split.
  - change (NoDup ((id_i :: joined)
                   ++ concat (map group (find_similar_from rest
                        ({[id_i]} ∪ list_to_set joined ∪ processed))))).
    apply NoDup_app. split; [|split; [|exact H1]].
    + apply NoDup_cons. split; [|exact Hj].
      intros Hin%list_elem_of_In. apply Hfresh, list_elem_of_In.
      now apply Hsub.
    + intros id Hid Hid'. apply list_elem_of_In in Hid'.
      destruct (H2 id Hid') as [_ Hout]. apply Hout.
      rewrite !elem_of_union, elem_of_singleton, elem_of_list_to_set.
      apply list_elem_of_In in Hid as [<-|Hid]; [auto|].
      left. right. now apply list_elem_of_In.
  - intros id [<-|Hid]; [split; [now left | exact Hi]|].
    apply in_app_or in Hid as [Hid|Hid].
    + destruct (Hsub id Hid). split; [now right | assumption].
    + destruct (H2 id Hid) as [Hin Hout]. split; [now right|].
      intros HP. apply Hout. rewrite !elem_of_union. auto.
Qed.

(** With distinct ids no image is emitted twice: the emitted groups have
    no member in common and no repeated member. *)
Theorem groups_disjoint (images : list (string * ImageAnalysis)) :
  NoDup (map fst images) ->
  NoDup (concat (map group (findSimilarImages images))).
Proof. intros Hnd. now apply find_similar_from_disjoint. Qed.

Lemma groups_disjoint_witness :
  NoDup (concat (map group (findSimilarImages three_hashed))).
Proof.
  apply (groups_disjoint three_hashed).
  apply (bool_decide_unpack _). vm_compute. reflexivity.
Defined.

(** ** The categorizer and the orchestrator *)

Lemma keyword_category_range (topLabel : string) (c : Category.t) :
  keyword_category topLabel = Some c ->
  In c [ Category.screenshots; Category.nature; Category.food; Category.art;
         Category.pets; Category.vehicles; Category.architecture ].
Proof.
  unfold keyword_category.
  repeat match goal with
         | |- context [if ?b then _ else _] => destruct b
         end;
    intros [= <-]; simpl; repeat (first [left; reflexivity | right]).
Qed.

(** [categorizeImage] assigns one of eleven categories: never
    [duplicates], [memes], [receipts] or [qr-codes]. *)
Theorem categorize_range (analysis : ImageAnalysis) :
  In (categorizeImage analysis)
     [ Category.selfies; Category.documents; Category.screenshots;
       Category.nature; Category.food; Category.art; Category.pets;
       Category.vehicles; Category.architecture; Category.nsfw;
       Category.general ].
Proof.
  unfold categorizeImage.
  destruct (has_faces analysis); [now left|].
  destruct (long_text analysis); [right; now left|].
  destruct (classification_category analysis) as [c|] eqn:Hc.
  - unfold classification_category in Hc.
    destruct (classification analysis) as [[|top rest]|]; try discriminate.
    apply keyword_category_range in Hc. simpl in *.
    intuition (subst; auto 12).
  - destruct (nsfw_flagged analysis); simpl; auto 12.
Qed.

(** Every prediction [detectNSFW] returns has a probability above 0.01. *)
Theorem detectNSFW_above_noise (eng : Engine) (w : World) (p : NsfwPrediction) :
  In p (detectNSFW eng w) -> (1 # 100 < probability p)%Q.
Proof.
  unfold detectNSFW.
  assert (Hneutral :
    In p [ {| className := "Neutral"; probability := 95 # 100 |} ] ->
    (1 # 100 < probability p)%Q).
  { intros [<-|[]]. reflexivity. }
  destruct (_ && _); [|exact Hneutral].
  destruct (nsfw_classify w) as [predictions|m]; [|exact Hneutral].
  intros [_ H]%filter_In. now apply Qgtb_true.
Qed.

Lemma detectNSFW_above_noise_witness :
  (1 # 100 < 6 # 10)%Q.
Proof.
  apply (detectNSFW_above_noise loaded_engine borderline_world
           {| className := "Sexy"; probability := 6 # 10 |}).
  vm_compute. now left.
Defined.



(** A detection whose most probable key is ["constructor"]. *)
Example top_expression_inherited :
  getTopExpression (Some [("happy", 1 # 10); ("constructor", 9 # 10)])
  = inherited "constructor".
Proof. reflexivity. Qed.

(** The three canvas stages leave alone every field that their three
    assignments and the error assignment leave alone. *)
Lemma canvas_stages_keep {X} (proj : ImageAnalysis -> X) (w : World)
  (settings : AiSettings) (b : ImageAnalysis) :
  (forall x c, proj (set_pHash x c) = proj c) ->
  (forall x c, proj (set_quality x c) = proj c) ->
  (forall x c, proj (set_palette x c) = proj c) ->
  (forall x c, proj (set_error x c) = proj c) ->
  proj (run_stages
          [ stage (runDuplicateDetection settings) (hash_stage w) set_pHash;
            stage (runQualityAnalysis settings) (quality_stage w) set_quality;
            stage (runColorPalette settings) (palette_stage w) set_palette ]
          b)
  = proj b.
Proof.
  intros Hh Hq Hp He. apply run_stages_keeps; [|exact He].
  intros st c c' [<-|[<-|[<-|[]]]]; now apply stage_keeps.
Qed.

(** The fields the provider-backed stages assign. *)
Lemma analyze_provider_fields (eng : Engine) (w : World) (f : File)
  (settings : AiSettings) (a : ImageAnalysis) :
  analyze eng w f settings = JS.Ok a ->
  classification a
  = (if runClassifier settings then Some (classifyImage eng w f) else None) /\
  nsfw a = (if runNsfw settings then Some (detectNSFW eng w) else None) /\
  faces a
  = (if runFaceDetection settings then Some (detectFaces eng w f) else None) /\
  ocrText a = (if runOcr settings then Some (extractText eng w) else None).
Proof.
  intros (dims & _ & _ & ->)%analyze_ok. unfold stages.
  rewrite !run_stages_ok.
  rewrite (canvas_stages_keep classification), (canvas_stages_keep nsfw),
    (canvas_stages_keep faces), (canvas_stages_keep ocrText)
    by reflexivity.
  destruct (runOcr settings), (runFaceDetection settings),
    (runNsfw settings), (runObjectDetection settings && _),
    (runCaptioner settings), (runClassifier settings); repeat split.
Qed.

(** [analyze] throws only before its [try] block: on an initialized engine
    and an image that loads it returns an analysis of that file with the
    image's dimensions, whatever the stages do. *)
Theorem analyze_returns (eng : Engine) (w : World) (f : File)
  (settings : AiSettings) (imageElement : Z * Z) :
  isReady eng = true -> createImageElement w = JS.Ok imageElement ->
  exists a, analyze eng w f settings = JS.Ok a /\
            file a = f /\ dimensions a = imageElement.
Proof.
  intros Hready Himg. unfold analyze. rewrite Hready, Himg.
  cbn [negb mbind result_bind JS.bind].
  eexists. split; [reflexivity|]. unfold stages.
  rewrite !run_stages_ok.
  rewrite (canvas_stages_keep file), (canvas_stages_keep dimensions)
    by reflexivity.
  destruct (runOcr settings), (runFaceDetection settings),
    (runNsfw settings), (runObjectDetection settings && _),
    (runCaptioner settings), (runClassifier settings); split; reflexivity.
Qed.

Lemma analyze_returns_witness :
  exists a, analyze degraded_engine hash_fails_world sample_file
              defaultAiSettings = JS.Ok a /\
            file a = sample_file /\ dimensions a = (640, 480).
Proof.
  apply (analyze_returns degraded_engine hash_fails_world sample_file
           defaultAiSettings (640, 480)); reflexivity.
Defined.

(** The analysis carries an error exactly when an enabled canvas stage
    (hash, quality, palette) throws: a failing provider never sets it. *)
Theorem analysis_error_iff (eng : Engine) (w : World) (f : File)
  (settings : AiSettings) (a : ImageAnalysis) :
  analyze eng w f settings = JS.Ok a ->
  error a = None <->
  (runDuplicateDetection settings = true -> exists h, hash_stage w = JS.Ok h) /\
  (runQualityAnalysis settings = true -> exists q, quality_stage w = JS.Ok q) /\
  (runColorPalette settings = true -> exists p, palette_stage w = JS.Ok p).
Proof.
  intros (dims & _ & _ & ->)%analyze_ok. unfold stages.
  rewrite !run_stages_ok.
  match goal with
  | |- context [run_stages _ ?b] => set (a0 := b)
  end.
  assert (H0 : error a0 = None).
  { subst a0.
    destruct (runOcr settings), (runFaceDetection settings),
      (runNsfw settings), (runObjectDetection settings && _),
      (runCaptioner settings), (runClassifier settings); reflexivity. }
  clearbody a0. cbn [run_stages]. unfold stage.
  destruct (runDuplicateDetection settings), (runQualityAnalysis settings),
    (runColorPalette settings), (hash_stage w), (quality_stage w),
    (palette_stage w);
    cbn [mbind result_bind JS.bind error set_error set_pHash set_quality
           set_palette];
    rewrite ?H0; split;
    try (intros _; repeat split; intros; try discriminate; eauto; fail);
    try discriminate;
    try (intros (H1 & H2 & H3);
         try (destruct H1 as [? ?]; [reflexivity | discriminate]);
         try (destruct H2 as [? ?]; [reflexivity | discriminate]);
         try (destruct H3 as [? ?]; [reflexivity | discriminate]); fail).
Qed.

Lemma analysis_error_iff_witness :
  error (run_stages
           (stages loaded_engine second_run sample_file defaultAiSettings)
           (fresh_analysis sample_file (640, 480))) = None.
Proof.
  apply (analysis_error_iff loaded_engine second_run sample_file
           defaultAiSettings); [reflexivity|].
  split; [|split]; intros _.
  - exists (generatePHash half_dark). reflexivity.
  - exists (analyzeQuality one_pixel). reflexivity.
  - eexists. vm_compute. reflexivity.
Defined.

(** With every provider unavailable the category comes from the file name
    alone, and it is never [general]: a name without keyword, or with
    "document", ends in [nsfw] through the neutral fallback prediction. *)
Theorem degraded_mode_categories (eng : Engine) (w : World) (f : File)
  (a : ImageAnalysis) :
  all_unavailable eng -> analyzeImage eng w f = JS.Ok a ->
  In (categorizeImage a)
     [ Category.selfies; Category.screenshots; Category.food;
       Category.nature; Category.nsfw ].
Proof.
  intros (Hc & Hn & Hf & Ho) Ha.
  apply analyze_provider_fields in Ha as (Hclass & Hnsfw & Hfaces & Htext).
  cbn [defaultAiSettings runClassifier runNsfw runFaceDetection runOcr]
    in Hclass, Hnsfw, Hfaces, Htext.
  unfold classifyImage in Hclass. rewrite Hc in Hclass.
  unfold detectNSFW in Hnsfw. rewrite Hn in Hnsfw.
  unfold detectFaces in Hfaces. rewrite Hf in Hfaces.
  unfold extractText in Htext. rewrite Ho in Htext.
  unfold categorizeImage, has_faces, long_text, classification_category,
    nsfw_flagged.
  rewrite Hclass, Hnsfw, Hfaces, Htext.
  unfold fallbackFaceDetection, fallbackClassification.
  destruct (JS.includes (JS.toLowerCase (file_name f)) "selfie"
            || JS.includes (JS.toLowerCase (file_name f)) "portrait").
  { now left. }
  destruct (JS.includes (JS.toLowerCase (file_name f)) "screenshot").
  { right. now left. }
  destruct (JS.includes (JS.toLowerCase (file_name f)) "document").
  { vm_compute. auto 6. }
  destruct (JS.includes (JS.toLowerCase (file_name f)) "food").
  { vm_compute. auto 6. }
  destruct (JS.includes (JS.toLowerCase (file_name f)) "nature").
  { vm_compute. auto 6. }
  vm_compute. auto 6.
Qed.

Lemma degraded_mode_categories_witness :
  In (categorizeImage
        (run_stages (stages degraded_engine borderline_world sample_file
                       defaultAiSettings)
           (fresh_analysis sample_file (640, 480))))
     [ Category.selfies; Category.screenshots; Category.food;
       Category.nature; Category.nsfw ].
Proof.
  apply (degraded_mode_categories degraded_engine borderline_world
           sample_file).
  - repeat split.
  - reflexivity.
Defined.

(** ** Trimming the recognized text *)

Lemma trim_start_list (s : string) :
  list_ascii_of_string (trim_start s)
  = drop_whitespace (list_ascii_of_string s).
Proof.
  induction s as [|c s IH]; [reflexivity|]. simpl.
  destruct (is_whitespace c); [exact IH | reflexivity].
Qed.

Lemma trim_list (s : string) :
  list_ascii_of_string (trim s)
  = rev (drop_whitespace (rev (drop_whitespace (list_ascii_of_string s)))).
Proof.
  unfold trim, reverse_string.
  now rewrite !list_ascii_of_string_of_list_ascii, !trim_start_list,
    list_ascii_of_string_of_list_ascii.
Qed.

Lemma drop_whitespace_head (l : list ascii) (c : ascii) :
  head (drop_whitespace l) = Some c -> is_whitespace c = false.
Proof.
  induction l as [|d l IH]; [discriminate|]. simpl.
  destruct (is_whitespace d) eqn:Hd; [exact IH|].
  simpl. now intros [= <-].
Qed.

Lemma drop_whitespace_suffix (l : list ascii) :
  exists p, l = (p ++ drop_whitespace l)%list.
Proof.
  induction l as [|d l [p Hp]]; [now exists []|]. simpl.
  destruct (is_whitespace d); [|now exists []].
  exists (d :: p). simpl. now rewrite <- Hp.
Qed.

Lemma drop_whitespace_id (l : list ascii) :
  (forall c, head l = Some c -> is_whitespace c = false) ->
  drop_whitespace l = l.
Proof.
  destruct l as [|d l]; [reflexivity|]. intros H. simpl.
  now rewrite (H d).
Qed.

Lemma head_rev (l : list ascii) : head (rev l) = last l.
Proof. rewrite rev_alt. apply head_reverse. Qed.

Lemma last_rev (l : list ascii) : last (rev l) = head l.
Proof. now rewrite <- head_rev, rev_involutive. Qed.

Lemma head_prefix (p q : list ascii) (c : ascii) :
  head p = Some c -> head (p ++ q)%list = Some c.
Proof. destruct p; [discriminate | exact (fun H => H)]. Qed.

Lemma trimmed_list (l : list ascii) :
  let t := rev (drop_whitespace (rev (drop_whitespace l))) in
  (forall c, head t = Some c -> is_whitespace c = false) /\
  (forall c, last t = Some c -> is_whitespace c = false).
Proof.
  intros t. subst t. set (m := drop_whitespace l). split.
  - intros c Hc.
    destruct (drop_whitespace_suffix (rev m)) as [p Hp].
    apply (f_equal (@rev ascii)) in Hp.
    rewrite rev_involutive, rev_app_distr in Hp.
    apply (drop_whitespace_head l). fold m. rewrite Hp.
    now apply head_prefix.
  - intros c. rewrite last_rev. apply drop_whitespace_head.
Qed.

(** [trim] leaves no whitespace at either end, and trimming twice is
    trimming once. *)
Lemma trim_spec (s : string) :
  no_outer_whitespace (trim s) /\ trim (trim s) = trim s.
Proof.
  pose proof (trimmed_list (list_ascii_of_string s)) as [Hhead Hlast].
  cbv zeta in Hhead, Hlast. rewrite <- trim_list in Hhead, Hlast.
  split; [split; assumption|].
  assert (Hinj : forall a b,
            list_ascii_of_string a = list_ascii_of_string b -> a = b).
  { intros a b H. rewrite <- (string_of_list_ascii_of_string a),
      <- (string_of_list_ascii_of_string b). now f_equal. }
  apply Hinj. rewrite (trim_list (trim s)).
  rewrite (drop_whitespace_id _ Hhead).
  rewrite drop_whitespace_id, rev_involutive; [reflexivity|].
  intros c. rewrite head_rev. apply Hlast.
Qed.

(** The text [extractText] returns has no whitespace at either end. *)
Theorem extracted_text_trimmed (eng : Engine) (w : World) :
  no_outer_whitespace (extractText eng w).
Proof.
  assert (Hempty : no_outer_whitespace "") by (split; discriminate).
  unfold extractText. destruct (_ && _); [|exact Hempty].
  destruct (ocr_recognize w); [apply trim_spec | exact Hempty].
Qed.

(** ** What a batch run does to the hook *)

Section BatchInvariants.

Variable organizeOptions : OrganizeOptions.
Variable schedule : nat -> Tick.

(** An induction principle for the loop: [I] holds at the head of every
    iteration and [J] in every state of the trace. *)
Lemma process_queue_invariant (I : Locals -> Runtime -> Prop)
  (J : HookState -> Prop) :
  (forall image l rt,
     I l rt -> aborted (hook rt) = false ->
     let tick := schedule (Z.to_nat (l_processed l)) in
     let rt_await := with_hook (announce image l (hook rt)) rt in
     let rt_resume :=
       fold_left (happen organizeOptions) (meanwhile tick) rt_await in
     let settled :=
       settle organizeOptions image tick l (owns 0 rt_resume)
         (hook rt_resume) in
     let rt_published := published 0 (count settled.1) settled.2 rt_resume in
     J (hook rt_await) /\ J (hook rt_resume) /\ J settled.2 /\
     J (hook rt_published) /\ I (count settled.1) rt_published) ->
  forall queue l rt trace l_end rt_end,
    I l rt ->
    process_queue organizeOptions schedule queue l rt = (trace, l_end, rt_end) ->
    Forall J trace /\ I l_end rt_end.
Proof.
  intros Hstep. induction queue as [|image rest IH];
    intros l rt trace l_end rt_end HI; cbn [process_queue].
  - intros [= <- <- <-]. split; [constructor | exact HI].
  - destruct (aborted (hook rt)) eqn:Hab.
    { intros [= <- <- <-]. split; [constructor | exact HI]. }
    specialize (Hstep image l rt HI Hab). cbv zeta in Hstep.
    destruct (settle _ _ _ _ _ _) as [l1 st_stored]. cbn [fst snd] in Hstep.
    destruct Hstep as (H1 & H2 & H3 & H4 & H5).
    destruct (process_queue _ _ rest _ _) as [[trace' l'] rt'] eqn:Hrest.
    intros [= <- <- <-].
    destruct (IH _ _ _ _ _ H5 Hrest) as [Htrace Hend].
    split; [|exact Hend]. repeat (constructor; [assumption|]). exact Htrace.
Qed.








Lemma category_total_bump categorized c :
  category_total (bump categorized c) = category_total categorized + 1.
Proof. destruct c; unfold category_total, bump; simpl; lia. Qed.

(** What a call has counted per category adds up to its successes. *)
Lemma settle_categories image tick l mine st :
  category_total (l_categorized l) = l_successful l ->
  category_total
    (l_categorized (count (settle organizeOptions image tick l mine st).1))
  = l_successful (count (settle organizeOptions image tick l mine st).1).
Proof.
  intros Hl. unfold settle.
  destruct (outcome tick); cbn [fst count l_categorized l_successful].
  - rewrite category_total_bump. lia.
  - exact Hl.
Qed.

(** In the state a run leaves behind, the per-category counts add up to
    the number of successfully analyzed images, also when other calls of
    [processImages] have run meanwhile. *)
Theorem category_counts_add_up (st final : HookState) :
  last (processImages organizeOptions schedule st) = Some final ->
  category_total (Stats.categorized (stats final))
  = Stats.successful (stats final).
Proof.
  unfold processImages. destruct (images st) as [|i0 imgs] eqn:Himgs.
  { discriminate. }
  destruct (isProcessing st); [discriminate|]. rewrite <- Himgs.
  destruct (process_queue _ _ _ _ _) as [[trace l_end] rt_end] eqn:Hq.
  rewrite app_comm_cons, last_snoc. intros [= <-].
  apply (process_queue_invariant
           (fun l rt => category_total (l_categorized l) = l_successful l /\
                        category_total (Stats.categorized (stats (hook rt)))
                        = Stats.successful (stats (hook rt)))
           (fun _ => True))
    in Hq as [_ [_ Hend]].
  - exact Hend.
  - intros image l rt [Hl _] _. cbv zeta. repeat split.
    + now apply settle_categories.
    + cbn [published hook publish set_stats stats Stats.categorized
             Stats.successful].
      now apply settle_categories.
  - split; reflexivity.
Qed.

(** Between the in-place count and the [setStats] after it the statistics
    disagree with themselves: in the run of [stop_during_second], after the
    [setImages] of the second image, [categorized] already shows two
    images and [successful] still one. *)
Example counts_between_setters :
  (fun s => (Stats.categorized (stats s) Category.general,
             Stats.successful (stats s)))
  <$> processImages default_options stop_during_second five_queued !! 7%nat
  = Some (2, 1).
Proof. vm_compute. reflexivity. Qed.

(** What the call leaves behind: the run is no longer marked in progress,
    the end time is set and [progress.current] is [stats.processed]; when
    [processImages] was not called again meanwhile, [progress.total] is
    [stats.total] too. *)
Theorem run_final_state (st final : HookState) :
  last (processImages organizeOptions schedule st) = Some final ->
  isProcessing final = false /\ Stats.endTime (stats final) = true /\
  Progress.current (progress final) = Stats.processed (stats final) /\
  ((forall i, restart_requested (schedule i) = false) ->
   Progress.total (progress final) = Stats.total (stats final)).
Proof.
  unfold processImages. destruct (images st) as [|i0 imgs] eqn:Himgs.
  { discriminate. }
  destruct (isProcessing st); [discriminate|]. rewrite <- Himgs.
  set (queue := List.filter _ (images st)).
  destruct (process_queue _ _ _ _ _) as [[trace l_end] rt_end] eqn:Hq.
  rewrite app_comm_cons, last_snoc. intros [= <-].
  cbn [wrap_up isProcessing stats progress Stats.endTime Stats.processed
         Stats.total Progress.current Progress.total].
  split; [reflexivity|]. split; [reflexivity|]. split.
  - apply (process_queue_invariant
             (fun l rt => Stats.processed (stats (hook rt)) = l_processed l)
             (fun _ => True))
      in Hq as [_ Hp]; [now rewrite Hp | | reflexivity].
    intros image l rt _ _. cbv zeta. repeat split.
  - intros Hquiet.
    apply (process_queue_invariant
             (fun l rt => suspended rt = [] /\
                          Stats.total (stats (hook rt))
                          = Z.of_nat (length queue))
             (fun _ => True))
      in Hq as [_ [_ Ht]]; [now rewrite Ht | | split; reflexivity].
    intros image l rt [Hnone Ht] _. cbv zeta.
    rewrite (meantime_without_restart organizeOptions)
      by (exact Hnone || apply Hquiet).
    repeat split.
    + now destruct (stop_requested _).
    + cbn [published hook publish set_stats stats Stats.total].
      rewrite settle_total. now destruct (stop_requested _).
Qed.











End BatchInvariants.

Lemma category_counts_add_up_witness :
  let final :=
    default five_queued
      (last (processImages default_options restart_during_second
               five_queued)) in
  category_total (Stats.categorized (stats final))
  = Stats.successful (stats final).
Proof.
  apply (category_counts_add_up default_options restart_during_second
           five_queued).
  vm_compute. reflexivity.
Defined.

Lemma run_final_state_witness :
  let final :=
    default five_queued
      (last (processImages default_options stop_during_second five_queued)) in
  isProcessing final = false /\ Stats.endTime (stats final) = true /\
  Progress.current (progress final) = Stats.processed (stats final) /\
  Progress.total (progress final) = Stats.total (stats final).
Proof.
  intros final.
  assert (Hlast : last (processImages default_options stop_during_second
                          five_queued) = Some final)
    by (vm_compute; reflexivity).
  destruct (run_final_state default_options stop_during_second five_queued
              final Hlast) as (H1 & H2 & H3 & H4).
  split; [exact H1|]. split; [exact H2|]. split; [exact H3|].
  apply H4. intros i. unfold restart_requested, stop_during_second.
  cbn [meanwhile]. now destruct (Nat.eqb i 1).
Defined.



(** A merge suggestion has confidence 0.9, names at least two images, and
    its action keeps the first of them and moves every other one. *)
Theorem suggestion_shape (snapshot : list ImageFile.t) (s : SmartSuggestion) :
  In s (suggest_duplicates snapshot) ->
  sug_confidence s = 9 # 10 /\
  exists keep targets,
    imageIds s = keep :: targets /\ action_targets s = targets /\
    targets <> [].
Proof.
  unfold suggest_duplicates. intros (g & <- & Hg)%in_map_iff.
  apply groups_have_two in Hg as [Hlen Hsim].
  cbn [sug_confidence imageIds action_targets]. split; [exact Hsim|].
  destruct (group g) as [|keep [|t targets]]; simpl in Hlen; try lia.
  exists keep, (t :: targets). repeat split. discriminate.
Qed.

Lemma suggestion_shape_witness :
  let s := {| sug_confidence := 9 # 10;
              sug_description := "Found 2 similar images";
              imageIds := ["a"; "b"];
              action_targets := ["b"] |} in
  sug_confidence s = 9 # 10 /\
  exists keep targets,
    imageIds s = keep :: targets /\ action_targets s = targets /\
    targets <> [].
Proof.
  apply (suggestion_shape [analyzed_image "a" "1111"; analyzed_image "b" "1111"]).
  vm_compute. left. reflexivity.
Defined.

(** ** Loading the providers *)

(** A block of [initialize] leaves alone what neither of its outcomes
    touches. *)
Lemma load_step_keeps {A : Type} (proj : Models -> A) (enabled ok : bool)
  (loaded failed : Models -> Models) (s : Loading) :
  (forall m, proj (loaded m) = proj m) ->
  (forall m, proj (failed m) = proj m) ->
  proj (ld_models (load_step enabled ok loaded failed s))
  = proj (ld_models s).
Proof.
  intros Hloaded Hfailed. unfold load_step.
  destruct enabled, ok; cbn [ld_models]; auto.
Qed.

Lemma load_step_sets (enabled ok : bool) (loaded failed : Models -> Models)
  (s : Loading) :
  ld_models (load_step enabled ok loaded failed s)
  = if enabled then if ok then loaded (ld_models s) else failed (ld_models s)
    else ld_models s.
Proof. unfold load_step. now destruct enabled. Qed.

Ltac skip_blocks :=
  repeat first
    [ rewrite (load_step_keeps classifier) by reflexivity
    | rewrite (load_step_keeps classifierFailed) by reflexivity
    | rewrite (load_step_keeps captioner) by reflexivity
    | rewrite (load_step_keeps captionerFailed) by reflexivity
    | rewrite (load_step_keeps objectDetector) by reflexivity
    | rewrite (load_step_keeps nsfw_model) by reflexivity
    | rewrite (load_step_keeps nsfwFailed) by reflexivity
    | rewrite (load_step_keeps faceDetectionFailed) by reflexivity
    | rewrite (load_step_keeps ssdMobilenetv1_isLoaded) by reflexivity
    | rewrite (load_step_keeps ocr) by reflexivity
    | rewrite (load_step_keeps ocrFailed) by reflexivity ].

(** A first [initialize] leaves the engine ready whatever fails to load,
    and a provider is usable by its stage exactly when it was enabled and
    its load succeeded (for face detection: all four networks). *)
Theorem initialize_usable (settings : AiSettings) (loads : Loads) :
  let eng := (initialize fresh_engine settings loads).1 in
  isReady eng = true /\
  classifier (models eng) && negb (classifierFailed (models eng))
  = runClassifier settings && load_classifier loads /\
  captioner (models eng) && negb (captionerFailed (models eng))
  = runCaptioner settings && load_captioner loads /\
  objectDetector (models eng)
  = runObjectDetection settings && load_objectDetector loads /\
  nsfw_model (models eng) && negb (nsfwFailed (models eng))
  = runNsfw settings && load_nsfw loads /\
  negb (faceDetectionFailed (models eng))
  && ssdMobilenetv1_isLoaded (models eng)
  = runFaceDetection settings && (4 <=? load_faces loads)%nat /\
  ocr (models eng) && negb (ocrFailed (models eng))
  = runOcr settings && load_ocr loads.
Proof.
  unfold initialize. cbn [fresh_engine isReady models fst].
  set (m0 := Build_Models _ _ _ _ _ _ _ _ _ _ _ _).
  split; [reflexivity |].
  repeat split;
    skip_blocks;
    match goal with
    | |- context [ld_models (load_step ?e ?ok _ _ _)] =>
        rewrite !(load_step_sets e ok); destruct e, ok
    end;
    cbn -[load_step]; skip_blocks; reflexivity.
Qed.

(** Once the engine is ready, [initialize] does nothing: it reports no
    progress, retries no failed load and loads no newly enabled
    provider. *)
Theorem initialize_once (eng : Engine) (settings settings' : AiSettings)
  (loads loads' : Loads) :
  initialize (initialize eng settings loads).1 settings' loads'
  = ((initialize eng settings loads).1, []).
Proof.
  destruct (initialize eng settings loads) as [eng1 progress] eqn:Hinit.
  assert (Hready : isReady eng1 = true).
  { unfold initialize in Hinit.
    destruct (isReady eng) eqn:Hr; injection Hinit as <- _;
      [exact Hr | reflexivity]. }
  cbn [fst]. unfold initialize. now rewrite Hready.
Qed.

(** After [initialize], [analyze] returns for every image that loads, even
    if every provider failed to load; after [terminate] it throws. *)
Theorem engine_lifecycle (eng : Engine) (settings settings' : AiSettings)
  (loads : Loads) (w : World) (f : File) (imageElement : Z * Z) :
  createImageElement w = JS.Ok imageElement ->
  (exists a, analyze (initialize eng settings loads).1 w f settings' = JS.Ok a)
  /\ analyze (terminate (initialize eng settings loads).1) w f settings'
     = JS.Throw "Error: AI Engine not initialized. Call initialize() first.".
Proof.
  intros Himg. split; [|reflexivity].
  assert (Hready : isReady (initialize eng settings loads).1 = true).
  { unfold initialize. now destruct (isReady eng) eqn:Hr. }
  unfold analyze. rewrite Hready, Himg.
  cbn [negb mbind result_bind JS.bind]. eexists. reflexivity.
Qed.

Lemma engine_lifecycle_witness :
  (exists a,
     analyze (initialize fresh_engine defaultAiSettings failing_loads).1
       hash_fails_world sample_file defaultAiSettings = JS.Ok a)
  /\ analyze
       (terminate (initialize fresh_engine defaultAiSettings failing_loads).1)
       hash_fails_world sample_file defaultAiSettings
     = JS.Throw "Error: AI Engine not initialized. Call initialize() first.".
Proof.
  apply (engine_lifecycle fresh_engine defaultAiSettings defaultAiSettings
           failing_loads hash_fails_world sample_file (640, 480)).
  reflexivity.
Defined.

(** The progress [initialize] reports on an engine that is not ready starts
    at 0, never decreases and ends at 100. *)
Theorem initialize_progress (eng : Engine) (settings : AiSettings)
  (loads : Loads) :
  isReady eng = false ->
  let progress := (initialize eng settings loads).2 in
  head progress = Some 0%Q /\ last progress = Some 100%Q
  /\ non_decreasing progress.
Proof.
  intros Hready. unfold initialize. rewrite Hready.
  destruct settings as [c1 c2 c3 c4 t c5 c6 c7 c8 c9].
  cbn [runClassifier runCaptioner runObjectDetection runNsfw
         runFaceDetection runOcr].
  destruct c1, c2, c3, c4, c5, c6; vm_compute;
    repeat split; discriminate.
Qed.

Lemma initialize_progress_witness :
  isReady fresh_engine = false /\
  let progress := (initialize fresh_engine defaultAiSettings
                     {| load_classifier := true; load_captioner := false;
                        load_objectDetector := true; load_nsfw := false;
                        load_faces := 2; load_ocr := true |}).2 in
  head progress = Some 0%Q /\ last progress = Some 100%Q
  /\ non_decreasing progress.
Proof.
  split; [reflexivity |].
  apply (initialize_progress fresh_engine defaultAiSettings); reflexivity.
Defined.

(** ** The filtered view *)

Lemma passes_flag (filters : FilterOptions) (image : ImageFile.t) :
  passes filters image = true ->
  flagged_nsfw image = filter_isNSFW filters.
Proof.
  unfold passes.
  destruct (filter_isNSFW filters), (flagged_nsfw image); cbn [Bool.eqb negb];
    try reflexivity;
    repeat match goal with
           | |- context [if ?b then _ else _] => destruct b
           end; discriminate.
Qed.

(** A filtered view never mixes images flagged as NSFW with images that
    are not: every filter setting shows one kind only. *)
Theorem filtered_view_one_kind (filters : FilterOptions) (st : HookState)
  (image1 image2 : ImageFile.t) :
  In image1 (filteredImages filters st) ->
  In image2 (filteredImages filters st) ->
  flagged_nsfw image1 = flagged_nsfw image2.
Proof.
  unfold filteredImages. rewrite !filter_In. intros [_ H1] [_ H2].
  now rewrite (passes_flag _ _ H1), (passes_flag _ _ H2).
Qed.

Lemma filtered_view_one_kind_witness :
  flagged_nsfw (queued_image "a") = flagged_nsfw (queued_image "b").
Proof.
  apply (filtered_view_one_kind DEFAULT_FILTER_OPTIONS five_queued);
    vm_compute; auto.
Defined.

(** With the default filters an image of non-negative size is shown
    exactly when it is not flagged as NSFW. *)
Theorem default_filter_shows_unflagged (image : ImageFile.t) :
  0 <= ImageFile.size image ->
  passes DEFAULT_FILTER_OPTIONS image = negb (flagged_nsfw image).
Proof.
  intros Hsize. unfold passes, DEFAULT_FILTER_OPTIONS.
  cbn [categories hasText hasFaces filter_isNSFW minSize maxSize searchQuery
         negb andb orb JS.truthy_string].
  destruct (Z.ltb_spec (ImageFile.size image) 0) as [Hlt|_]; [lia |].
  now destruct (flagged_nsfw image).
Qed.

Lemma default_filter_shows_unflagged_witness :
  passes DEFAULT_FILTER_OPTIONS (queued_image "a")
  = negb (flagged_nsfw (queued_image "a")).
Proof.
  apply (default_filter_shows_unflagged (queued_image "a")). simpl. lia.
Defined.

(** An image whose analysis has an NSFW prediction above 0.7 is stored
    flagged, so the default filters do not show it. *)
Theorem flagged_image_hidden_by_default (target : ImageFile.t)
  (a : ImageAnalysis) (category : Category.t) (newName : string)
  (newTags : list string) (imgs : list ImageFile.t) (image : ImageFile.t) :
  nsfw_flagged a = true ->
  In image (store_analysis target a category newName newTags imgs) ->
  ImageFile.id image = ImageFile.id target ->
  passes DEFAULT_FILTER_OPTIONS image = false.
Proof.
  intros Hflag Hin Hid. unfold store_analysis in Hin.
  apply in_map_iff in Hin as (img0 & <- & _).
  destruct (String.eqb (ImageFile.id img0) (ImageFile.id target)) eqn:Heq.
  - unfold passes, DEFAULT_FILTER_OPTIONS, flagged_nsfw.
    cbn [categories hasText hasFaces filter_isNSFW ImageFile.legacy legacy_of
           ImageFile.isNSFW negb andb].
    now rewrite Hflag.
  - apply String.eqb_neq in Heq. contradiction.
Qed.

Lemma flagged_image_hidden_by_default_witness :
  passes DEFAULT_FILTER_OPTIONS
    {| ImageFile.id := "a"; ImageFile.file := sample_file;
       ImageFile.name := "selfies_image_2026-01-01_k3x9.jpg";
       ImageFile.size := 2048; ImageFile.processed := true;
       ImageFile.analysis := Some explicit_selfie;
       ImageFile.legacy := Some (legacy_of explicit_selfie);
       ImageFile.category := Some Category.selfies;
       ImageFile.tags := ["selfies"] |}
  = false.
Proof.
  apply (flagged_image_hidden_by_default (queued_image "a") explicit_selfie
           Category.selfies "selfies_image_2026-01-01_k3x9.jpg" ["selfies"]
           (images five_queued));
    [reflexivity | vm_compute; left; reflexivity | reflexivity].
Defined.

(** ** Smart file names *)

Lemma strip_unsafe_name_chars (s : string) : name_chars (strip_unsafe s).
Proof.
  unfold name_chars. induction s as [|c s IH]; cbn [strip_unsafe].
  - constructor.
  - destruct (is_name_char c) eqn:Hc; [|exact IH].
    cbn [list_ascii_of_string]. now constructor.
Qed.

Lemma name_char_not_whitespace (c : ascii) :
  is_name_char c = true -> is_whitespace c = false.
Proof.
  unfold is_name_char, is_whitespace. cbv zeta.
  generalize (N_of_ascii c). intros n H.
  repeat match goal with
         | |- context [(?a <=? ?b)%N] => destruct (N.leb_spec a b)
         | |- context [(?a =? ?b)%N] => destruct (N.eqb_spec a b)
         | H : context [(?a <=? ?b)%N] |- _ => destruct (N.leb_spec a b)
         | H : context [(?a =? ?b)%N] |- _ => destruct (N.eqb_spec a b)
         end; cbn in *; try reflexivity; try discriminate; lia.
Qed.

Lemma underscore_spaces_no_whitespace (s : string) (in_run : bool) :
  no_whitespace (underscore_spaces s in_run).
Proof.
  unfold no_whitespace. revert in_run.
  induction s as [|c s IH]; intros in_run; cbn [underscore_spaces].
  - constructor.
  - destruct (is_whitespace c) eqn:Hc.
    + destruct in_run; [apply IH |].
      cbn [list_ascii_of_string]. constructor; [reflexivity | apply IH].
    + cbn [list_ascii_of_string]. constructor; [exact Hc | apply IH].
Qed.

(** The descriptor of a smart file name never contains whitespace; when
    it is taken from the description it consists of [a-z], [0-9] and [_]
    only, and it is empty when no word of the description has more than
    three characters, whatever the classification says. *)
Theorem descriptor_is_safe (analysis : ImageAnalysis) :
  no_whitespace (descriptor analysis)
  /\ (JS.truthy_string (description analysis) = true ->
      name_chars (descriptor analysis)
      /\ (Forall (fun w => (String.length w <= 3)%nat)
            (split_spaces (default "" (description analysis)) "") ->
          descriptor analysis = "")).
Proof.
  unfold descriptor.
  destruct (JS.truthy_string (description analysis)) eqn:Hd.
  - split; [|intros _; split].
    + eapply Forall_impl; [apply strip_unsafe_name_chars |].
      intros c. apply name_char_not_whitespace.
    + apply strip_unsafe_name_chars.
    + intros Hshort.
      replace (List.filter _ _) with (@nil string); [reflexivity |].
      symmetry.
      induction Hshort as [|w ws Hw _ IH]; [reflexivity |].
      cbn [List.filter]. destruct (Nat.ltb_spec 3 (String.length w)); [lia |].
      exact IH.
  - split; [|discriminate].
    destruct (classification analysis) as [[|c cs]|].
    + repeat constructor.
    + apply underscore_spaces_no_whitespace.
    + repeat constructor.
Qed.

(** ** The quality analyzer on small buffers *)

Section QualityEdges.
Local Open Scope R_scope.

(** The two loops of [calculateSharpness] have no iteration when the
    buffer has fewer than three rows or fewer than three columns. *)
Lemma no_inner_pixels (imageData : ImageData) :
  (width imageData <= 2 \/ height imageData <= 2)%Z ->
  fold_left
    (fun sharp y =>
       sharpness_row (width imageData) (data imageData) y sharp)
    (seqZ 1 (height imageData - 2)) (Some 0)
  = Some 0.
Proof.
  intros [Hw|Hh].
  - generalize (seqZ 1 (height imageData - 2)). intros rows.
    induction rows as [|y rows IH]; [reflexivity|].
    cbn [fold_left]. unfold sharpness_row at 2.
    rewrite seqZ_nil by lia. exact IH.
  - now rewrite seqZ_nil by lia.
Qed.

(** A buffer with fewer than three rows or fewer than three columns has
    no inner pixel: its sharpness is 0, whatever it shows. *)
Theorem narrow_buffer_sharpness (imageData : ImageData) :
  (0 < width imageData)%Z -> (0 < height imageData)%Z ->
  (width imageData <= 2 \/ height imageData <= 2)%Z ->
  sharpness (analyzeQuality imageData) = Some 0.
Proof.
  intros Hw Hh Hnarrow. unfold analyzeQuality. cbn [sharpness].
  unfold calculateSharpness. rewrite (no_inner_pixels _ Hnarrow).
  cbn [mbind option_bind]. unfold ndiv.
  destruct (Z.eqb_spec (width imageData * height imageData * 255) 0) as [H0|_];
    [nia|].
  cbn [mbind option_bind fmap option_fmap option_map].
  f_equal. unfold Rdiv. rewrite Rmult_0_l, Rmin_left by lra.
  apply toFixed3_zero.
Qed.

End QualityEdges.

Lemma narrow_buffer_sharpness_witness :
  sharpness (analyzeQuality one_pixel) = Some 0%R.
Proof. apply (narrow_buffer_sharpness one_pixel); simpl; lia. Defined.


(** ** The earlier lemmas at sample inputs *)

Lemma provider_failures_stay_local_witness :
  error (run_stages
           (stages loaded_engine second_run sample_file defaultAiSettings)
           (fresh_analysis sample_file (640, 480))) = None.
Proof.
  refine (proj1 (provider_failures_stay_local loaded_engine second_run
                   sample_file defaultAiSettings _
                   (generatePHash half_dark) (analyzeQuality one_pixel)
                   _ _ _ _ _)).
  - reflexivity.
  - reflexivity.
  - reflexivity.
  - vm_compute. reflexivity.
Defined.

Lemma palette_of_visible_image_witness :
  exists palette,
    extractColorPalette two_tone (fun _ => 1 # 3) = JS.Ok palette
    /\ length palette = 5%nat
    /\ Forall (fun color => is_hex_color color = true) palette.
Proof.
  apply (palette_of_visible_image two_tone (fun _ => 1 # 3)).
  - vm_compute. discriminate.
  - intros _. split; vm_compute; [discriminate | reflexivity].
Defined.

Lemma cancellation_skips_rest_witness :
  process_queue default_options stop_during_second
    ([queued_image "a"] ++ queued_image "b" :: map queued_image ["c"; "d"; "e"])
    initial_locals (alone (start five_queued))
  = process_queue default_options stop_during_second
      ([queued_image "a"] ++ [queued_image "b"]) initial_locals
      (alone (start five_queued)).
Proof.
  apply (cancellation_skips_rest default_options stop_during_second
           [queued_image "a"] (queued_image "b")
           (map queued_image ["c"; "d"; "e"]) initial_locals
           (alone (start five_queued)));
    [discriminate | simpl; lia | reflexivity | reflexivity].
Defined.
